(** * The exponential leveling engine of the chore application

    Embedding of [server/utils/levelingSystem.js] and of its mirror
    [client/src/utils/levelingSystem.ts], followed by the code around the
    engine: the seeding of rewards, the routes that award and spend points,
    the computations of the kid's routes and the PIN fields of the client.

    Numbers.  The engine works on JavaScript numbers.  Totals, levels, step
    costs and cumulative costs are integers and are modelled in [Z]; the
    non-integer intermediate values, [Math.pow(1.5, level - 1)] and the
    quotient of the percentage, are exact rationals ([Q]), and [Math.floor] is
    [Qfloor].  The rounding of double-precision arithmetic is thus idealised.
    The step cost [50 * 1.5^(level-1)] is a dyadic rational that a double
    holds exactly up to level 31 (totals up to about nineteen million), so
    levels and costs are those of the program there; beyond, and for the
    percentage, whose quotient a double rounds before it is multiplied by
    100, the model gives the result of the exact computation.  The two
    part ways in the last digit: the program's percentage can be one below
    the exact one (57 for a total of 29, where the exact quotient gives 58),
    and from level 81 on, where the cumulative cost is no longer a safe
    integer, its costs are rounded.  A property that rests on the exact
    value of a cost is therefore stated for the levels up to 80, and
    nothing is stated of the value of a percentage beyond its bounds and
    its order.  Overflow is followed in [Js]: from level 1741 on the
    cumulative cost is [Infinity]. *)

From Stdlib Require Import ZArith QArith Qround Qpower Lia List Bool String Ascii.
From Equations Require Import Equations.

Local Open Scope Z_scope.

(** ** The fragment of the JavaScript [Math] object used by the engine *)

Module Math.

Definition floor (x : Q) : Z := Qfloor x.

Definition pow (base : Q) (exponent : Z) : Q := Qpower base exponent.

End Math.

(** The record returned by [getLevelProgress] (interface [LevelProgress] of the
    client file) and the one returned by [checkLevelUp]. *)

Record LevelProgress : Set := mkLevelProgress {
  currentLevel : Z;
  totalPoints : Z;
  pointsInCurrentLevel : Z;
  pointsNeededForNextLevel : Z;
  progressPercentage : option Z;
  pointsToNextLevel : Z
}.

Record LevelUp : Set := mkLevelUp {
  leveledUp : bool;
  oldLevel : Z;
  newLevel : Z;
  levelsGained : Z
}.

(** ** Server side: [server/utils/levelingSystem.js] *)

Module Server.

Definition BASE_POINTS : Z := 50.
Definition MULTIPLIER : Q := 3 # 2.

(** [Math.floor(BASE_POINTS * Math.pow(MULTIPLIER, currentLevel - 1))] *)
Definition getPointsRequiredForLevelUp (currentLevel : Z) : Z :=
  Math.floor (inject_Z BASE_POINTS * Math.pow MULTIPLIER (currentLevel - 1)).

(** [for (let i = 1; i < level; i++) totalPoints += getPointsRequiredForLevelUp(i)],
    entered at the loop test with the current [i] and [totalPoints]. *)
Equations? sumLevelUps (level i totalPoints : Z) : Z
  by wf (Z.to_nat (level - i)) lt :=
  sumLevelUps level i totalPoints with Z_lt_dec i level => {
    | left _ =>
        sumLevelUps level (i + 1) (totalPoints + getPointsRequiredForLevelUp i)
    | right _ => totalPoints }.
Proof. lia. Defined.

Definition getPointsRequiredForLevel (level : Z) : Z :=
  if level <=? 1 then 0
  else Math.floor (inject_Z (sumLevelUps level 1 0)).

(** Two facts about the step cost, on which the exit of the [while (true)]
    loop below rests: it is never negative, and from level 1 on it is at
    least [BASE_POINTS]. *)
Lemma levelUp_nonneg (currentLevel : Z) :
  0 <= getPointsRequiredForLevelUp currentLevel.
Proof.
  unfold getPointsRequiredForLevelUp, Math.floor, Math.pow.
  rewrite <- (Qfloor_Z 0) at 1.
  apply Qfloor_resp_le, Qmult_le_0_compat; [discriminate |].
  apply Qpower_0_le. discriminate.
Qed.

Lemma levelUp_ge_base (currentLevel : Z) :
  1 <= currentLevel -> BASE_POINTS <= getPointsRequiredForLevelUp currentLevel.
Proof.
  intros Hl. unfold getPointsRequiredForLevelUp, Math.floor, Math.pow.
  rewrite <- (Qfloor_Z BASE_POINTS) at 1.
  apply Qfloor_resp_le.
  rewrite <- (Qmult_1_r (inject_Z BASE_POINTS)) at 1.
  apply Qmult_le_l; [reflexivity |].
  apply Qpower_1_le; [discriminate | lia].
Qed.

(** The body of [calculateLevelFromPoints] after the guard: the
    [while (true)] loop over the locals [level] and [pointsUsed], entered at
    the top of an iteration. *)
Equations? levelLoop (totalPoints level pointsUsed : Z) : Z
  by wf (Z.to_nat (totalPoints - pointsUsed) + Z.to_nat (1 - level))%nat lt :=
  levelLoop totalPoints level pointsUsed with
      Z_gt_dec (pointsUsed + getPointsRequiredForLevelUp level) totalPoints => {
    | left _ => level
    | right _ =>
        levelLoop totalPoints (level + 1)
                  (pointsUsed + getPointsRequiredForLevelUp level) }.
Proof.
  clear levelLoop.
  match goal with
  | |- (Z.to_nat (?t - ?u') + _ < _)%nat =>
      change (Z.to_nat (t - u') + Z.to_nat (1 - (level + 1))
              < Z.to_nat (t - pointsUsed) + Z.to_nat (1 - level))%nat
  end.
  pose proof (levelUp_nonneg level).
  destruct (Z_le_gt_dec 1 level) as [Hl | Hl].
  - pose proof (levelUp_ge_base level Hl). unfold BASE_POINTS in *. lia.
  - lia.
Defined.

Definition calculateLevelFromPoints (totalPoints : Z) : Z :=
  if totalPoints <? 0 then 1 else levelLoop totalPoints 1 0.

(** [Math.floor((pointsInCurrentLevel / pointsNeededForNextLevel) * 100)].
    A zero divisor makes the quotient [NaN] or an infinity, which
    [Math.floor] returns unchanged: that is [None]. *)
Definition percentage (pointsInCurrentLevel pointsNeededForNextLevel : Z)
  : option Z :=
  if pointsNeededForNextLevel =? 0 then None
  else Some (Math.floor
               ((inject_Z pointsInCurrentLevel / inject_Z pointsNeededForNextLevel)
                * inject_Z 100)).

Definition getLevelProgress (totalPoints : Z) : LevelProgress :=
  let currentLevel := calculateLevelFromPoints totalPoints in
  let pointsRequiredForCurrentLevel := getPointsRequiredForLevel currentLevel in
  let pointsRequiredForNextLevel := getPointsRequiredForLevel (currentLevel + 1) in
  let pointsInCurrentLevel := totalPoints - pointsRequiredForCurrentLevel in
  let pointsNeededForNextLevel :=
    pointsRequiredForNextLevel - pointsRequiredForCurrentLevel in
  let progressPercentage :=
    percentage pointsInCurrentLevel pointsNeededForNextLevel in
  {| currentLevel := currentLevel;
     totalPoints := totalPoints;
     pointsInCurrentLevel := pointsInCurrentLevel;
     pointsNeededForNextLevel := pointsNeededForNextLevel;
     progressPercentage := progressPercentage;
     pointsToNextLevel := pointsNeededForNextLevel - pointsInCurrentLevel |}.

Definition checkLevelUp (oldPoints newPoints : Z) : LevelUp :=
  let oldLevel := calculateLevelFromPoints oldPoints in
  let newLevel := calculateLevelFromPoints newPoints in
  {| leveledUp := newLevel >? oldLevel;
     oldLevel := oldLevel;
     newLevel := newLevel;
     levelsGained := newLevel - oldLevel |}.

End Server.

(** ** Client side: [client/src/utils/levelingSystem.ts]

    The mirror used by the pages of the application.  It exports the two
    constants and four of the five functions (there is no [checkLevelUp]). *)

Module Client.

Definition BASE_POINTS : Z := 50.
Definition MULTIPLIER : Q := 3 # 2.

Definition getPointsRequiredForLevelUp (currentLevel : Z) : Z :=
  Math.floor (inject_Z BASE_POINTS * Math.pow MULTIPLIER (currentLevel - 1)).

(** The [for] loop and the [while (true)] loop of the TypeScript file. *)
Equations? sumLevelUpsTs (level i totalPoints : Z) : Z
  by wf (Z.to_nat (level - i)) lt :=
  sumLevelUpsTs level i totalPoints with Z_lt_dec i level => {
    | left _ =>
        sumLevelUpsTs level (i + 1) (totalPoints + getPointsRequiredForLevelUp i)
    | right _ => totalPoints }.
Proof. lia. Defined.

Definition getPointsRequiredForLevel (level : Z) : Z :=
  if level <=? 1 then 0
  else Math.floor (inject_Z (sumLevelUpsTs level 1 0)).

Lemma levelUp_mirror (currentLevel : Z) :
  getPointsRequiredForLevelUp currentLevel
  = Server.getPointsRequiredForLevelUp currentLevel.
Proof. reflexivity. Qed.

Equations? levelLoopTs (totalPoints level pointsUsed : Z) : Z
  by wf (Z.to_nat (totalPoints - pointsUsed) + Z.to_nat (1 - level))%nat lt :=
  levelLoopTs totalPoints level pointsUsed with
      Z_gt_dec (pointsUsed + getPointsRequiredForLevelUp level) totalPoints => {
    | left _ => level
    | right _ =>
        levelLoopTs totalPoints (level + 1)
                  (pointsUsed + getPointsRequiredForLevelUp level) }.
Proof.
  clear levelLoopTs.
  match goal with
  | |- (Z.to_nat (?t - ?u') + _ < _)%nat =>
      change (Z.to_nat (t - u') + Z.to_nat (1 - (level + 1))
              < Z.to_nat (t - pointsUsed) + Z.to_nat (1 - level))%nat
  end.
  rewrite levelUp_mirror in *.
  pose proof (Server.levelUp_nonneg level).
  destruct (Z_le_gt_dec 1 level) as [Hl | Hl].
  - pose proof (Server.levelUp_ge_base level Hl).
    unfold Server.BASE_POINTS in *. lia.
  - lia.
Defined.

Definition calculateLevelFromPoints (totalPoints : Z) : Z :=
  if totalPoints <? 0 then 1 else levelLoopTs totalPoints 1 0.

Definition percentage (pointsInCurrentLevel pointsNeededForNextLevel : Z)
  : option Z :=
  if pointsNeededForNextLevel =? 0 then None
  else Some (Math.floor
               ((inject_Z pointsInCurrentLevel / inject_Z pointsNeededForNextLevel)
                * inject_Z 100)).

Definition getLevelProgress (totalPoints : Z) : LevelProgress :=
  let currentLevel := calculateLevelFromPoints totalPoints in
  let pointsRequiredForCurrentLevel := getPointsRequiredForLevel currentLevel in
  let pointsRequiredForNextLevel := getPointsRequiredForLevel (currentLevel + 1) in
  let pointsInCurrentLevel := totalPoints - pointsRequiredForCurrentLevel in
  let pointsNeededForNextLevel :=
    pointsRequiredForNextLevel - pointsRequiredForCurrentLevel in
  let progressPercentage :=
    percentage pointsInCurrentLevel pointsNeededForNextLevel in
  {| currentLevel := currentLevel;
     totalPoints := totalPoints;
     pointsInCurrentLevel := pointsInCurrentLevel;
     pointsNeededForNextLevel := pointsNeededForNextLevel;
     progressPercentage := progressPercentage;
     pointsToNextLevel := pointsNeededForNextLevel - pointsInCurrentLevel |}.

End Client.

(** ** The engine on arbitrary JavaScript numbers

    Nothing in the source restricts [totalPoints] to integers.  [Js] follows
    [calculateLevelFromPoints] on any number value: a finite one (an exact
    rational here), [NaN], or an infinity; an argument that is not a number
    reaches the two comparisons converted to one of these.  The locals
    [level] and [pointsUsed] stay integers whatever the argument is.  The
    loop is run with fuel, one unit per evaluation of the exit test; [None]
    means that the loop is still running when the fuel is spent. *)

Module Js.

Inductive number : Type :=
| Num (q : Q)
| NaN
| Infinity
| NegInfinity.

Definition ofInt (z : Z) : number := Num (inject_Z z).

(** The relational operator [a < b]; any comparison with [NaN] is false. *)
Definition lt (a b : number) : bool :=
  match a, b with
  | NaN, _ | _, NaN => false
  | Infinity, _ => false
  | _, NegInfinity => false
  | NegInfinity, _ => true
  | _, Infinity => true
  | Num p, Num q => negb (Qle_bool q p)
  end.

(** [a > b] *)
Definition gt (a b : number) : bool := lt b a.

Definition isFiniteInteger (x : number) : bool :=
  match x with
  | Num q => Qeq_bool q (inject_Z (Qfloor q))
  | _ => false
  end.

(** How a call completes.  The source has no [throw] statement, so every
    completion built below is a [Return]; [Throw] is there for the error
    signal the specification speaks of. *)
Inductive error : Set := InvalidInput.

Inductive completion (A : Type) : Type :=
| Return (v : A)
| Throw (e : error).
Arguments Return {A} v.
Arguments Throw {A} e.

Fixpoint levelLoop (fuel : nat) (totalPoints : number) (level pointsUsed : Z)
  : option Z :=
  match fuel with
  | O => None
  | S fuel' =>
      let pointsNeeded := Server.getPointsRequiredForLevelUp level in
      if gt (ofInt (pointsUsed + pointsNeeded)) totalPoints then Some level
      else levelLoop fuel' totalPoints (level + 1) (pointsUsed + pointsNeeded)
  end.

Definition calculateLevelFromPoints (fuel : nat) (totalPoints : number)
  : option (completion Z) :=
  if lt totalPoints (ofInt 0) then Some (Return 1)
  else option_map Return (levelLoop fuel totalPoints 1 0).

(** *** The cumulative cost as a double: what overflows

    Totals as large as the cumulative cost of a high level do not fit a
    double.  The definitions below follow [getPointsRequiredForLevelUp] and
    [getPointsRequiredForLevel] on number values that may be infinite. *)

(** [Number.MAX_SAFE_INTEGER] *)
Definition MAX_SAFE_INTEGER : Z := 2 ^ 53 - 1.

(** The double for the exact result of an operation.  The largest double is
    [2^1024 - 2^971]; a result of [2^1024 - 2^970] or more, half a unit in
    the last place above it, is [Infinity].  Below that bound the rounding
    is idealised, as everywhere in this file; no cumulative cost is near
    enough to the bound for the rounding to matter (lemma
    [overflow_margin]). *)
Definition overflow : Q := inject_Z (2 ^ 1024 - 2 ^ 970).

Definition ofExact (q : Q) : number :=
  if Qle_bool overflow q then Infinity
  else if Qle_bool q (- overflow) then NegInfinity
  else Num q.

(** [a + b] *)
Definition add (a b : number) : number :=
  match a, b with
  | NaN, _ | _, NaN => NaN
  | Infinity, NegInfinity | NegInfinity, Infinity => NaN
  | Infinity, _ | _, Infinity => Infinity
  | NegInfinity, _ | _, NegInfinity => NegInfinity
  | Num p, Num q => ofExact (p + q)
  end.

(** An infinity times a finite number [q]. *)
Definition scaleInfinity (positive : bool) (q : Q) : number :=
  if Qeq_bool q 0 then NaN
  else if Bool.eqb positive (Qle_bool 0 q) then Infinity else NegInfinity.

(** [a * b] *)
Definition mul (a b : number) : number :=
  match a, b with
  | NaN, _ | _, NaN => NaN
  | Num p, Num q => ofExact (p * q)
  | Infinity, Num q | Num q, Infinity => scaleInfinity true q
  | NegInfinity, Num q | Num q, NegInfinity => scaleInfinity false q
  | Infinity, Infinity | NegInfinity, NegInfinity => Infinity
  | Infinity, NegInfinity | NegInfinity, Infinity => NegInfinity
  end.

(** [Math.pow(base, exponent)] for an integer exponent. *)
Definition pow (base : Q) (exponent : Z) : number :=
  if Qeq_bool base 0 && (exponent <? 0) then Infinity
  else ofExact (Qpower base exponent).

(** [Math.floor(x)] *)
Definition floor (x : number) : number :=
  match x with
  | Num q => Num (inject_Z (Qfloor q))
  | _ => x
  end.

(** [Math.floor(BASE_POINTS * Math.pow(MULTIPLIER, currentLevel - 1))] *)
Definition getPointsRequiredForLevelUp (currentLevel : Z) : number :=
  floor (mul (ofInt Server.BASE_POINTS) (pow Server.MULTIPLIER (currentLevel - 1))).

(** [for (let i = 1; i < level; i++) totalPoints += getPointsRequiredForLevelUp(i)]
    with the number of iterations left, entered with the current [i] and
    [totalPoints]. *)
Fixpoint sumLevelUps (iterations : nat) (i : Z) (totalPoints : number) : number :=
  match iterations with
  | O => totalPoints
  | S iterations' =>
      sumLevelUps iterations' (i + 1) (add totalPoints (getPointsRequiredForLevelUp i))
  end.

Definition getPointsRequiredForLevel (level : Z) : number :=
  if level <=? 1 then ofInt 0
  else floor (sumLevelUps (Z.to_nat (level - 1)) 1 (ofInt 0)).

End Js.

Import ListNotations.

(** * The database and its callers

    The routes and scripts of the server reach the SQLite database through
    [dbHelpers.run], [dbHelpers.get] and [dbHelpers.all], each of which
    returns a promise.  [Database] models the tables as lists of rows in
    rowid order, with the columns that the functions embedded below read or
    write (the text and time-stamp columns they never touch are left out),
    and an asynchronous computation as a function of the state that either
    resolves or rejects.  Whether a database call rejects is not decided by
    the program: the state carries the answers as a schedule, one boolean
    per call, [true] for a rejection; past the end of the schedule every
    call succeeds.  Output on the console is not modelled.

    A request runs alone here: [bind] hands the state that one [await]
    leaves to the next statement of the same function.  The routes open no
    transaction, and the server may run statements of another request
    between two awaits of this one; such interleavings are not modelled.
    What is proved below of a route or of the seeding is therefore proved
    of a call that no other call interleaves with. *)

Module Database.

Record parent : Set := mkParent {
  parent_id : Z;
  parent_name : string
}.

Record kid : Set := mkKid {
  kid_id : Z;
  kid_parent_id : Z;
  kid_points : Z;
  kid_level : Z
}.

Record task : Set := mkTask {
  task_id : Z;
  task_kid_id : option Z;
  task_points : Z;
  task_status : string;
  task_is_recurring : Z
}.

Record reward : Set := mkReward {
  reward_id : Z;
  reward_parent_id : Z;
  reward_title : string;
  reward_description : option string;
  reward_points_cost : Z;
  reward_is_active : Z
}.

Record redemption : Set := mkRedemption {
  redemption_id : Z;
  redemption_kid_id : Z;
  redemption_reward_id : Z;
  redemption_status : string
}.

(** The tables, the [AUTOINCREMENT] counters of the two tables that the
    embedded functions insert into (the counter of a table is never below
    an id of the table), and the schedule of rejections.  The schema
    declares foreign keys, but the program never turns their enforcement
    on, so an insert does not look at the other tables. *)
Record state : Set := mkState {
  parents : list parent;
  kids : list kid;
  tasks : list task;
  rewards : list reward;
  reward_redemptions : list redemption;
  rewards_seq : Z;
  reward_redemptions_seq : Z;
  faults : list bool
}.

Definition setKids (f : list kid -> list kid) (s : state) : state :=
  mkState (parents s) (f (kids s)) (tasks s) (rewards s) (reward_redemptions s)
          (rewards_seq s) (reward_redemptions_seq s) (faults s).

Definition setTasks (f : list task -> list task) (s : state) : state :=
  mkState (parents s) (kids s) (f (tasks s)) (rewards s) (reward_redemptions s)
          (rewards_seq s) (reward_redemptions_seq s) (faults s).

Definition setFaults (schedule : list bool) (s : state) : state :=
  mkState (parents s) (kids s) (tasks s) (rewards s) (reward_redemptions s)
          (rewards_seq s) (reward_redemptions_seq s) schedule.

(** What a promise settles to, and an [async] function. *)
Inductive error : Set :=
| DbError      (* a database call rejected *)
| TypeError.   (* a property was read on [undefined] *)

Inductive settled (A : Type) : Type :=
| Resolved (a : A)
| Rejected (e : error).
Arguments Resolved {A} a.
Arguments Rejected {A} e.

Definition async (A : Type) : Type := state -> settled A * state.

Definition ret {A} (a : A) : async A := fun s => (Resolved a, s).

Definition throw {A} (e : error) : async A := fun s => (Rejected e, s).

(** [const x = await m; k x] *)
Definition bind {A B} (m : async A) (k : A -> async B) : async B :=
  fun s =>
    match m s with
    | (Resolved a, s') => k a s'
    | (Rejected e, s') => (Rejected e, s')
    end.

(** [try { m } catch (error) { handler error }] *)
Definition tryCatch {A} (m : async A) (handler : error -> async A) : async A :=
  fun s =>
    match m s with
    | (Resolved a, s') => (Resolved a, s')
    | (Rejected e, s') => handler e s'
    end.

(** One call of [dbHelpers]: it consumes one answer of the schedule, and a
    statement that is rejected changes nothing. *)
Definition dbCall {A} (statement : state -> A * state) : async A :=
  fun s =>
    match faults s with
    | true :: schedule => (Rejected DbError, setFaults schedule s)
    | false :: schedule =>
        let (a, s') := statement (setFaults schedule s) in (Resolved a, s')
    | [] => let (a, s') := statement s in (Resolved a, s')
    end.

(** [dbHelpers.run] for a statement that writes, [dbHelpers.get] and
    [dbHelpers.all] for one that reads. *)
Definition run (statement : state -> state) : async unit :=
  dbCall (fun s => (tt, statement s)).

Definition get {A} (query : state -> A) : async A :=
  dbCall (fun s => (query s, s)).

Definition all {A} (query : state -> list A) : async (list A) :=
  dbCall (fun s => (query s, s)).

End Database.

Declare Scope async_scope.
Delimit Scope async_scope with async.
Notation "x <- m ;; k" := (Database.bind m (fun x => k))
  (at level 61, m at next level, right associativity) : async_scope.
Notation "m ;; k" := (Database.bind m (fun _ => k))
  (at level 61, right associativity) : async_scope.

(** ** [server/utils/seedRewards.js] *)

Module SeedRewards.
Import Database.
Local Open Scope async_scope.

Record defaultReward : Set := mkDefaultReward {
  title : string;
  description : string;
  points_cost : Z
}.

Definition defaultRewards : list defaultReward := [
  {| title := "15 minutes extra screen time";
     description := "Extra gaming, TV, or tablet time";
     points_cost := 25 |};
  {| title := "Pick the music in car";
     description := "Control the playlist for one car ride";
     points_cost := 30 |};
  {| title := "Stay up 15 minutes later";
     description := "Extended bedtime for one night";
     points_cost := 40 |};
  {| title := "Choose your own snack";
     description := "Pick any snack from the pantry";
     points_cost := 35 |};
  {| title := "Skip loading dishwasher";
     description := "Get out of one dishwasher duty";
     points_cost := 50 |};
  {| title := "Ice cream after dinner";
     description := "Special dessert treat";
     points_cost := 60 |};
  {| title := "Pick family movie night film";
     description := "Choose what everyone watches";
     points_cost := 75 |};
  {| title := "Friend over for afternoon";
     description := "Have a friend visit for 3-4 hours";
     points_cost := 100 |};
  {| title := "Skip one weekly chore";
     description := "Get out of doing one regular chore this week";
     points_cost := 120 |};
  {| title := "Choose dinner for family";
     description := "Pick what everyone eats tonight!";
     points_cost := 90 |};
  {| title := "Special one-on-one time";
     description := "Do any activity with parent for 1 hour";
     points_cost := 110 |};
  {| title := "Stay up 1 hour later";
     description := "Extended bedtime for weekend night";
     points_cost := 80 |};
  {| title := "Trip to local park/playground";
     description := "Special outing just for you";
     points_cost := 130 |};
  {| title := "Bake cookies together";
     description := "Make your favorite cookies with parent";
     points_cost := 85 |};
  {| title := "Friend sleepover";
     description := "Have a friend over for sleepover weekend";
     points_cost := 250 |};
  {| title := "Movie theater trip";
     description := "Go see any movie you want at the theater";
     points_cost := 200 |};
  {| title := "$10 spending money";
     description := "Cash to spend however you want";
     points_cost := 300 |};
  {| title := "New toy or book";
     description := "Pick out something special under $15";
     points_cost := 350 |};
  {| title := "Arcade/Fun center trip";
     description := "Spend an afternoon at your favorite fun place";
     points_cost := 280 |};
  {| title := "Special day out";
     description := "Plan a whole day doing your favorite activities";
     points_cost := 400 |};
  {| title := "Skip chores for a week";
     description := "Get out of all chores for 7 days";
     points_cost := 500 |};
  {| title := "$25 shopping spree";
     description := "Big spending money for toys, clothes, or treats";
     points_cost := 600 |};
  {| title := "Theme park day";
     description := "Full day at amusement park or water park";
     points_cost := 800 |};
  {| title := "New video game";
     description := "Pick any game under $60";
     points_cost := 750 |};
  {| title := "Weekend camping trip";
     description := "Special outdoor adventure weekend";
     points_cost := 900 |};
  {| title := "Big toy or electronics";
     description := "Something special you've been wanting (up to $100)";
     points_cost := 1000 |}
]%string.

(** [INSERT INTO rewards (parent_id, title, description, points_cost,
    is_active) VALUES (?, ?, ?, ?, 1)] *)
Definition insertReward (parentId : Z) (reward : defaultReward) (s : state)
  : state :=
  let id := rewards_seq s + 1 in
  mkState (parents s) (kids s) (tasks s)
          (rewards s ++ [mkReward id parentId (title reward)
                                  (Some (description reward))
                                  (points_cost reward) 1])
          (reward_redemptions s) id (reward_redemptions_seq s) (faults s).

(** [SELECT COUNT( * ) as count FROM rewards WHERE parent_id = ?] *)
Definition countRewards (parentId : Z) (s : state) : Z :=
  Z.of_nat (List.length
              (filter (fun r => reward_parent_id r =? parentId) (rewards s))).

(** [for (const reward of defaultRewards) await dbHelpers.run(...)] *)
Fixpoint seedLoop (parentId : Z) (remaining : list defaultReward) : async unit :=
  match remaining with
  | [] => ret tt
  | reward :: rest =>
      run (insertReward parentId reward) ;; seedLoop parentId rest
  end.

Definition seedDefaultRewards (parentId : Z) : async unit :=
  tryCatch (seedLoop parentId defaultRewards) (fun error => throw error).

Definition parentHasRewards (parentId : Z) : async bool :=
  tryCatch
    (result <- get (countRewards parentId) ;; ret (result >? 0))
    (fun _ => ret false).

Definition seedRewardsIfEmpty (parentId : Z) : async bool :=
  tryCatch
    (hasRewards <- parentHasRewards parentId ;;
     if negb hasRewards
     then seedDefaultRewards parentId ;; ret true
     else ret false)
    (fun error => throw error).

End SeedRewards.

(** ** [server/scripts/seedExistingParents.js] *)

Module SeedExistingParents.
Import Database SeedRewards.
Local Open Scope async_scope.

(** How the script ends: by returning from the function or through
    [process.exit]. *)
Inductive ending : Set :=
| Returned
| Exited (code : Z).

(** [SELECT id, name FROM parents] *)
Definition selectParents (s : state) : list parent := parents s.

(** The [for] loop over the parents, with its two counters. *)
Fixpoint seedParentsLoop (remaining : list parent) (seededCount skippedCount : Z)
  : async (Z * Z) :=
  match remaining with
  | [] => ret (seededCount, skippedCount)
  | parent :: rest =>
      counts <- tryCatch
                  (wasSeeded <- seedRewardsIfEmpty (parent_id parent) ;;
                   if wasSeeded : bool
                   then ret (seededCount + 1, skippedCount)
                   else ret (seededCount, skippedCount + 1))
                  (fun _ => ret (seededCount, skippedCount)) ;;
      seedParentsLoop rest (fst counts) (snd counts)
  end.

Definition seedAllExistingParents : async ending :=
  tryCatch
    (parents <- all selectParents ;;
     if (List.length parents =? 0)%nat
     then ret Returned
     else seedParentsLoop parents 0 0 ;; ret (Exited 0))
    (fun _ => ret (Exited 1)).

End SeedExistingParents.

(** ** The request and the response of a route

    [verifyToken] has put the decoded token in [req.user]; a route receives
    it with the parameter of its path, already read as a row id (a
    parameter that is not the decimal form of an id matches no row, like an
    id that is absent).  A response is the status with the JSON body. *)

Module Http.

Record user : Set := mkUser {
  userId : Z;
  type : string;
  parentId : Z
}.

Record response (B : Type) : Type := mkResponse {
  status : Z;
  body : B
}.
Arguments mkResponse {B} status body.
Arguments status {B} r.
Arguments body {B} r.

End Http.

(** ** [server/routes/tasks.js]: completing a task *)

Module TaskRoutes.
Import Database Http.
Local Open Scope async_scope.

Inductive completeBody : Set :=
| CompleteError (error : string)
| Completed (message : string) (pointsEarned newTotalPoints : Z)
            (leveledUp : bool) (newLevel : Z) (isRecurring : Z).

Definition sameKid (column : option Z) (id : Z) : bool :=
  match column with
  | Some k => k =? id
  | None => false
  end.

(** [SELECT * FROM tasks WHERE id = ? AND kid_id = ? AND status = "pending"] *)
Definition selectPendingTask (taskId kidId : Z) (s : state) : option task :=
  find (fun t => (task_id t =? taskId) && sameKid (task_kid_id t) kidId
                 && String.eqb (task_status t) "pending")
       (tasks s).

(** [UPDATE tasks SET status = "completed", completed_at = CURRENT_TIMESTAMP
    WHERE id = ?] *)
Definition markCompleted (taskId : Z) : state -> state :=
  setTasks (map (fun t =>
                   if task_id t =? taskId
                   then mkTask (task_id t) (task_kid_id t) (task_points t)
                               "completed" (task_is_recurring t)
                   else t)).

(** [UPDATE kids SET points = points + ? WHERE id = ?] *)
Definition addPoints (points kidId : Z) : state -> state :=
  setKids (map (fun k =>
                  if kid_id k =? kidId
                  then mkKid (kid_id k) (kid_parent_id k) (kid_points k + points)
                             (kid_level k)
                  else k)).

(** [SELECT points, level FROM kids WHERE id = ?] *)
Definition selectKid (kidId : Z) (s : state) : option kid :=
  find (fun k => kid_id k =? kidId) (kids s).

(** [UPDATE kids SET level = ? WHERE id = ?] *)
Definition setLevel (level kidId : Z) : state -> state :=
  setKids (map (fun k =>
                  if kid_id k =? kidId
                  then mkKid (kid_id k) (kid_parent_id k) (kid_points k) level
                  else k)).

(** [Math.floor(kid.points / 100) + 1], "every 100 points = 1 level" *)
Definition levelPer100 (points : Z) : Z :=
  Math.floor (inject_Z points / inject_Z 100) + 1.

(** [router.patch('/:taskId/complete', verifyToken, ...)] *)
Definition completeTask (user : user) (taskId : Z)
  : async (response completeBody) :=
  tryCatch
    (if negb (String.eqb (type user) "kid")
     then ret (mkResponse 403 (CompleteError "Only kids can complete tasks"))
     else
       task <- get (selectPendingTask taskId (userId user)) ;;
       match task with
       | None =>
           ret (mkResponse 404
                  (CompleteError "Task not found or already completed"))
       | Some task =>
           run (markCompleted taskId) ;;
           run (addPoints (task_points task) (userId user)) ;;
           kid <- get (selectKid (userId user)) ;;
           match kid with
           | None => throw TypeError
           | Some kid =>
               let newLevel := levelPer100 (kid_points kid) in
               (if newLevel >? kid_level kid
                then run (setLevel newLevel (userId user))
                else ret tt) ;;
               ret (mkResponse 200
                      (Completed "Task completed successfully!"
                                 (task_points task)
                                 (kid_points kid + task_points task)
                                 (newLevel >? kid_level kid)
                                 (if newLevel >? kid_level kid
                                  then newLevel else kid_level kid)
                                 (task_is_recurring task)))
           end
       end)
    (fun _ => ret (mkResponse 500 (CompleteError "Failed to complete task"))).

End TaskRoutes.

(** ** [server/routes/rewards.js]: the rewards a kid sees, and redeeming one *)

Module RewardRoutes.
Import Database Http.
Local Open Scope async_scope.

Inductive redeemBody : Set :=
| RedeemError (error : string)
| NotEnough (error : string) (required available : Z)
| Redeemed (message title : string) (description : option string)
           (pointsCost remainingPoints : Z).

(** [SELECT * FROM rewards WHERE id = ? AND parent_id = ? AND is_active = 1] *)
Definition selectActiveReward (rewardId parentId : Z) (s : state)
  : option reward :=
  find (fun r => (reward_id r =? rewardId) && (reward_parent_id r =? parentId)
                 && (reward_is_active r =? 1))
       (rewards s).

(** [SELECT points FROM kids WHERE id = ?] *)
Definition selectKid (kidId : Z) (s : state) : option kid :=
  find (fun k => kid_id k =? kidId) (kids s).

(** [ORDER BY points_cost ASC].  Rows of equal cost stay in rowid order:
    [orderByCost] inserts the rows from the last to the first, each before
    the rows that do not cost less.  SQLite promises no order among rows
    of equal cost, and nothing proved below depends on the one chosen
    here. *)
Fixpoint insertByCost (row : reward) (sorted : list reward) : list reward :=
  match sorted with
  | [] => [row]
  | first :: rest =>
      if reward_points_cost row <=? reward_points_cost first
      then row :: sorted
      else first :: insertByCost row rest
  end.

Definition orderByCost (rows : list reward) : list reward :=
  fold_right insertByCost [] rows.

(** [SELECT * FROM rewards WHERE parent_id = ? AND is_active = 1
    ORDER BY points_cost ASC] *)
Definition selectActiveRewards (parentId : Z) (s : state) : list reward :=
  orderByCost
    (filter (fun r => (reward_parent_id r =? parentId) && (reward_is_active r =? 1))
            (rewards s)).

(** A reward of the list, the row with its [canAfford] flag. *)
Record listedReward : Set := mkListedReward {
  listed : reward;
  canAfford : bool
}.

Inductive listBody : Set :=
| ListError (error : string)
| Listed (rewards : list listedReward) (currentPoints : Z).

(** [router.get('/kid', verifyToken, ...)] *)
Definition getKidRewards (user : user) : async (response listBody) :=
  tryCatch
    (if negb (String.eqb (type user) "kid")
     then ret (mkResponse 403 (ListError "Access denied"))
     else
       rewards <- all (selectActiveRewards (parentId user)) ;;
       kid <- get (selectKid (userId user)) ;;
       match kid with
       | None => throw TypeError
       | Some kid =>
           let rewardsWithAffordability :=
             map (fun reward =>
                    mkListedReward reward
                      (kid_points kid >=? reward_points_cost reward))
                 rewards in
           ret (mkResponse 200
                  (Listed rewardsWithAffordability (kid_points kid)))
       end)
    (fun _ => ret (mkResponse 500 (ListError "Failed to get rewards"))).

(** [UPDATE kids SET points = points - ? WHERE id = ?] *)
Definition deductPoints (points kidId : Z) : state -> state :=
  setKids (map (fun k =>
                  if kid_id k =? kidId
                  then mkKid (kid_id k) (kid_parent_id k) (kid_points k - points)
                             (kid_level k)
                  else k)).

(** [INSERT INTO reward_redemptions (kid_id, reward_id) VALUES (?, ?)];
    the status of the new row is the default of the column. *)
Definition insertRedemption (kidId rewardId : Z) (s : state) : state :=
  let id := reward_redemptions_seq s + 1 in
  mkState (parents s) (kids s) (tasks s) (rewards s)
          (reward_redemptions s ++ [mkRedemption id kidId rewardId "pending"])
          (rewards_seq s) id (faults s).

(** [router.post('/:rewardId/redeem', verifyToken, ...)] *)
Definition redeemReward (user : user) (rewardId : Z)
  : async (response redeemBody) :=
  tryCatch
    (if negb (String.eqb (type user) "kid")
     then ret (mkResponse 403 (RedeemError "Only kids can redeem rewards"))
     else
       reward <- get (selectActiveReward rewardId (parentId user)) ;;
       match reward with
       | None =>
           ret (mkResponse 404 (RedeemError "Reward not found or inactive"))
       | Some reward =>
           kid <- get (selectKid (userId user)) ;;
           match kid with
           | None => throw TypeError
           | Some kid =>
               if kid_points kid <? reward_points_cost reward
               then ret (mkResponse 400
                           (NotEnough "Not enough points"
                                      (reward_points_cost reward)
                                      (kid_points kid)))
               else
                 run (deductPoints (reward_points_cost reward) (userId user)) ;;
                 run (insertRedemption (userId user) rewardId) ;;
                 updatedKid <- get (selectKid (userId user)) ;;
                 match updatedKid with
                 | None => throw TypeError
                 | Some updatedKid =>
                     ret (mkResponse 200
                            (Redeemed "Reward redeemed successfully!"
                                      (reward_title reward)
                                      (reward_description reward)
                                      (reward_points_cost reward)
                                      (kid_points updatedKid)))
                 end
           end
       end)
    (fun _ => ret (mkResponse 500 (RedeemError "Failed to redeem reward"))).

End RewardRoutes.

(** ** [server/routes/kid.js]: achievements, streak and history pages

    Each of these routes reads rows and then computes its answer from them.
    What is embedded here is that computation, as a function of the rows
    read.  A date reaches it as the text [YYYY-MM-DD] of a UTC day and is
    modelled by the number of that day; an aggregate that SQL leaves [NULL]
    is [None]. *)

Module KidRoutes.

(** [Math.min], [Math.round] and [Math.ceil], and the number that a column
    which may be [NULL] stands for in a comparison or in [Math.min]. *)
Definition min (a b : Z) : Z := Z.min a b.

Definition round (x : Q) : Z := Qfloor (x + (1 # 2)).

Definition ceil (x : Q) : Z := Qceiling x.

Definition toNumber (column : option Z) : Z :=
  match column with
  | Some n => n
  | None => 0
  end.

(** *** [router.get('/achievements', ...)] *)

(** The row of aggregates over the tasks of the kid. *)
Record stats : Set := mkStats {
  total_tasks : Z;
  completed_tasks : option Z;
  total_points_earned : option Z;
  unique_days_with_tasks : Z
}.

(** An achievement of the answer; its [icon], a constant emoji, is left
    out. *)
Record achievement : Set := mkAchievement {
  id : string;
  name : string;
  description : string;
  unlocked : bool;
  progress : Z;
  required : Z
}.

Definition achievements (stats : stats) (kidLevel : Z) : list achievement := [
  mkAchievement "first_task" "First Steps" "Complete your first task"
    (toNumber (completed_tasks stats) >=? 1)
    (min (toNumber (completed_tasks stats)) 1) 1;
  mkAchievement "task_master" "Task Master" "Complete 10 tasks"
    (toNumber (completed_tasks stats) >=? 10)
    (min (toNumber (completed_tasks stats)) 10) 10;
  mkAchievement "point_collector" "Point Collector" "Earn 100 points"
    (toNumber (total_points_earned stats) >=? 100)
    (min (toNumber (total_points_earned stats)) 100) 100;
  mkAchievement "level_up" "Level Up!" "Reach level 2"
    (kidLevel >=? 2)
    (min kidLevel 2) 2;
  mkAchievement "consistency" "Consistency King"
    "Complete tasks on 5 different days"
    (unique_days_with_tasks stats >=? 5)
    (min (unique_days_with_tasks stats) 5) 5;
  mkAchievement "high_scorer" "High Scorer" "Earn 500 points"
    (toNumber (total_points_earned stats) >=? 500)
    (min (toNumber (total_points_earned stats)) 500) 500
]%string.

(** The [stats] object of the answer. *)
Record summary : Set := mkSummary {
  totalAchievements : Z;
  unlockedAchievements : Z;
  completionRate : Z
}.

Definition achievementSummary (achievements : list achievement) : summary :=
  let unlockedCount := Z.of_nat (List.length (filter unlocked achievements)) in
  let total := Z.of_nat (List.length achievements) in
  mkSummary total unlockedCount
            (round ((inject_Z unlockedCount / inject_Z total) * inject_Z 100)).

(** *** [router.get('/profile', ...)]: the current streak *)

Definition msPerDay : Z := 24 * 60 * 60 * 1000.

(** [new Date(text)] for the text of a day: midnight UTC, in milliseconds. *)
Definition dateOfDay (day : Z) : Z := day * msPerDay.

(** [new Date(ms).toISOString().split('T')[0]], as a day. *)
Definition dayOfInstant (ms : Z) : Z := ms / msPerDay.

(** The iterations [i > 0] of the loop, entered with [prev] the date of
    iteration [i - 1]. *)
Fixpoint streakLoop (prev : Z) (rest : list Z) (currentStreak : Z) : Z :=
  match rest with
  | [] => currentStreak
  | date :: rest' =>
      let diffDays :=
        Math.floor (inject_Z (dateOfDay prev - dateOfDay date)
                    / inject_Z (1000 * 60 * 60 * 24)) in
      if diffDays =? 1
      then streakLoop date rest' (currentStreak + 1)
      else currentStreak
  end.

(** [currentStreak] after the loop over [streakData], the distinct days with
    a completed task, latest first; [now] is the clock in milliseconds. *)
Definition currentStreak (now : Z) (streakData : list Z) : Z :=
  let today := dayOfInstant now in
  let yesterday := dayOfInstant (now - 24 * 60 * 60 * 1000) in
  match streakData with
  | [] => 0
  | date :: rest =>
      streakLoop date rest
                 (if date =? today then 1
                  else if date =? yesterday then 1
                  else 0)
  end.


(** *** [router.get('/tasks/history', ...)]: pages

    [page] and [limit] are the numbers that the texts of the query string
    stand for, which is how the subtraction, the product and the division
    of the route, and SQLite, take them. *)

(** [const offset = (page - 1) * limit] *)
Definition offset (page limit : Z) : Z := (page - 1) * limit.

(** [... LIMIT ? OFFSET ?] over the rows that the query orders.  In SQLite
    a negative offset counts as 0 and a negative limit is no limit. *)
Definition limitOffset {A} (limit offset : Z) (rows : list A) : list A :=
  let rest := skipn (Z.to_nat offset) rows in
  if limit <? 0 then rest else firstn (Z.to_nat limit) rest.

Definition historyPage {A} (page limit : Z) (completed : list A) : list A :=
  limitOffset limit (offset page limit) completed.

(** [totalPages: Math.ceil(totalCount.count / limit)]; a limit of 0 makes
    the quotient [NaN] or an infinity, which [Math.ceil] returns
    unchanged. *)
Definition totalPages (count limit : Z) : Js.number :=
  if limit =? 0
  then (if count =? 0 then Js.NaN
        else if 0 <? count then Js.Infinity else Js.NegInfinity)
  else Js.ofInt (ceil (inject_Z count / inject_Z limit)).

End KidRoutes.

(** ** The client: the PIN fields

    A text is a string of bytes here.  The functions below keep digits and
    drop everything else, and every byte of a character that is not ASCII
    is a non-digit, so the results are those of the program on the UTF-16
    text. *)

Module ClientUi.

(** [\d] and [\D] of a regular expression. *)
Definition isDigit (c : ascii) : bool :=
  let n := nat_of_ascii c in ((48 <=? n) && (n <=? 57))%nat.

Fixpoint allDigits (text : string) : bool :=
  match text with
  | EmptyString => true
  | String c rest => isDigit c && allDigits rest
  end.

(** [client/src/pages/LoginPage.tsx] and [AddKidModal.tsx]:
    [if (value.length <= 4 && /^\d*$/.test(value)) setPin(value)];
    the result is the PIN held by the component afterwards. *)
Definition handlePinChange (pin value : string) : string :=
  if ((String.length value <=? 4)%nat && allDigits value)%bool then value else pin.

(** [text.replace(/\D/g, '')] *)
Fixpoint removeNonDigits (text : string) : list ascii :=
  match text with
  | EmptyString => []
  | String c rest =>
      if isDigit c then c :: removeNonDigits rest else removeNonDigits rest
  end.

(** [src/pages/LoginPage.tsx], [handlePinPaste]: the four boxes of the PIN
    ([None] for an empty box) and the index of the box that gets the
    focus. *)
Definition pastedPin (pastedData : string) : list (option ascii) :=
  let digits := firstn 4 (removeNonDigits pastedData) in
  map (fun index => nth_error digits index) [0; 1; 2; 3]%nat.

(** [newPin.findIndex(digit => !digit)], [-1] when no box is empty. *)
Fixpoint findEmpty (boxes : list (option ascii)) (index : Z) : Z :=
  match boxes with
  | [] => -1
  | None :: _ => index
  | Some _ :: rest => findEmpty rest (index + 1)
  end.

Definition pasteFocus (pastedData : string) : Z :=
  let nextEmptyIndex := findEmpty (pastedPin pastedData) 0 in
  if nextEmptyIndex =? -1 then 3 else Z.min nextEmptyIndex 3.

End ClientUi.

(** * Properties of the server engine *)

Import Server.

(** *** Unfolding of the two loops *)

Lemma sumLevelUps_eq level i total :
  sumLevelUps level i total =
  if Z_lt_dec i level
  then sumLevelUps level (i + 1) (total + getPointsRequiredForLevelUp i)
  else total.
Proof.
  rewrite sumLevelUps_equation_1 at 1.
  destruct (Z_lt_dec i level); simp sumLevelUps; reflexivity.
Qed.

Lemma levelLoop_eq totalPoints level pointsUsed :
  levelLoop totalPoints level pointsUsed =
  if Z_gt_dec (pointsUsed + getPointsRequiredForLevelUp level) totalPoints
  then level
  else levelLoop totalPoints (level + 1)
                 (pointsUsed + getPointsRequiredForLevelUp level).
Proof.
  rewrite levelLoop_equation_1 at 1.
  destruct (Z_gt_dec _ _); simp levelLoop; reflexivity.
Qed.

(** *** The step cost and the cumulative cost *)

(** From level 1 on the step cost is an integer division. *)
Lemma levelUp_closed_form currentLevel :
  1 <= currentLevel ->
  getPointsRequiredForLevelUp currentLevel
  = BASE_POINTS * 3 ^ (currentLevel - 1) / 2 ^ (currentLevel - 1).
Proof.
  intros Hl. unfold getPointsRequiredForLevelUp, Math.floor, Math.pow, MULTIPLIER.
  rewrite Zdiv_Qdiv. apply Qfloor_comp.
  rewrite inject_Z_mult, !Zpower_Qpower by lia.
  rewrite (Qmake_Qdiv 3 2), Qdiv_power.
  unfold Qdiv. rewrite Qmult_assoc. reflexivity.
Qed.

Lemma sumLevelUps_done level i total :
  level <= i -> sumLevelUps level i total = total.
Proof.
  intros H. rewrite sumLevelUps_eq. destruct (Z_lt_dec i level); [lia | reflexivity].
Qed.

(** One more level adds one more pass through the body of the [for] loop. *)
Lemma sumLevelUps_next (n : nat) : forall level i total,
  i <= level -> Z.to_nat (level - i) = n ->
  sumLevelUps (level + 1) i total
  = sumLevelUps level i total + getPointsRequiredForLevelUp level.
Proof.
  induction n as [| n IH]; intros level i total Hle Hn.
  - assert (i = level) by lia. subst i.
    rewrite (sumLevelUps_eq (level + 1)).
    destruct (Z_lt_dec level (level + 1)); [| lia].
    rewrite !sumLevelUps_done by lia. reflexivity.
  - rewrite (sumLevelUps_eq (level + 1)), (sumLevelUps_eq level).
    destruct (Z_lt_dec i (level + 1)); [| lia].
    destruct (Z_lt_dec i level); [| lia].
    apply IH; lia.
Qed.

Lemma required_first level : level <= 1 -> getPointsRequiredForLevel level = 0.
Proof.
  intros H. unfold getPointsRequiredForLevel.
  destruct (Z.leb_spec level 1); [reflexivity | lia].
Qed.

Lemma required_next level :
  1 <= level ->
  getPointsRequiredForLevel (level + 1)
  = getPointsRequiredForLevel level + getPointsRequiredForLevelUp level.
Proof.
  intros H. unfold getPointsRequiredForLevel, Math.floor.
  destruct (Z.leb_spec (level + 1) 1); [lia |].
  rewrite !Qfloor_Z.
  rewrite (sumLevelUps_next (Z.to_nat (level - 1))) by lia.
  destruct (Z.leb_spec level 1); [| reflexivity].
  rewrite sumLevelUps_done by lia. reflexivity.
Qed.

Lemma required_lt_next level :
  1 <= level ->
  getPointsRequiredForLevel level < getPointsRequiredForLevel (level + 1).
Proof.
  intros H. rewrite required_next by assumption.
  pose proof (levelUp_ge_base level H). unfold BASE_POINTS in *. lia.
Qed.

Lemma required_lt_add (k : nat) : forall level,
  1 <= level ->
  getPointsRequiredForLevel level
  < getPointsRequiredForLevel (level + 1 + Z.of_nat k).
Proof.
  induction k as [| k IH]; intros level H.
  - rewrite Z.add_0_r. now apply required_lt_next.
  - replace (level + 1 + Z.of_nat (S k)) with ((level + 1 + Z.of_nat k) + 1) by lia.
    pose proof (IH level H).
    pose proof (required_lt_next (level + 1 + Z.of_nat k)). lia.
Qed.

Lemma required_strict level1 level2 :
  1 <= level1 -> level1 < level2 ->
  getPointsRequiredForLevel level1 < getPointsRequiredForLevel level2.
Proof.
  intros H1 H2.
  replace level2 with (level1 + 1 + Z.of_nat (Z.to_nat (level2 - level1 - 1))) by lia.
  now apply required_lt_add.
Qed.

Lemma required_mono level1 level2 :
  level1 <= level2 ->
  getPointsRequiredForLevel level1 <= getPointsRequiredForLevel level2.
Proof.
  intros H. destruct (Z_le_gt_dec level1 1) as [H1 | H1].
  - rewrite (required_first level1) by assumption.
    destruct (Z_le_gt_dec level2 1) as [H2 | H2].
    + rewrite required_first by assumption. lia.
    + pose proof (required_first 1 ltac:(lia)).
      pose proof (required_strict 1 level2). lia.
  - destruct (Z.eq_dec level1 level2) as [-> | Hne]; [lia |].
    pose proof (required_strict level1 level2). lia.
Qed.

Lemma required_nonneg level : 0 <= getPointsRequiredForLevel level.
Proof.
  destruct (Z_le_gt_dec level 1) as [H | H].
  - rewrite required_first by assumption. lia.
  - pose proof (required_first 1 ltac:(lia)).
    pose proof (required_mono 1 level). lia.
Qed.

(** *** The loop of [calculateLevelFromPoints] *)

(** Invariant of the loop: [pointsUsed] is the cumulative cost of [level] and
    does not exceed the total.  The level returned brackets the total. *)
Lemma levelLoop_bracket (n : nat) : forall totalPoints level pointsUsed,
  Z.to_nat (totalPoints - pointsUsed) = n ->
  1 <= level ->
  pointsUsed = getPointsRequiredForLevel level ->
  pointsUsed <= totalPoints ->
  let result := levelLoop totalPoints level pointsUsed in
  level <= result
  /\ getPointsRequiredForLevel result <= totalPoints
  /\ totalPoints < getPointsRequiredForLevel (result + 1).
Proof.
  induction n as [n IH] using lt_wf_ind.
  intros T level used Hn Hl Hused Hle; cbv zeta.
  rewrite levelLoop_eq.
  destruct (Z_gt_dec _ _) as [Hgt | Hngt].
  - rewrite required_next by assumption. lia.
  - pose proof (levelUp_ge_base level Hl) as Hb. unfold BASE_POINTS in Hb.
    destruct (IH (Z.to_nat (T - (used + getPointsRequiredForLevelUp level)))
                ltac:(lia) T (level + 1)
                (used + getPointsRequiredForLevelUp level))
      as (H1 & H2 & H3); try lia.
    rewrite required_next by assumption. lia.
Qed.

Lemma level_bracket totalPoints :
  0 <= totalPoints ->
  let level := calculateLevelFromPoints totalPoints in
  1 <= level
  /\ getPointsRequiredForLevel level <= totalPoints
  /\ totalPoints < getPointsRequiredForLevel (level + 1).
Proof.
  intros H; cbv zeta. unfold calculateLevelFromPoints.
  destruct (Z.ltb_spec totalPoints 0); [lia |].
  apply (levelLoop_bracket (Z.to_nat (totalPoints - 0))); try lia.
  now rewrite required_first.
Qed.

Lemma level_negative totalPoints :
  totalPoints < 0 -> calculateLevelFromPoints totalPoints = 1.
Proof.
  intros H. unfold calculateLevelFromPoints.
  destruct (Z.ltb_spec totalPoints 0); [reflexivity | lia].
Qed.

Lemma level_ge_1 totalPoints : 1 <= calculateLevelFromPoints totalPoints.
Proof.
  destruct (Z_lt_ge_dec totalPoints 0).
  - rewrite level_negative by assumption. lia.
  - apply level_bracket. lia.
Qed.

(** The bracket determines the level. *)
Lemma level_unique totalPoints level :
  1 <= level ->
  getPointsRequiredForLevel level <= totalPoints ->
  totalPoints < getPointsRequiredForLevel (level + 1) ->
  calculateLevelFromPoints totalPoints = level.
Proof.
  intros Hl Hlo Hhi.
  pose proof (required_nonneg level).
  destruct (level_bracket totalPoints ltac:(lia)) as (H1 & H2 & H3).
  remember (calculateLevelFromPoints totalPoints) as found.
  destruct (Z.lt_total found level) as [Hlt | [Heq | Hgt]]; [| assumption |].
  - pose proof (required_mono (found + 1) level). lia.
  - pose proof (required_mono (level + 1) found). lia.
Qed.

Lemma level_mono a b :
  a <= b -> calculateLevelFromPoints a <= calculateLevelFromPoints b.
Proof.
  intros Hab.
  destruct (Z_lt_ge_dec a 0) as [Ha | Ha].
  - rewrite (level_negative a) by assumption. apply level_ge_1.
  - destruct (level_bracket a ltac:(lia)) as (A1 & A2 & A3).
    destruct (level_bracket b ltac:(lia)) as (B1 & B2 & B3).
    destruct (Z_le_gt_dec (calculateLevelFromPoints a) (calculateLevelFromPoints b))
      as [H | H]; [assumption |].
    pose proof (required_mono (calculateLevelFromPoints b + 1)
                              (calculateLevelFromPoints a)). lia.
Qed.

(** *** [getLevelProgress] *)

(** With a non-zero divisor the percentage is the integer quotient of
    [100 * pointsInCurrentLevel] by the divisor, rounded down. *)
Lemma percentage_div p n :
  n <> 0 -> percentage p n = Some (100 * p / n).
Proof.
  intros Hn. unfold percentage, Math.floor.
  destruct (Z.eqb_spec n 0); [contradiction |].
  f_equal. rewrite Zdiv_Qdiv.
  apply Qfloor_comp.
  rewrite inject_Z_mult.
  field. intros H0. apply Hn.
  now apply inject_Z_injective.
Qed.

Lemma percentage_zero_divisor p : percentage p 0 = None.
Proof. reflexivity. Qed.

(** The divisor of [getLevelProgress] is the step cost of the level. *)
Lemma progress_divisor totalPoints :
  pointsNeededForNextLevel (getLevelProgress totalPoints)
  = getPointsRequiredForLevelUp (calculateLevelFromPoints totalPoints).
Proof.
  unfold getLevelProgress; cbn [pointsNeededForNextLevel].
  rewrite required_next by apply level_ge_1. lia.
Qed.

Lemma progress_divisor_ge_base totalPoints :
  BASE_POINTS <= pointsNeededForNextLevel (getLevelProgress totalPoints).
Proof.
  rewrite progress_divisor. apply levelUp_ge_base, level_ge_1.
Qed.

Lemma progress_bounds totalPoints :
  0 <= totalPoints ->
  let report := getLevelProgress totalPoints in
  1 <= pointsNeededForNextLevel report
  /\ 0 <= pointsInCurrentLevel report < pointsNeededForNextLevel report
  /\ 0 < pointsToNextLevel report
  /\ exists percent,
       progressPercentage report = Some percent /\ 0 <= percent <= 99.
Proof.
  intros H; cbv zeta.
  pose proof (progress_divisor_ge_base totalPoints) as Hd.
  unfold BASE_POINTS in Hd.
  destruct (level_bracket totalPoints H) as (L1 & L2 & L3).
  revert Hd. unfold getLevelProgress.
  cbn [pointsNeededForNextLevel pointsInCurrentLevel pointsToNextLevel
       progressPercentage].
  set (lo := getPointsRequiredForLevel (calculateLevelFromPoints totalPoints)) in *.
  set (hi := getPointsRequiredForLevel (calculateLevelFromPoints totalPoints + 1)) in *.
  intros Hd. repeat split; try lia.
  exists (100 * (totalPoints - lo) / (hi - lo)).
  split; [apply percentage_div; lia |].
  split.
  - apply Z.div_pos; lia.
  - enough (100 * (totalPoints - lo) / (hi - lo) < 100) by lia.
    apply Z.div_lt_upper_bound; lia.
Qed.

Lemma progress_negative totalPoints :
  totalPoints < 0 ->
  getLevelProgress totalPoints
  = {| currentLevel := 1;
       totalPoints := totalPoints;
       pointsInCurrentLevel := totalPoints;
       pointsNeededForNextLevel := 50;
       progressPercentage := Some (2 * totalPoints);
       pointsToNextLevel := 50 - totalPoints |}.
Proof.
  intros H. unfold getLevelProgress.
  rewrite level_negative by assumption.
  change (getPointsRequiredForLevel (1 + 1)) with 50.
  change (getPointsRequiredForLevel 1) with 0.
  rewrite percentage_div by lia.
  rewrite Z.sub_0_r.
  replace (100 * totalPoints) with (2 * totalPoints * 50) by lia.
  rewrite Z.div_mul by lia.
  reflexivity.
Qed.

(** *** [checkLevelUp] *)

Lemma levelUp_fields oldPoints newPoints :
  let result := checkLevelUp oldPoints newPoints in
  oldLevel result = calculateLevelFromPoints oldPoints
  /\ newLevel result = calculateLevelFromPoints newPoints
  /\ levelsGained result
     = calculateLevelFromPoints newPoints - calculateLevelFromPoints oldPoints
  /\ (leveledUp result = true
      <-> calculateLevelFromPoints oldPoints < calculateLevelFromPoints newPoints).
Proof.
  cbv zeta. unfold checkLevelUp; cbn.
  repeat split; try reflexivity.
  - intros H. apply Z.gtb_lt in H. lia.
  - intros H. apply Z.gtb_lt. lia.
Qed.

(** * The engine on arbitrary numbers *)

(** *** Comparisons against an integer *)

Lemma gt_ofInt s t : Js.gt (Js.ofInt s) (Js.ofInt t) = (s >? t).
Proof.
  unfold Js.gt, Js.lt, Js.ofInt.
  destruct (Z.gtb_spec s t) as [H | H].
  - apply negb_true_iff. destruct (Qle_bool (inject_Z s) (inject_Z t)) eqn:E; [| reflexivity].
    apply Qle_bool_iff in E. rewrite <- Zle_Qle in E. lia.
  - apply negb_false_iff, Qle_bool_iff. rewrite <- Zle_Qle. assumption.
Qed.

Lemma lt_ofInt s t : Js.lt (Js.ofInt s) (Js.ofInt t) = (s <? t).
Proof.
  change (Js.lt (Js.ofInt s) (Js.ofInt t)) with (Js.gt (Js.ofInt t) (Js.ofInt s)).
  rewrite gt_ofInt. apply Z.gtb_ltb.
Qed.

(** An integer exceeds a finite number exactly when it exceeds its floor. *)
Lemma gt_floor s q : Js.gt (Js.ofInt s) (Js.Num q) = (s >? Qfloor q).
Proof.
  unfold Js.gt, Js.lt, Js.ofInt.
  destruct (Z.gtb_spec s (Qfloor q)) as [H | H].
  - apply negb_true_iff. destruct (Qle_bool (inject_Z s) q) eqn:E; [| reflexivity].
    apply Qle_bool_iff in E. apply Qfloor_resp_le in E.
    rewrite Qfloor_Z in E. lia.
  - apply negb_false_iff, Qle_bool_iff.
    apply Qle_trans with (inject_Z (Qfloor q)); [| apply Qfloor_le].
    rewrite <- Zle_Qle. assumption.
Qed.

Lemma lt_floor q t : Js.lt (Js.Num q) (Js.ofInt t) = (Qfloor q <? t).
Proof.
  change (Js.lt (Js.Num q) (Js.ofInt t)) with (Js.gt (Js.ofInt t) (Js.Num q)).
  rewrite gt_floor. apply Z.gtb_ltb.
Qed.

(** *** The fuelled loop against the loop of [Server] *)

Lemma loop_sound fuel : forall totalPoints level pointsUsed result,
  Js.levelLoop fuel (Js.ofInt totalPoints) level pointsUsed = Some result ->
  levelLoop totalPoints level pointsUsed = result.
Proof.
  induction fuel as [| fuel IH]; intros T level used result; cbn [Js.levelLoop].
  - discriminate.
  - cbv zeta. rewrite gt_ofInt, levelLoop_eq.
    destruct (Z_gt_dec _ _) as [Hgt | Hngt].
    + destruct (Z.gtb_spec (used + getPointsRequiredForLevelUp level) T); [| lia].
      congruence.
    + destruct (Z.gtb_spec (used + getPointsRequiredForLevelUp level) T); [lia |].
      apply IH.
Qed.

(** The loop evaluates its test once for each level from the one it is
    entered with to the one it returns. *)
Lemma loop_complete fuel : forall totalPoints level pointsUsed,
  1 <= level ->
  pointsUsed = getPointsRequiredForLevel level ->
  pointsUsed <= totalPoints ->
  calculateLevelFromPoints totalPoints - level < Z.of_nat fuel ->
  Js.levelLoop fuel (Js.ofInt totalPoints) level pointsUsed
  = Some (calculateLevelFromPoints totalPoints).
Proof.
  induction fuel as [| fuel IH]; intros T level used Hl Hused Hle Hfuel.
  - pose proof (required_nonneg level).
    destruct (level_bracket T ltac:(lia)) as (B1 & B2 & B3).
    destruct (Z_le_gt_dec level (calculateLevelFromPoints T)) as [H' | H']; [lia |].
    pose proof (required_mono (calculateLevelFromPoints T + 1) level). lia.
  - cbn [Js.levelLoop]; cbv zeta. rewrite gt_ofInt.
    destruct (Z.gtb_spec (used + getPointsRequiredForLevelUp level) T) as [Hgt | Hngt].
    + f_equal. symmetry. apply level_unique; try lia.
      rewrite required_next by assumption. lia.
    + apply IH; try lia.
      now rewrite required_next, Hused.
Qed.

(** A fractional total is treated as its floor. *)
Lemma loop_floor fuel : forall q level pointsUsed,
  Js.levelLoop fuel (Js.Num q) level pointsUsed
  = Js.levelLoop fuel (Js.ofInt (Qfloor q)) level pointsUsed.
Proof.
  induction fuel as [| fuel IH]; intros q level used; cbn [Js.levelLoop];
    [reflexivity |].
  cbv zeta. rewrite gt_floor, gt_ofInt, IH. reflexivity.
Qed.

Lemma level_floor fuel q :
  Js.calculateLevelFromPoints fuel (Js.Num q)
  = Js.calculateLevelFromPoints fuel (Js.ofInt (Qfloor q)).
Proof.
  unfold Js.calculateLevelFromPoints.
  rewrite lt_floor, lt_ofInt, loop_floor. reflexivity.
Qed.

(** With [NaN] or [Infinity] as total the exit test is never true. *)
Lemma loop_never_exits fuel : forall totalPoints level pointsUsed,
  totalPoints = Js.NaN \/ totalPoints = Js.Infinity ->
  Js.levelLoop fuel totalPoints level pointsUsed = None.
Proof.
  induction fuel as [| fuel IH]; intros T level used HT; cbn [Js.levelLoop];
    [reflexivity |].
  cbv zeta.
  replace (Js.gt (Js.ofInt (used + getPointsRequiredForLevelUp level)) T)
    with false by (destruct HT; subst T; reflexivity).
  now apply IH.
Qed.

(** *** Geometric growth of the step cost *)

Lemma levelUp_doubles level :
  1 <= level ->
  2 * getPointsRequiredForLevelUp level <= getPointsRequiredForLevelUp (level + 2).
Proof.
  intros Hl. unfold getPointsRequiredForLevelUp, Math.floor, Math.pow.
  set (x := (inject_Z BASE_POINTS * MULTIPLIER ^ (level - 1))%Q).
  rewrite <- (Qfloor_Z (2 * Qfloor x)).
  apply Qfloor_resp_le.
  assert (Hx : (0 <= x)%Q).
  { apply Qmult_le_0_compat; [discriminate | apply Qpower_0_le; discriminate]. }
  apply Qle_trans with (inject_Z 2 * x)%Q.
  - rewrite inject_Z_mult. apply Qmult_le_l; [reflexivity | apply Qfloor_le].
  - replace (level + 2 - 1) with ((level - 1) + 2) by lia.
    rewrite Qpower_plus by discriminate.
    rewrite Qmult_assoc. fold x.
    rewrite (Qmult_comm x).
    apply Qmult_le_compat_r; [discriminate | assumption].
Qed.

Lemma levelUp_pow2 (k : nat) : forall level,
  1 <= level ->
  BASE_POINTS * 2 ^ Z.of_nat k
  <= getPointsRequiredForLevelUp (level + 2 * Z.of_nat k).
Proof.
  induction k as [| k IH]; intros level Hl.
  - rewrite Z.mul_0_r, Z.add_0_r, Z.mul_1_r. now apply levelUp_ge_base.
  - rewrite Nat2Z.inj_succ, Z.pow_succ_r by lia.
    replace (level + 2 * Z.succ (Z.of_nat k)) with (level + 2 * Z.of_nat k + 2) by lia.
    pose proof (IH level Hl).
    pose proof (levelUp_doubles (level + 2 * Z.of_nat k)). lia.
Qed.

(** The level grows with the logarithm of the total. *)
Lemma level_log totalPoints :
  calculateLevelFromPoints totalPoints <= 2 * Z.log2 totalPoints + 3.
Proof.
  pose proof (Z.log2_nonneg totalPoints) as Hlog.
  destruct (Z_lt_ge_dec totalPoints 0) as [Hneg | Hpos].
  - rewrite level_negative by assumption. lia.
  - destruct (level_bracket totalPoints ltac:(lia)) as (B1 & B2 & _).
    remember (calculateLevelFromPoints totalPoints) as L.
    destruct (Z_le_gt_dec L 3) as [Hs | Hb]; [lia |].
    (* L - 1 = l0 + 2 k with l0 in {1, 2} *)
    set (k := (L - 2) / 2).
    set (l0 := L - 1 - 2 * k).
    assert (Hk : 0 <= k) by (apply Z.div_pos; lia).
    assert (Hl0 : 1 <= l0 <= 2) by (unfold l0, k; Z.div_mod_to_equations; lia).
    pose proof (levelUp_pow2 (Z.to_nat k) l0 ltac:(lia)) as Hp.
    rewrite Z2Nat.id in Hp by assumption.
    replace (l0 + 2 * k) with (L - 1) in Hp by (unfold l0; lia).
    pose proof (required_next (L - 1) ltac:(lia)) as Hn.
    replace (L - 1 + 1) with L in Hn by lia.
    pose proof (required_nonneg (L - 1)).
    unfold BASE_POINTS in Hp.
    assert (Hpow : 2 ^ k <= totalPoints).
    { pose proof (Z.pow_pos_nonneg 2 k ltac:(lia) Hk). lia. }
    assert (0 < totalPoints).
    { pose proof (Z.pow_pos_nonneg 2 k ltac:(lia) Hk). lia. }
    apply Z.log2_le_pow2 in Hpow; [| assumption].
    unfold k in Hpow. Z.div_mod_to_equations. lia.
Qed.

(** * The cumulative cost in double precision *)

Lemma overflow_pos : (0 < Js.overflow)%Q.
Proof. reflexivity. Qed.

Lemma ofExact_finite q :
  (0 <= q)%Q -> (q < Js.overflow)%Q -> Js.ofExact q = Js.Num q.
Proof.
  intros Hpos Hlt. unfold Js.ofExact.
  destruct (Qle_bool Js.overflow q) eqn:E.
  - apply Qle_bool_iff in E. exfalso. apply (Qlt_not_le _ _ Hlt E).
  - destruct (Qle_bool q (- Js.overflow)) eqn:F; [| reflexivity].
    apply Qle_bool_iff in F. exfalso.
    assert (H : (- Js.overflow < 0)%Q) by reflexivity.
    apply (Qlt_not_le _ _ H). now apply Qle_trans with q.
Qed.

Lemma ofExact_infinite q : (Js.overflow <= q)%Q -> Js.ofExact q = Js.Infinity.
Proof.
  intros H. unfold Js.ofExact. apply Qle_bool_iff in H. now rewrite H.
Qed.

Lemma ofExact_positive q :
  (0 <= q)%Q -> Js.ofExact q = Js.Num q \/ Js.ofExact q = Js.Infinity.
Proof.
  intros Hpos. destruct (Qlt_le_dec q Js.overflow) as [H | H].
  - left. now apply ofExact_finite.
  - right. now apply ofExact_infinite.
Qed.

Lemma multiplier_power_pos e : (0 < Qpower MULTIPLIER e)%Q.
Proof. apply Qpower_0_lt. reflexivity. Qed.

Lemma multiplier_power_mono e1 e2 :
  e1 <= e2 -> (Qpower MULTIPLIER e1 <= Qpower MULTIPLIER e2)%Q.
Proof. intros H. apply Qpower_le_compat_l; [assumption | discriminate]. Qed.

(** The step cost is that of [Server] up to level 1741 and [Infinity] from
    level 1742 on: [50 * 1.5^1740] is below the bound and [50 * 1.5^1741]
    above it. *)
Lemma levelUp_finite currentLevel :
  currentLevel <= 1741 ->
  Js.getPointsRequiredForLevelUp currentLevel
  = Js.ofInt (getPointsRequiredForLevelUp currentLevel).
Proof.
  intros Hl. unfold Js.getPointsRequiredForLevelUp, Js.pow.
  change (Qeq_bool MULTIPLIER 0) with false. cbn [andb].
  pose proof (multiplier_power_pos (currentLevel - 1)) as Hpos.
  pose proof (multiplier_power_mono (currentLevel - 1) 1740 ltac:(lia)) as Hle.
  assert (Htop : (inject_Z BASE_POINTS * Qpower MULTIPLIER 1740 < Js.overflow)%Q)
    by (vm_compute; reflexivity).
  assert (Hone : (Qpower MULTIPLIER 1740 < Js.overflow)%Q)
    by (vm_compute; reflexivity).
  rewrite ofExact_finite;
    [| now apply Qlt_le_weak | now apply Qle_lt_trans with (Qpower MULTIPLIER 1740)].
  unfold Js.mul, Js.ofInt.
  rewrite ofExact_finite.
  - reflexivity.
  - apply Qmult_le_0_compat; [discriminate | now apply Qlt_le_weak].
  - apply Qle_lt_trans with (inject_Z BASE_POINTS * Qpower MULTIPLIER 1740)%Q;
      [| assumption].
    apply Qmult_le_l; [reflexivity | assumption].
Qed.

Lemma levelUp_infinite currentLevel :
  1742 <= currentLevel -> Js.getPointsRequiredForLevelUp currentLevel = Js.Infinity.
Proof.
  intros Hl. unfold Js.getPointsRequiredForLevelUp, Js.pow.
  change (Qeq_bool MULTIPLIER 0) with false. cbn [andb].
  pose proof (multiplier_power_pos (currentLevel - 1)) as Hpos.
  pose proof (multiplier_power_mono 1741 (currentLevel - 1) ltac:(lia)) as Hle.
  assert (Htop : (Js.overflow <= inject_Z BASE_POINTS * Qpower MULTIPLIER 1741)%Q)
    by (vm_compute; discriminate).
  destruct (ofExact_positive (Qpower MULTIPLIER (currentLevel - 1)))
    as [-> | ->]; [now apply Qlt_le_weak | | reflexivity].
  unfold Js.mul, Js.ofInt. rewrite ofExact_infinite; [reflexivity |].
  apply Qle_trans with (inject_Z BASE_POINTS * Qpower MULTIPLIER 1741)%Q;
    [assumption |].
  apply Qmult_le_l; [reflexivity | assumption].
Qed.

(** A step cost is never [NaN] nor negative. *)
Lemma levelUp_shape currentLevel :
  (exists q, Js.getPointsRequiredForLevelUp currentLevel = Js.Num q)
  \/ Js.getPointsRequiredForLevelUp currentLevel = Js.Infinity.
Proof.
  destruct (Z_le_gt_dec currentLevel 1741) as [H | H].
  - left. eexists. now apply levelUp_finite.
  - right. apply levelUp_infinite. lia.
Qed.

Lemma add_ofInt a b :
  0 <= a + b -> a + b < 2 ^ 1024 - 2 ^ 970 ->
  Js.add (Js.ofInt a) (Js.ofInt b) = Js.ofInt (a + b).
Proof.
  intros Hpos Hlt. unfold Js.add, Js.ofInt.
  rewrite ofExact_finite.
  - f_equal. unfold Qplus, inject_Z. cbn [Qnum Qden Pos.mul].
    now rewrite !Z.mul_1_r.
  - rewrite <- inject_Z_plus. change 0%Q with (inject_Z 0).
    now rewrite <- Zle_Qle.
  - rewrite <- inject_Z_plus. unfold Js.overflow. now rewrite <- Zlt_Qlt.
Qed.

Lemma add_ofInt_overflow a b :
  2 ^ 1024 - 2 ^ 970 <= a + b ->
  Js.add (Js.ofInt a) (Js.ofInt b) = Js.Infinity.
Proof.
  intros Hle. unfold Js.add, Js.ofInt. apply ofExact_infinite.
  rewrite <- inject_Z_plus. unfold Js.overflow. now rewrite <- Zle_Qle.
Qed.

Lemma sumLevelUps_app (n m : nat) : forall i totalPoints,
  Js.sumLevelUps (n + m) i totalPoints
  = Js.sumLevelUps m (i + Z.of_nat n) (Js.sumLevelUps n i totalPoints).
Proof.
  induction n as [| n IH]; intros i totalPoints.
  - cbn [Nat.add Js.sumLevelUps]. now replace (i + Z.of_nat 0) with i by lia.
  - cbn [Nat.add Js.sumLevelUps]. rewrite IH. f_equal. lia.
Qed.

Lemma sumLevelUps_infinite (n : nat) : forall i,
  Js.sumLevelUps n i Js.Infinity = Js.Infinity.
Proof.
  induction n as [| n IH]; intros i; [reflexivity |].
  cbn [Js.sumLevelUps].
  destruct (levelUp_shape i) as [[q ->] | ->]; cbn [Js.add]; apply IH.
Qed.

(** The cumulative cost against the geometric sum [100 * (1.5^(level-1) - 1)]:
    every floor loses less than one point. *)
Lemma required_geometric (k : nat) :
  let level := Z.of_nat k + 1 in
  100 * (3 ^ Z.of_nat k - 2 ^ Z.of_nat k) - Z.of_nat k * 2 ^ Z.of_nat k
  <= getPointsRequiredForLevel level * 2 ^ Z.of_nat k
  <= 100 * (3 ^ Z.of_nat k - 2 ^ Z.of_nat k).
Proof.
  cbv zeta. induction k as [| k IH].
  - rewrite required_first by lia. cbn. lia.
  - replace (Z.of_nat (S k) + 1) with (Z.of_nat k + 1 + 1) by lia.
    rewrite required_next by lia.
    rewrite levelUp_closed_form by lia. unfold BASE_POINTS.
    replace (Z.of_nat k + 1 - 1) with (Z.of_nat k) by lia.
    replace (Z.of_nat (S k)) with (Z.succ (Z.of_nat k)) by lia.
    rewrite !Z.pow_succ_r by lia.
    set (P := 2 ^ Z.of_nat k) in *. set (E := 3 ^ Z.of_nat k) in *.
    assert (HP : 0 < P) by (apply Z.pow_pos_nonneg; lia).
    pose proof (Z.mul_div_le (50 * E) P HP) as Hlo.
    pose proof (Z.mul_succ_div_gt (50 * E) P HP) as Hhi.
    set (step := 50 * E / P) in *.
    set (cost := getPointsRequiredForLevel (Z.of_nat k + 1)) in *.
    nia.
Qed.

Lemma required_below_overflow level :
  level <= 1740 -> getPointsRequiredForLevel level < 2 ^ 1024 - 2 ^ 970.
Proof.
  intros Hl.
  apply Z.le_lt_trans with (getPointsRequiredForLevel 1740);
    [now apply required_mono |].
  pose proof (required_geometric 1739) as [_ H]. cbv zeta in H.
  change (Z.of_nat 1739 + 1) with 1740 in H.
  assert (Htop : 100 * (3 ^ Z.of_nat 1739 - 2 ^ Z.of_nat 1739)
                 < (2 ^ 1024 - 2 ^ 970) * 2 ^ Z.of_nat 1739)
    by (vm_compute; reflexivity).
  apply Z.mul_lt_mono_pos_r with (2 ^ Z.of_nat 1739);
    [apply Z.pow_pos_nonneg; lia |].
  exact (Z.le_lt_trans _ _ _ H Htop).
Qed.

Lemma required_overflows level :
  1741 <= level -> 2 ^ 1024 - 2 ^ 970 <= getPointsRequiredForLevel level.
Proof.
  intros Hl.
  apply Z.le_trans with (getPointsRequiredForLevel 1741);
    [| now apply required_mono].
  pose proof (required_geometric 1740) as [H _]. cbv zeta in H.
  change (Z.of_nat 1740 + 1) with 1741 in H.
  assert (Htop : (2 ^ 1024 - 2 ^ 970) * 2 ^ Z.of_nat 1740
                 <= 100 * (3 ^ Z.of_nat 1740 - 2 ^ Z.of_nat 1740)
                    - Z.of_nat 1740 * 2 ^ Z.of_nat 1740)
    by (vm_compute; discriminate).
  apply Z.mul_le_mono_pos_r with (2 ^ Z.of_nat 1740);
    [apply Z.pow_pos_nonneg; lia |].
  exact (Z.le_trans _ _ _ Htop H).
Qed.

(** The bound is not close: the cumulative cost of level 1740 is more than
    5 percent below it and that of level 1741 more than 25 percent above,
    so the rounding of the additions, far smaller, does not decide which
    levels overflow. *)
Lemma overflow_margin :
  21 * getPointsRequiredForLevel 1740 < 20 * (2 ^ 1024 - 2 ^ 970)
  /\ 5 * (2 ^ 1024 - 2 ^ 970) <= 4 * getPointsRequiredForLevel 1741.
Proof.
  split.
  - pose proof (required_geometric 1739) as [_ H]. cbv zeta in H.
    change (Z.of_nat 1739 + 1) with 1740 in H.
    assert (Htop : 21 * (100 * (3 ^ Z.of_nat 1739 - 2 ^ Z.of_nat 1739))
                   < 20 * (2 ^ 1024 - 2 ^ 970) * 2 ^ Z.of_nat 1739)
      by (vm_compute; reflexivity).
    apply Z.mul_lt_mono_pos_r with (2 ^ Z.of_nat 1739);
      [apply Z.pow_pos_nonneg; lia |].
    apply Z.le_lt_trans
      with (21 * (100 * (3 ^ Z.of_nat 1739 - 2 ^ Z.of_nat 1739)));
      [| exact Htop].
    rewrite <- Z.mul_assoc. apply Z.mul_le_mono_nonneg_l; [lia | exact H].
  - pose proof (required_geometric 1740) as [H _]. cbv zeta in H.
    change (Z.of_nat 1740 + 1) with 1741 in H.
    assert (Htop : 5 * (2 ^ 1024 - 2 ^ 970) * 2 ^ Z.of_nat 1740
                   <= 4 * (100 * (3 ^ Z.of_nat 1740 - 2 ^ Z.of_nat 1740)
                           - Z.of_nat 1740 * 2 ^ Z.of_nat 1740))
      by (vm_compute; discriminate).
    apply Z.mul_le_mono_pos_r with (2 ^ Z.of_nat 1740);
      [apply Z.pow_pos_nonneg; lia |].
    apply Z.le_trans
      with (4 * (100 * (3 ^ Z.of_nat 1740 - 2 ^ Z.of_nat 1740)
                 - Z.of_nat 1740 * 2 ^ Z.of_nat 1740));
      [exact Htop |].
    rewrite <- Z.mul_assoc. apply Z.mul_le_mono_nonneg_l; [lia | exact H].
Qed.

(** While the cumulative cost is below the bound, the loop in doubles adds
    up what the loop of [Server] adds up. *)
Lemma sumLevelUps_finite (n : nat) : forall i,
  1 <= i -> i + Z.of_nat n <= 1740 ->
  Js.sumLevelUps n i (Js.ofInt (getPointsRequiredForLevel i))
  = Js.ofInt (getPointsRequiredForLevel (i + Z.of_nat n)).
Proof.
  induction n as [| n IH]; intros i Hi Hn.
  - cbn [Js.sumLevelUps]. now replace (i + Z.of_nat 0) with i by lia.
  - cbn [Js.sumLevelUps]. rewrite levelUp_finite by lia.
    pose proof (required_next i Hi) as Hnext.
    pose proof (required_nonneg (i + 1)).
    pose proof (required_below_overflow (i + 1) ltac:(lia)).
    rewrite add_ofInt by lia. rewrite <- Hnext.
    rewrite IH by lia. f_equal. f_equal. lia.
Qed.

Lemma sumLevelUps_start (n : nat) :
  1 + Z.of_nat n <= 1740 ->
  Js.sumLevelUps n 1 (Js.ofInt 0)
  = Js.ofInt (getPointsRequiredForLevel (1 + Z.of_nat n)).
Proof.
  intros Hn. pose proof (sumLevelUps_finite n 1 ltac:(lia) Hn) as H.
  rewrite (required_first 1) in H by lia. exact H.
Qed.

Lemma floor_ofInt n : Js.floor (Js.ofInt n) = Js.ofInt n.
Proof. unfold Js.floor, Js.ofInt. now rewrite Qfloor_Z. Qed.

(** Up to level 1740 the cumulative cost in doubles is finite, and the one
    of [Server]; from level 1741 on it is [Infinity]. *)
Lemma required_finite level :
  level <= 1740 ->
  Js.getPointsRequiredForLevel level = Js.ofInt (getPointsRequiredForLevel level).
Proof.
  intros Hl. unfold Js.getPointsRequiredForLevel.
  destruct (Z.leb_spec level 1) as [H1 | H1].
  - now rewrite required_first.
  - rewrite sumLevelUps_start by lia.
    rewrite floor_ofInt. do 2 f_equal. lia.
Qed.

Lemma required_infinite level :
  1741 <= level -> Js.getPointsRequiredForLevel level = Js.Infinity.
Proof.
  intros Hl. unfold Js.getPointsRequiredForLevel.
  destruct (Z.leb_spec level 1) as [H1 | H1]; [lia |].
  replace (Z.to_nat (level - 1))
    with (1739 + (1 + Z.to_nat (level - 1741)))%nat by lia.
  rewrite sumLevelUps_app, sumLevelUps_start by lia.
  rewrite sumLevelUps_app.
  replace (1 + Z.of_nat 1739) with 1740 by lia.
  cbn [Js.sumLevelUps]. rewrite levelUp_finite by lia.
  rewrite add_ofInt_overflow.
  - now rewrite sumLevelUps_infinite.
  - rewrite <- required_next by lia. apply required_overflows. lia.
Qed.

(** * The client mirror *)

Lemma sumLevelUps_mirror level i total :
  Client.sumLevelUpsTs level i total = Server.sumLevelUps level i total.
Proof.
  funelim (Client.sumLevelUpsTs level i total);
    rewrite (sumLevelUps_eq level i);
    destruct (Z_lt_dec i level); try lia.
  match goal with
  | IH : Client.sumLevelUpsTs _ _ _ = Server.sumLevelUps _ _ _ |- _ => rewrite IH
  end.
  now rewrite Client.levelUp_mirror.
Qed.

Lemma levelLoop_mirror totalPoints level pointsUsed :
  Client.levelLoopTs totalPoints level pointsUsed
  = Server.levelLoop totalPoints level pointsUsed.
Proof.
  funelim (Client.levelLoopTs totalPoints level pointsUsed);
    rewrite (levelLoop_eq _ level pointsUsed);
    pose proof (Client.levelUp_mirror level) as Hcost;
    destruct (Z_gt_dec _ _); try lia.
  match goal with
  | IH : Client.levelLoopTs _ _ _ = Server.levelLoop _ _ _ |- _ =>
      rewrite IH, Hcost; reflexivity
  end.
Qed.

Lemma required_mirror level :
  Client.getPointsRequiredForLevel level = Server.getPointsRequiredForLevel level.
Proof.
  unfold Client.getPointsRequiredForLevel, Server.getPointsRequiredForLevel.
  now rewrite sumLevelUps_mirror.
Qed.

Lemma level_mirror totalPoints :
  Client.calculateLevelFromPoints totalPoints
  = Server.calculateLevelFromPoints totalPoints.
Proof.
  unfold Client.calculateLevelFromPoints, Server.calculateLevelFromPoints.
  now rewrite levelLoop_mirror.
Qed.

Lemma progress_mirror totalPoints :
  Client.getLevelProgress totalPoints = Server.getLevelProgress totalPoints.
Proof.
  unfold Client.getLevelProgress, Server.getLevelProgress.
  rewrite level_mirror, !required_mirror. reflexivity.
Qed.

(** * The specification's properties *)

(** C1 (inverse consistency).  For every integer total [T >= 0], the level
    [L = calculateLevelFromPoints T] brackets the total:
    [getPointsRequiredForLevel L <= T < getPointsRequiredForLevel (L + 1)]. *)
Theorem inverse_consistency (T : Z) :
  0 <= T ->
  let L := calculateLevelFromPoints T in
  getPointsRequiredForLevel L <= T /\ T < getPointsRequiredForLevel (L + 1).
Proof.
  intros H; cbv zeta. destruct (level_bracket T H) as (_ & Hlo & Hhi).
  split; assumption.
Qed.

Lemma inverse_consistency_at_300 :
  0 <= 300
  /\ getPointsRequiredForLevel (calculateLevelFromPoints 300) <= 300
  /\ 300 < getPointsRequiredForLevel (calculateLevelFromPoints 300 + 1).
Proof.
  split; [lia | apply (inverse_consistency 300); lia].
Defined.

(** C2, as the specification states it, fails: the cumulative costs of levels
    4 and 5 are not 238 and 407. *)
Lemma reference_costs_not_238_407 :
  ~ (getPointsRequiredForLevel 1 = 0
     /\ getPointsRequiredForLevel 2 = 50
     /\ getPointsRequiredForLevel 3 = 125
     /\ getPointsRequiredForLevel 4 = 238
     /\ getPointsRequiredForLevel 5 = 407).
Proof.
  intros (_ & _ & _ & H4 & _). vm_compute in H4. discriminate H4.
Qed.

(** C2 (amended).  With [BASE_POINTS = 50] and [MULTIPLIER = 1.5] the step
    costs of levels 1 to 4 are 50, 75, 112 and 168 (each rounded down), and
    the cumulative costs of levels 1 to 5 are 0, 50, 125, 237 and 405. *)
Theorem reference_costs :
  (getPointsRequiredForLevelUp 1 = 50
   /\ getPointsRequiredForLevelUp 2 = 75
   /\ getPointsRequiredForLevelUp 3 = 112
   /\ getPointsRequiredForLevelUp 4 = 168)
  /\ getPointsRequiredForLevel 1 = 0
  /\ getPointsRequiredForLevel 2 = 50
  /\ getPointsRequiredForLevel 3 = 125
  /\ getPointsRequiredForLevel 4 = 237
  /\ getPointsRequiredForLevel 5 = 405.
Proof.
  repeat split; vm_compute; reflexivity.
Qed.

(** C3, as the specification states it, fails: 300 points do not reach
    level 5. *)
Lemma level_up_0_300_not_level_5 :
  ~ (let result := checkLevelUp 0 300 in
     oldLevel result = 1
     /\ newLevel result = 5
     /\ leveledUp result = true
     /\ levelsGained result = 4).
Proof.
  cbv zeta. intros (_ & H & _). vm_compute in H. discriminate H.
Qed.

(** C3 (amended).  [checkLevelUp 0 300] returns [oldLevel = 1],
    [newLevel = 4], [leveledUp = true] and [levelsGained = 3]: 300 lies
    between the cumulative costs 237 of level 4 and 405 of level 5. *)
Theorem level_up_0_300 :
  checkLevelUp 0 300
  = {| leveledUp := true; oldLevel := 1; newLevel := 4; levelsGained := 3 |}.
Proof.
  unfold checkLevelUp.
  replace (calculateLevelFromPoints 0) with 1
    by (symmetry; apply level_unique; vm_compute; congruence).
  replace (calculateLevelFromPoints 300) with 4
    by (symmetry; apply level_unique; vm_compute; congruence).
  reflexivity.
Qed.

(** No call of [calculateLevelFromPoints] completes with an exception,
    whatever the number passed. *)
Lemma level_never_throws fuel totalPoints e :
  Js.calculateLevelFromPoints fuel totalPoints <> Some (Js.Throw e).
Proof.
  unfold Js.calculateLevelFromPoints.
  destruct (Js.lt totalPoints (Js.ofInt 0)); [discriminate |].
  destruct (Js.levelLoop fuel totalPoints 1 0); discriminate.
Qed.

(** With [NaN] or [Infinity] as total, [calculateLevelFromPoints] does not
    return, however long it runs. *)
Lemma level_diverges fuel totalPoints :
  totalPoints = Js.NaN \/ totalPoints = Js.Infinity ->
  Js.calculateLevelFromPoints fuel totalPoints = None.
Proof.
  intros H. unfold Js.calculateLevelFromPoints.
  rewrite loop_never_exits by assumption.
  destruct H; subst totalPoints; reflexivity.
Qed.

(** A run on an integer total returns the level computed by [Server], after
    at most one evaluation of the exit test per level reached. *)
Lemma level_run fuel totalPoints :
  calculateLevelFromPoints totalPoints <= Z.of_nat fuel ->
  Js.calculateLevelFromPoints fuel (Js.ofInt totalPoints)
  = Some (Js.Return (calculateLevelFromPoints totalPoints)).
Proof.
  intros Hfuel. unfold Js.calculateLevelFromPoints.
  rewrite lt_ofInt.
  destruct (Z.ltb_spec totalPoints 0) as [Hneg | Hpos].
  - now rewrite level_negative.
  - rewrite loop_complete; try lia; reflexivity.
Qed.

(** C4, as the specification states it, fails: 50.5 is not an integer, yet
    [calculateLevelFromPoints] returns level 2 for it and no run of it ends
    with [InvalidInput]. *)
Lemma fractional_total_not_rejected :
  Js.isFiniteInteger (Js.Num (101 # 2)) = false
  /\ Js.calculateLevelFromPoints 2 (Js.Num (101 # 2)) = Some (Js.Return 2)
  /\ forall fuel,
       Js.calculateLevelFromPoints fuel (Js.Num (101 # 2))
       <> Some (Js.Throw Js.InvalidInput).
Proof.
  split; [reflexivity |]. split; [vm_compute; reflexivity |].
  intros fuel. apply level_never_throws.
Qed.

(** C4 (amended).  [calculateLevelFromPoints] validates nothing and never
    raises [InvalidInput]: for every finite total, integer or fractional, it
    returns the level of the total rounded down. *)
Theorem fractional_total_floored (q : Q) :
  (exists fuel,
     Js.calculateLevelFromPoints fuel (Js.Num q)
     = Some (Js.Return (calculateLevelFromPoints (Qfloor q))))
  /\ forall fuel,
       Js.calculateLevelFromPoints fuel (Js.Num q)
       <> Some (Js.Throw Js.InvalidInput).
Proof.
  split.
  - exists (Z.to_nat (calculateLevelFromPoints (Qfloor q))).
    rewrite level_floor. apply level_run.
    pose proof (level_ge_1 (Qfloor q)). lia.
  - intros fuel. apply level_never_throws.
Qed.

(** C5, as the specification states it, fails: for the total -5 the report
    has level 1 but its progress is not zero. *)
Lemma negative_total_progress_not_zero :
  ~ (calculateLevelFromPoints (-5) = 1
     /\ currentLevel (getLevelProgress (-5)) = 1
     /\ pointsInCurrentLevel (getLevelProgress (-5)) = 0
     /\ progressPercentage (getLevelProgress (-5)) = Some 0).
Proof.
  intros (_ & _ & H & _). vm_compute in H. discriminate H.
Qed.

(** C5 (amended).  For every negative integer total [T], no error is raised;
    [calculateLevelFromPoints T = 1], and [getLevelProgress T] reports level 1
    with the total measured against the range of level 1:
    [pointsInCurrentLevel = T], [pointsNeededForNextLevel = 50],
    [pointsToNextLevel = 50 - T] and a negative [progressPercentage]. *)
Theorem negative_total_report (T : Z) :
  T < 0 ->
  calculateLevelFromPoints T = 1
  /\ currentLevel (getLevelProgress T) = 1
  /\ pointsInCurrentLevel (getLevelProgress T) = T
  /\ pointsNeededForNextLevel (getLevelProgress T) = 50
  /\ pointsToNextLevel (getLevelProgress T) = 50 - T
  /\ exists percent,
       progressPercentage (getLevelProgress T) = Some percent /\ percent < 0.
Proof.
  intros H. rewrite progress_negative by assumption; cbn.
  split; [now apply level_negative |].
  repeat split. exists (2 * T). split; [reflexivity | lia].
Qed.

Lemma negative_total_report_at_minus_5 :
  -5 < 0
  /\ calculateLevelFromPoints (-5) = 1
  /\ currentLevel (getLevelProgress (-5)) = 1
  /\ pointsInCurrentLevel (getLevelProgress (-5)) = -5
  /\ pointsNeededForNextLevel (getLevelProgress (-5)) = 50
  /\ pointsToNextLevel (getLevelProgress (-5)) = 50 - -5
  /\ exists percent,
       progressPercentage (getLevelProgress (-5)) = Some percent /\ percent < 0.
Proof.
  split; [lia | apply (negative_total_report (-5)); lia].
Defined.

(** C6, as the specification states it, fails: from level 1741 on the sum
    of the step costs is beyond every double, so [getPointsRequiredForLevel]
    returns [Infinity] for levels 1746 and 1747 alike: it is not strictly
    increasing there, and what it returns is not an integer. *)
Lemma cost_overflows_at_1746 :
  Js.getPointsRequiredForLevel 1746 = Js.Infinity
  /\ Js.getPointsRequiredForLevel 1747 = Js.Infinity
  /\ ~ ((forall a b, 0 <= a -> a <= b ->
           calculateLevelFromPoints a <= calculateLevelFromPoints b)
        /\ (forall level1 level2, 1 <= level1 -> level1 < level2 ->
              Js.lt (Js.getPointsRequiredForLevel level1)
                    (Js.getPointsRequiredForLevel level2) = true)
        /\ (forall level, exists n,
              0 <= n /\ Js.getPointsRequiredForLevel level = Js.ofInt n)).
Proof.
  split; [apply required_infinite; lia |].
  split; [apply required_infinite; lia |].
  intros (_ & Hstrict & _).
  specialize (Hstrict 1746 1747 ltac:(lia) ltac:(lia)).
  rewrite !required_infinite in Hstrict by lia. discriminate Hstrict.
Qed.

(** C6 (amended).  [calculateLevelFromPoints] is non-decreasing on the
    non-negative integers.  [getPointsRequiredForLevel] is strictly
    increasing from level 1 up to level 1740 and returns a non-negative
    integer for every level up to 1740; from level 1741 on it returns
    [Infinity]. *)
Theorem level_and_cost_monotone :
  (forall a b, 0 <= a -> a <= b ->
     calculateLevelFromPoints a <= calculateLevelFromPoints b)
  /\ (forall level1 level2, 1 <= level1 -> level1 < level2 -> level2 <= 1740 ->
        Js.lt (Js.getPointsRequiredForLevel level1)
              (Js.getPointsRequiredForLevel level2) = true)
  /\ (forall level, level <= 1740 ->
        exists n, 0 <= n /\ Js.getPointsRequiredForLevel level = Js.ofInt n)
  /\ (forall level, 1741 <= level ->
        Js.getPointsRequiredForLevel level = Js.Infinity).
Proof.
  split; [| split; [| split]].
  - intros a b _ Hab. now apply level_mono.
  - intros level1 level2 H1 H12 H2.
    rewrite !required_finite, lt_ofInt by lia.
    apply Z.ltb_lt. now apply required_strict.
  - intros level Hl. exists (getPointsRequiredForLevel level).
    split; [apply required_nonneg | now apply required_finite].
  - apply required_infinite.
Qed.

Lemma level_and_cost_monotone_at_40_60 :
  calculateLevelFromPoints 40 <= calculateLevelFromPoints 60
  /\ Js.lt (Js.getPointsRequiredForLevel 2) (Js.getPointsRequiredForLevel 7) = true
  /\ (exists n, 0 <= n /\ Js.getPointsRequiredForLevel 3 = Js.ofInt n)
  /\ Js.getPointsRequiredForLevel 2000 = Js.Infinity.
Proof.
  split; [| split; [| split]].
  - apply (proj1 level_and_cost_monotone 40 60); lia.
  - apply (proj1 (proj2 level_and_cost_monotone) 2 7); lia.
  - apply (proj1 (proj2 (proj2 level_and_cost_monotone)) 3); lia.
  - apply (proj2 (proj2 (proj2 level_and_cost_monotone)) 2000); lia.
Defined.

(** C7 (progress bounds).  For every integer total [T >= 0] the report of
    [getLevelProgress T] has a percentage between 0 and 100 and a
    non-negative [pointsToNextLevel]; its divisor
    [pointsNeededForNextLevel] is at least 1, so the percentage is never the
    result of a division by zero. *)
Theorem progress_within_bounds (T : Z) :
  0 <= T ->
  let report := getLevelProgress T in
  (exists percent,
     progressPercentage report = Some percent /\ 0 <= percent <= 100)
  /\ 0 <= pointsToNextLevel report
  /\ 1 <= pointsNeededForNextLevel report.
Proof.
  intros H; cbv zeta.
  destruct (progress_bounds T H) as (Hd & _ & Hnext & percent & Hp & Hb).
  split; [exists percent; split; [assumption | lia] |].
  split; [lia | assumption].
Qed.

Lemma progress_within_bounds_at_100 :
  0 <= 100
  /\ (exists percent,
        progressPercentage (getLevelProgress 100) = Some percent
        /\ 0 <= percent <= 100)
  /\ 0 <= pointsToNextLevel (getLevelProgress 100)
  /\ 1 <= pointsNeededForNextLevel (getLevelProgress 100).
Proof.
  split; [lia | apply (progress_within_bounds 100); lia].
Defined.

(** C8 (termination).  For every integer total [T] the [while (true)] loop of
    [calculateLevelFromPoints] exits: because the step cost at least doubles
    every two levels, [2 * log2 T + 3] evaluations of the exit test are
    enough, and the call then returns the level. *)
Theorem level_loop_terminates (T : Z) (fuel : nat) :
  2 * Z.log2 T + 3 <= Z.of_nat fuel ->
  Js.calculateLevelFromPoints fuel (Js.ofInt T)
  = Some (Js.Return (calculateLevelFromPoints T)).
Proof.
  intros Hfuel. apply level_run.
  pose proof (level_log T). lia.
Qed.

Lemma level_loop_terminates_at_300 :
  2 * Z.log2 300 + 3 <= Z.of_nat 19
  /\ Js.calculateLevelFromPoints 19 (Js.ofInt 300)
     = Some (Js.Return (calculateLevelFromPoints 300)).
Proof.
  split; [vm_compute; discriminate | apply (level_loop_terminates 300 19)].
  vm_compute; discriminate.
Defined.

(** C9 (client mirror).  The client module computes the same functions as
    the server module: [getPointsRequiredForLevel],
    [getPointsRequiredForLevelUp], [calculateLevelFromPoints] and
    [getLevelProgress] agree on every integer, and both modules use
    [BASE_POINTS = 50] and [MULTIPLIER = 1.5]. *)
Theorem client_mirrors_server :
  (forall level,
     Client.getPointsRequiredForLevel level = Server.getPointsRequiredForLevel level)
  /\ (forall currentLevel,
        Client.getPointsRequiredForLevelUp currentLevel
        = Server.getPointsRequiredForLevelUp currentLevel)
  /\ (forall totalPoints,
        Client.calculateLevelFromPoints totalPoints
        = Server.calculateLevelFromPoints totalPoints)
  /\ (forall totalPoints,
        Client.getLevelProgress totalPoints = Server.getLevelProgress totalPoints)
  /\ Client.BASE_POINTS = 50 /\ Server.BASE_POINTS = 50
  /\ Client.MULTIPLIER = 3 # 2 /\ Server.MULTIPLIER = 3 # 2.
Proof.
  split; [exact required_mirror |].
  split; [exact Client.levelUp_mirror |].
  split; [exact level_mirror |].
  split; [exact progress_mirror |].
  repeat split.
Qed.

(** C10 (points going down).  For integers [before > after >= 0],
    [checkLevelUp before after] has [leveledUp = false] and
    [levelsGained = calculateLevelFromPoints after
                     - calculateLevelFromPoints before], which is never
    positive and is negative for some such pair; for all arguments,
    [leveledUp] is true exactly when the level strictly increases. *)
Theorem level_down_report :
  (forall before after, 0 <= after -> after < before ->
     let result := checkLevelUp before after in
     leveledUp result = false
     /\ levelsGained result
        = calculateLevelFromPoints after - calculateLevelFromPoints before
     /\ levelsGained result <= 0)
  /\ (forall oldPoints newPoints,
        leveledUp (checkLevelUp oldPoints newPoints) = true
        <-> calculateLevelFromPoints oldPoints < calculateLevelFromPoints newPoints)
  /\ (exists before after,
        0 <= after /\ after < before
        /\ levelsGained (checkLevelUp before after) < 0).
Proof.
  split; [| split].
  - intros before after H0 Hlt; cbv zeta.
    destruct (levelUp_fields before after) as (_ & _ & Hg & Hup).
    pose proof (level_mono after before ltac:(lia)) as Hmono.
    split; [| split; [assumption | lia]].
    destruct (leveledUp (checkLevelUp before after)); [| reflexivity].
    pose proof (proj1 Hup eq_refl). lia.
  - intros oldPoints newPoints. apply (levelUp_fields oldPoints newPoints).
  - exists 60, 40. split; [lia | split; [lia |]]. vm_compute. reflexivity.
Qed.

Lemma level_down_report_at_60_40 :
  0 <= 40 /\ 40 < 60
  /\ leveledUp (checkLevelUp 60 40) = false
  /\ levelsGained (checkLevelUp 60 40)
     = calculateLevelFromPoints 40 - calculateLevelFromPoints 60
  /\ levelsGained (checkLevelUp 60 40) <= 0.
Proof.
  split; [lia | split; [lia |]].
  apply (proj1 level_down_report 60 40); lia.
Defined.

(** * Further properties of the engine *)

(** A total below the cumulative cost of a level has not reached it. *)
Lemma level_below totalPoints level :
  0 <= totalPoints ->
  totalPoints < getPointsRequiredForLevel level ->
  calculateLevelFromPoints totalPoints < level.
Proof.
  intros Hpos Hlt.
  destruct (level_bracket totalPoints Hpos) as (_ & Hlo & _).
  destruct (Z_lt_ge_dec (calculateLevelFromPoints totalPoints) level) as [H | H];
    [assumption |].
  pose proof (required_mono level (calculateLevelFromPoints totalPoints)). lia.
Qed.

(** A total that covers the cumulative cost of a level has reached it. *)
Lemma level_reached totalPoints level :
  getPointsRequiredForLevel level <= totalPoints ->
  0 <= totalPoints ->
  level <= calculateLevelFromPoints totalPoints.
Proof.
  intros Hle Hpos.
  destruct (level_bracket totalPoints Hpos) as (H1 & _ & Hhi).
  destruct (Z_le_gt_dec level (calculateLevelFromPoints totalPoints)) as [H | H];
    [assumption |].
  pose proof (required_mono (calculateLevelFromPoints totalPoints + 1) level). lia.
Qed.

(** Level 80 is the last one whose cumulative cost is a safe integer, one
    that a double holds with all its neighbours. *)
Lemma safe_levels (level : Z) :
  getPointsRequiredForLevel level <= Js.MAX_SAFE_INTEGER <-> level <= 80.
Proof.
  assert (H80 : getPointsRequiredForLevel 80 = 8150973203713506)
    by (vm_compute; reflexivity).
  assert (H81 : getPointsRequiredForLevel 81 = 12226459805570327)
    by (vm_compute; reflexivity).
  assert (Hmax : Js.MAX_SAFE_INTEGER = 9007199254740991) by reflexivity.
  split; intros H.
  - destruct (Z_le_gt_dec level 80) as [Hl | Hl]; [assumption |].
    pose proof (required_mono 81 level ltac:(lia)). lia.
  - pose proof (required_mono level 80 H). lia.
Qed.

(** The cumulative cost of a level is a total of that level, and one point
    less is a total of the level below. *)
Lemma level_at_required (level : Z) :
  1 <= level ->
  calculateLevelFromPoints (getPointsRequiredForLevel level) = level.
Proof.
  intros Hl. apply level_unique; [assumption | lia | now apply required_lt_next].
Qed.

Lemma level_before_required (level : Z) :
  2 <= level ->
  calculateLevelFromPoints (getPointsRequiredForLevel level - 1) = level - 1.
Proof.
  intros H2. apply level_unique; try lia.
  - pose proof (required_lt_next (level - 1) ltac:(lia)) as H.
    replace (level - 1 + 1) with level in H by lia. lia.
  - replace (level - 1 + 1) with level by lia. lia.
Qed.

(** X1.  [calculateLevelFromPoints] inverts [getPointsRequiredForLevel] on
    the levels 1 to 80, those whose cumulative cost is a safe integer: the
    cumulative cost of such a level is a total of exactly that level, and
    one point less is a total of the level below. *)
Theorem level_of_required (level : Z) :
  1 <= level <= 80 ->
  calculateLevelFromPoints (getPointsRequiredForLevel level) = level
  /\ (2 <= level ->
      calculateLevelFromPoints (getPointsRequiredForLevel level - 1) = level - 1).
Proof.
  intros Hl. split.
  - apply level_at_required. lia.
  - apply level_before_required.
Qed.

Lemma level_of_required_at_4 :
  1 <= 4 <= 80
  /\ calculateLevelFromPoints (getPointsRequiredForLevel 4) = 4
  /\ (2 <= 4 -> calculateLevelFromPoints (getPointsRequiredForLevel 4 - 1) = 4 - 1).
Proof.
  split; [lia | apply (level_of_required 4); lia].
Defined.

(** X2.  The caption "[pointsToNextLevel] points to level [currentLevel + 1]"
    is exact for every integer total below the cumulative cost of level 80,
    negative ones included as long as [50 - T] is a safe integer: with that
    many more points the level is [currentLevel + 1], with one point fewer
    it is still [currentLevel]; and the two progress counts add up to the
    divisor, which is the step cost of the current level. *)
Theorem points_to_next_level_exact (T : Z) :
  50 - T <= Js.MAX_SAFE_INTEGER ->
  T < getPointsRequiredForLevel 80 ->
  let report := getLevelProgress T in
  calculateLevelFromPoints (T + pointsToNextLevel report) = currentLevel report + 1
  /\ calculateLevelFromPoints (T + pointsToNextLevel report - 1) = currentLevel report
  /\ pointsInCurrentLevel report + pointsToNextLevel report
     = pointsNeededForNextLevel report
  /\ pointsNeededForNextLevel report
     = getPointsRequiredForLevelUp (currentLevel report).
Proof.
  intros _ _. cbv zeta.
  pose proof (progress_divisor T) as Hdiv.
  pose proof (progress_divisor_ge_base T) as Hbase. unfold BASE_POINTS in Hbase.
  pose proof (level_ge_1 T) as Hge.
  revert Hdiv Hbase. unfold getLevelProgress.
  cbn [pointsToNextLevel pointsNeededForNextLevel pointsInCurrentLevel currentLevel].
  set (L := calculateLevelFromPoints T) in *.
  intros Hdiv Hbase.
  replace (T + (getPointsRequiredForLevel (L + 1) - getPointsRequiredForLevel L
                - (T - getPointsRequiredForLevel L)))
    with (getPointsRequiredForLevel (L + 1)) by lia.
  split; [apply (level_at_required (L + 1)); lia |].
  split; [| split; [lia | assumption]].
  replace (getPointsRequiredForLevel (L + 1) - 1)
    with (getPointsRequiredForLevel (L + 1 ) - 1) by reflexivity.
  pose proof (level_before_required (L + 1) ltac:(lia)) as H.
  replace (L + 1 - 1) with L in H by lia. exact H.
Qed.

Lemma points_to_next_level_exact_at_60 :
  50 - 60 <= Js.MAX_SAFE_INTEGER
  /\ 60 < getPointsRequiredForLevel 80
  /\ calculateLevelFromPoints (60 + pointsToNextLevel (getLevelProgress 60))
     = currentLevel (getLevelProgress 60) + 1
  /\ calculateLevelFromPoints (60 + pointsToNextLevel (getLevelProgress 60) - 1)
     = currentLevel (getLevelProgress 60)
  /\ pointsInCurrentLevel (getLevelProgress 60)
     + pointsToNextLevel (getLevelProgress 60)
     = pointsNeededForNextLevel (getLevelProgress 60)
  /\ pointsNeededForNextLevel (getLevelProgress 60)
     = getPointsRequiredForLevelUp (currentLevel (getLevelProgress 60)).
Proof.
  split; [vm_compute; discriminate | split; [vm_compute; reflexivity |]].
  apply (points_to_next_level_exact 60);
    [vm_compute; discriminate | vm_compute; reflexivity].
Defined.

(** X3.  Inside one level the percentage does not go down as points come in:
    for totals [0 <= a <= b] of the same level, each report has a
    percentage, and that of [a] is at most that of [b]. *)
Theorem percentage_monotone_within_level (a b : Z) :
  0 <= a -> a <= b ->
  calculateLevelFromPoints a = calculateLevelFromPoints b ->
  exists pa pb,
    progressPercentage (getLevelProgress a) = Some pa
    /\ progressPercentage (getLevelProgress b) = Some pb
    /\ pa <= pb.
Proof.
  intros Ha Hab Hlevel.
  pose proof (progress_divisor a) as Hda.
  pose proof (progress_divisor b) as Hdb.
  pose proof (progress_divisor_ge_base a) as Hba. unfold BASE_POINTS in Hba.
  rewrite <- Hlevel in Hdb.
  revert Hda Hdb Hba. unfold getLevelProgress.
  cbn [progressPercentage pointsInCurrentLevel pointsNeededForNextLevel].
  rewrite <- Hlevel.
  set (L := calculateLevelFromPoints a).
  intros Hda Hdb Hba.
  rewrite Hda in *.
  eexists; eexists.
  split; [apply percentage_div; lia |].
  split; [apply percentage_div; lia |].
  apply Z.div_le_mono; lia.
Qed.

Lemma percentage_monotone_within_level_at_60_100 :
  0 <= 60 /\ 60 <= 100
  /\ calculateLevelFromPoints 60 = calculateLevelFromPoints 100
  /\ exists pa pb,
       progressPercentage (getLevelProgress 60) = Some pa
       /\ progressPercentage (getLevelProgress 100) = Some pb
       /\ pa <= pb.
Proof.
  split; [lia | split; [lia | split; [vm_compute; reflexivity |]]].
  apply (percentage_monotone_within_level 60 100); [lia | lia |].
  vm_compute; reflexivity.
Defined.

(** X4.  Level-ups compose over successive awards: for totals
    [a <= b <= c], the levels gained from [a] to [c] are those gained from
    [a] to [b] plus those gained from [b] to [c], none of them negative, and
    a level-up is reported for the whole step exactly when it is reported
    for one of the two parts. *)
Theorem level_up_composes (a b c : Z) :
  a <= b -> b <= c ->
  levelsGained (checkLevelUp a c)
  = levelsGained (checkLevelUp a b) + levelsGained (checkLevelUp b c)
  /\ 0 <= levelsGained (checkLevelUp a b)
  /\ 0 <= levelsGained (checkLevelUp b c)
  /\ leveledUp (checkLevelUp a c)
     = leveledUp (checkLevelUp a b) || leveledUp (checkLevelUp b c).
Proof.
  intros Hab Hbc.
  pose proof (level_mono a b Hab). pose proof (level_mono b c Hbc).
  unfold checkLevelUp; cbn [levelsGained leveledUp].
  repeat split; lia.
Qed.

Lemma level_up_composes_at_40_60_300 :
  40 <= 60 /\ 60 <= 300
  /\ levelsGained (checkLevelUp 40 300)
     = levelsGained (checkLevelUp 40 60) + levelsGained (checkLevelUp 60 300)
  /\ 0 <= levelsGained (checkLevelUp 40 60)
  /\ 0 <= levelsGained (checkLevelUp 60 300)
  /\ leveledUp (checkLevelUp 40 300)
     = leveledUp (checkLevelUp 40 60) || leveledUp (checkLevelUp 60 300).
Proof.
  split; [lia | split; [lia | apply (level_up_composes 40 60 300); lia]].
Defined.

(** Twice the next step cost against three times this one. *)
Lemma levelUp_ratio level :
  1 <= level ->
  3 * getPointsRequiredForLevelUp level - 1
  <= 2 * getPointsRequiredForLevelUp (level + 1)
  <= 3 * getPointsRequiredForLevelUp level + 2.
Proof.
  intros Hl.
  rewrite !levelUp_closed_form by lia. unfold BASE_POINTS.
  replace (level + 1 - 1) with (Z.succ (level - 1)) by lia.
  rewrite !Z.pow_succ_r by lia.
  pose proof (Z.pow_pos_nonneg 3 (level - 1) ltac:(lia) ltac:(lia)) as H3.
  pose proof (Z.pow_pos_nonneg 2 (level - 1) ltac:(lia) ltac:(lia)) as H2.
  set (A := 3 ^ (level - 1)) in *. set (B := 2 ^ (level - 1)) in *.
  Z.div_mod_to_equations. nia.
Qed.

Lemma levelUp_increasing (k : nat) : forall level,
  1 <= level ->
  getPointsRequiredForLevelUp level
  <= getPointsRequiredForLevelUp (level + Z.of_nat k).
Proof.
  induction k as [| k IH]; intros level Hl.
  - rewrite Z.add_0_r. lia.
  - replace (level + Z.of_nat (S k)) with (level + Z.of_nat k + 1) by lia.
    pose proof (IH level Hl).
    pose proof (levelUp_ratio (level + Z.of_nat k) ltac:(lia)).
    pose proof (levelUp_ge_base (level + Z.of_nat k) ltac:(lia)) as Hb.
    unfold BASE_POINTS in Hb. lia.
Qed.

(** X5.  The floored step costs follow the factor 1.5 within one point: for
    the levels 1 to 79, whose step cost and the next are exact in a double,
    twice the cost of the next level lies between three times the cost of
    this level minus 1 and plus 2; in particular each of these levels costs
    at least 25 points more than the one before. *)
Theorem step_cost_growth (level : Z) :
  1 <= level <= 79 ->
  3 * getPointsRequiredForLevelUp level - 1
  <= 2 * getPointsRequiredForLevelUp (level + 1)
  <= 3 * getPointsRequiredForLevelUp level + 2
  /\ getPointsRequiredForLevelUp level + 25
     <= getPointsRequiredForLevelUp (level + 1).
Proof.
  intros [Hl _].
  pose proof (levelUp_ge_base level Hl) as Hb. unfold BASE_POINTS in Hb.
  pose proof (levelUp_ratio level Hl). lia.
Qed.

Lemma step_cost_growth_at_3 :
  1 <= 3 <= 79
  /\ (3 * getPointsRequiredForLevelUp 3 - 1
      <= 2 * getPointsRequiredForLevelUp (3 + 1)
      <= 3 * getPointsRequiredForLevelUp 3 + 2
      /\ getPointsRequiredForLevelUp 3 + 25 <= getPointsRequiredForLevelUp (3 + 1)).
Proof.
  split; [lia | apply (step_cost_growth 3); lia].
Defined.

(** X6.  A task is worth between 1 and 100 points (the range the task routes
    accept).  Awarding one to a non-negative total raises the level of the
    engine by at most two, and by at most one once the total has reached
    50 points, that is level 2. *)
Theorem task_award_gain (a n : Z) :
  0 <= a -> 1 <= n <= 100 ->
  0 <= levelsGained (checkLevelUp a (a + n)) <= 2
  /\ (50 <= a -> levelsGained (checkLevelUp a (a + n)) <= 1).
Proof.
  intros Ha Hn.
  unfold checkLevelUp; cbn [levelsGained].
  pose proof (level_mono a (a + n) ltac:(lia)) as Hmono.
  destruct (level_bracket a Ha) as (H1 & Hlo & Hhi).
  set (L := calculateLevelFromPoints a) in *.
  assert (Hlate : 2 <= L -> calculateLevelFromPoints (a + n) < L + 2).
  { intros HL. apply level_below; [lia |].
    replace (L + 2) with (L + 1 + 1) by lia.
    rewrite (required_next (L + 1)) by lia.
    pose proof (levelUp_increasing (Z.to_nat (L + 1 - 3)) 3 ltac:(lia)) as Hinc.
    replace (3 + Z.of_nat (Z.to_nat (L + 1 - 3))) with (L + 1) in Hinc by lia.
    replace (getPointsRequiredForLevelUp 3) with 112 in Hinc
      by (vm_compute; reflexivity).
    lia. }
  assert (Hearly : a < 50 -> calculateLevelFromPoints (a + n) < 4).
  { intros Hsmall. apply level_below; [lia |].
    replace (getPointsRequiredForLevel 4) with 237 by (vm_compute; reflexivity).
    lia. }
  assert (Hreach : 50 <= a -> 2 <= L).
  { intros H50. apply level_reached; [| assumption].
    replace (getPointsRequiredForLevel 2) with 50 by (vm_compute; reflexivity).
    assumption. }
  split.
  - destruct (Z_lt_ge_dec a 50) as [Hs | Hs].
    + specialize (Hearly Hs). lia.
    + specialize (Hlate (Hreach ltac:(lia))). lia.
  - intros H50. specialize (Hlate (Hreach H50)). lia.
Qed.

Lemma task_award_gain_at_49_100 :
  0 <= 49 /\ 1 <= 100 <= 100
  /\ 0 <= levelsGained (checkLevelUp 49 (49 + 100)) <= 2
  /\ (50 <= 49 -> levelsGained (checkLevelUp 49 (49 + 100)) <= 1).
Proof.
  split; [lia | split; [lia | apply (task_award_gain 49 100); lia]].
Defined.

(** X7.  Totals that are not finite.  With [NaN] or [Infinity] the exit test
    of the loop is never true, so [calculateLevelFromPoints] does not return,
    whatever the number of iterations; with [-Infinity] the guard
    [totalPoints < 0] returns level 1 at once. *)
Theorem nonfinite_total_outcome :
  (forall fuel, Js.calculateLevelFromPoints fuel Js.NaN = None)
  /\ (forall fuel, Js.calculateLevelFromPoints fuel Js.Infinity = None)
  /\ (forall fuel,
        Js.calculateLevelFromPoints fuel Js.NegInfinity = Some (Js.Return 1)).
Proof.
  split; [| split]; intros fuel.
  - unfold Js.calculateLevelFromPoints. cbn [Js.lt Js.ofInt].
    now rewrite loop_never_exits by (left; reflexivity).
  - unfold Js.calculateLevelFromPoints. cbn [Js.lt Js.ofInt].
    now rewrite loop_never_exits by (right; reflexivity).
  - reflexivity.
Qed.

(** X8.  The dashboards derive the level from the spendable balance, so
    spending points can lower it: for a balance [T >= 0] and a cost
    [0 <= c <= T], the level of [T - c] is below the level of [T] exactly
    when the cost exceeds [pointsInCurrentLevel] of [T]. *)
Theorem spending_lowers_level (T c : Z) :
  0 <= c -> c <= T ->
  calculateLevelFromPoints (T - c) < calculateLevelFromPoints T
  <-> pointsInCurrentLevel (getLevelProgress T) < c.
Proof.
  intros Hc HcT.
  unfold getLevelProgress; cbn [pointsInCurrentLevel].
  destruct (level_bracket T ltac:(lia)) as (H1 & Hlo & Hhi).
  set (L := calculateLevelFromPoints T) in *.
  split.
  - intros Hlt.
    destruct (Z_lt_ge_dec (T - getPointsRequiredForLevel L) c) as [H | H];
      [assumption |].
    pose proof (level_reached (T - c) L ltac:(lia) ltac:(lia)). lia.
  - intros Hlt. apply level_below; lia.
Qed.

Lemma spending_lowers_level_60_minus_25 :
  0 <= 25 /\ 25 <= 60
  /\ (calculateLevelFromPoints (60 - 25) < calculateLevelFromPoints 60
      <-> pointsInCurrentLevel (getLevelProgress 60) < 25).
Proof.
  split; [lia | split; [lia | apply (spending_lowers_level 60 25); lia]].
Defined.

(** * Properties of the seeding of rewards *)

Module SeedFacts.
Import Database SeedRewards.
Local Open Scope async_scope.

(** *** Database calls under a schedule *)

Lemma run_succeeds statement s :
  faults s = [] -> run statement s = (Resolved tt, statement s).
Proof. intros H. unfold run, dbCall. now rewrite H. Qed.

Lemma run_scheduled statement s schedule :
  faults s = false :: schedule ->
  run statement s = (Resolved tt, statement (setFaults schedule s)).
Proof. intros H. unfold run, dbCall. now rewrite H. Qed.

Lemma run_rejects statement s schedule :
  faults s = true :: schedule ->
  run statement s = (Rejected DbError, setFaults schedule s).
Proof. intros H. unfold run, dbCall. now rewrite H. Qed.

Lemma get_succeeds {A} (query : state -> A) s :
  faults s = [] -> get query s = (Resolved (query s), s).
Proof. intros H. unfold get, dbCall. now rewrite H. Qed.

Lemma get_scheduled {A} (query : state -> A) s schedule :
  faults s = false :: schedule ->
  get query s = (Resolved (query (setFaults schedule s)), setFaults schedule s).
Proof. intros H. unfold get, dbCall. now rewrite H. Qed.

Lemma get_rejects {A} (query : state -> A) s schedule :
  faults s = true :: schedule ->
  get query s = (Rejected DbError, setFaults schedule s).
Proof. intros H. unfold get, dbCall. now rewrite H. Qed.

(** *** The rows that a run of the loop inserts *)

(** The rows inserted for the rewards [remaining] when the counter of the
    table stands at [counter]. *)
Fixpoint seededRows (parentId counter : Z) (remaining : list defaultReward)
  : list reward :=
  match remaining with
  | [] => []
  | reward :: rest =>
      mkReward (counter + 1) parentId (title reward) (Some (description reward))
               (points_cost reward) 1
      :: seededRows parentId (counter + 1) rest
  end.

(** The state after the inserts of [inserted], with [schedule] left. *)
Definition seeded (parentId : Z) (inserted : list defaultReward)
  (schedule : list bool) (s : state) : state :=
  mkState (parents s) (kids s) (tasks s)
          (rewards s ++ seededRows parentId (rewards_seq s) inserted)
          (reward_redemptions s)
          (rewards_seq s + Z.of_nat (List.length inserted))
          (reward_redemptions_seq s) schedule.

Lemma seeded_nil parentId s : seeded parentId [] (faults s) s = s.
Proof.
  destruct s; unfold seeded; cbn. now rewrite app_nil_r, Z.add_0_r.
Qed.

Lemma seeded_cons parentId reward rest schedule s :
  seeded parentId rest schedule (insertReward parentId reward s)
  = seeded parentId (reward :: rest) schedule s.
Proof.
  unfold seeded, insertReward; cbn [parents kids tasks rewards reward_redemptions
    rewards_seq reward_redemptions_seq faults seededRows List.length].
  rewrite <- app_assoc. cbn [app]. f_equal. lia.
Qed.

Lemma seededRows_length parentId counter remaining :
  List.length (seededRows parentId counter remaining) = List.length remaining.
Proof.
  revert counter. induction remaining as [| r rest IH]; intros counter; cbn;
    [reflexivity | now rewrite IH].
Qed.

Lemma seededRows_owner parentId counter remaining :
  Forall (fun r => reward_parent_id r = parentId /\ reward_is_active r = 1)
         (seededRows parentId counter remaining).
Proof.
  revert counter. induction remaining as [| r rest IH]; intros counter; cbn;
    constructor; auto.
Qed.

Lemma seededRows_content parentId counter remaining :
  map (fun r => (reward_title r, reward_description r, reward_points_cost r))
      (seededRows parentId counter remaining)
  = map (fun d => (title d, Some (description d), points_cost d)) remaining.
Proof.
  revert counter. induction remaining as [| r rest IH]; intros counter; cbn;
    [reflexivity | now rewrite IH].
Qed.

Lemma seededRows_ids parentId counter remaining :
  map reward_id (seededRows parentId counter remaining)
  = map (fun i => counter + 1 + Z.of_nat i) (List.seq 0 (List.length remaining)).
Proof.
  revert counter. induction remaining as [| r rest IH]; intros counter;
    [reflexivity |].
  cbn [seededRows map List.length List.seq reward_id].
  f_equal; [cbn; lia |].
  rewrite IH, <- seq_shift, map_map.
  apply map_ext. intros i. lia.
Qed.

Lemma count_app parentId (before after : list reward) :
  Z.of_nat (List.length (filter (fun r => reward_parent_id r =? parentId)
                                (before ++ after)))
  = Z.of_nat (List.length (filter (fun r => reward_parent_id r =? parentId) before))
    + Z.of_nat (List.length (filter (fun r => reward_parent_id r =? parentId) after)).
Proof. rewrite filter_app, length_app. lia. Qed.

Lemma seededRows_count parentId other counter remaining :
  Z.of_nat (List.length (filter (fun r => reward_parent_id r =? other)
                                (seededRows parentId counter remaining)))
  = if other =? parentId then Z.of_nat (List.length remaining) else 0.
Proof.
  revert counter. induction remaining as [| r rest IH]; intros counter.
  - cbn. now destruct (other =? parentId).
  - cbn [seededRows filter reward_parent_id List.length].
    rewrite (Z.eqb_sym parentId other).
    specialize (IH (counter + 1)).
    destruct (other =? parentId); cbn [List.length]; lia.
Qed.

Lemma seeded_count parentId other inserted schedule s :
  countRewards other (seeded parentId inserted schedule s)
  = countRewards other s
    + if other =? parentId then Z.of_nat (List.length inserted) else 0.
Proof.
  unfold countRewards, seeded; cbn [rewards].
  now rewrite count_app, seededRows_count.
Qed.

(** *** The loop of [seedDefaultRewards] *)

Lemma seedLoop_succeeds parentId remaining : forall s,
  faults s = [] ->
  seedLoop parentId remaining s = (Resolved tt, seeded parentId remaining [] s).
Proof.
  induction remaining as [| r rest IH]; intros s Hs.
  - cbn. unfold ret. now rewrite <- Hs, seeded_nil.
  - cbn [seedLoop]. unfold bind. rewrite run_succeeds by assumption.
    rewrite IH by assumption. now rewrite seeded_cons.
Qed.

(** A rejection of the insert number [done + 1] stops the loop with the
    first [done] rewards inserted. *)
Lemma seedLoop_rejected parentId (done : nat) : forall remaining schedule s,
  (done < List.length remaining)%nat ->
  faults s = repeat false done ++ true :: schedule ->
  seedLoop parentId remaining s
  = (Rejected DbError, seeded parentId (firstn done remaining) schedule s).
Proof.
  induction done as [| done IH]; intros remaining schedule s Hlen Hs;
    destruct remaining as [| r rest]; cbn [List.length] in Hlen; try lia.
  - cbn [seedLoop]. unfold bind. cbn [repeat app] in Hs.
    rewrite (run_rejects _ _ _ Hs).
    f_equal. destruct s; unfold seeded, setFaults; cbn.
    now rewrite app_nil_r, Z.add_0_r.
  - cbn [seedLoop]. unfold bind. cbn [repeat app] in Hs.
    rewrite (run_scheduled _ _ _ Hs).
    rewrite (IH rest schedule) by (cbn; lia || reflexivity).
    cbn [firstn]. rewrite <- seeded_cons. reflexivity.
Qed.


(** *** [parentHasRewards] and [seedRewardsIfEmpty] when no call rejects *)

Lemma parentHasRewards_succeeds parentId s :
  faults s = [] ->
  parentHasRewards parentId s = (Resolved (countRewards parentId s >? 0), s).
Proof.
  intros Hs. unfold parentHasRewards, tryCatch, bind.
  now rewrite get_succeeds.
Qed.

Lemma parentHasRewards_scheduled parentId s schedule :
  faults s = false :: schedule ->
  parentHasRewards parentId s
  = (Resolved (countRewards parentId s >? 0), setFaults schedule s).
Proof.
  intros Hs. unfold parentHasRewards, tryCatch, bind.
  now rewrite (get_scheduled _ _ _ Hs).
Qed.

Lemma seedDefaultRewards_succeeds parentId s :
  faults s = [] ->
  seedDefaultRewards parentId s
  = (Resolved tt, seeded parentId defaultRewards [] s).
Proof.
  intros Hs. unfold seedDefaultRewards, tryCatch.
  now rewrite seedLoop_succeeds.
Qed.

Lemma seedRewardsIfEmpty_succeeds parentId s :
  faults s = [] ->
  seedRewardsIfEmpty parentId s
  = if countRewards parentId s >? 0
    then (Resolved false, s)
    else (Resolved true, seeded parentId defaultRewards [] s).
Proof.
  intros Hs. unfold seedRewardsIfEmpty, tryCatch, bind.
  rewrite parentHasRewards_succeeds by assumption.
  destruct (countRewards parentId s >? 0); cbn [negb]; [reflexivity |].
  now rewrite seedDefaultRewards_succeeds.
Qed.

Lemma countRewards_nonneg parentId s : 0 <= countRewards parentId s.
Proof. unfold countRewards. lia. Qed.

End SeedFacts.

Import Database SeedRewards SeedFacts.

(** X9.  Seeding a parent that has no reward, when no database call
    rejects: [seedRewardsIfEmpty] resolves to [true] and appends to the
    table one row per default reward, in the order of [defaultRewards], with
    its title, description and cost, owned by that parent, active, and
    numbered on from the counter of the table; nothing else changes. *)
Theorem seed_if_empty_seeds (parentId : Z) (s : state) :
  faults s = [] ->
  countRewards parentId s = 0 ->
  exists newRows,
    seedRewardsIfEmpty parentId s
    = (Resolved true,
       mkState (parents s) (kids s) (tasks s) (rewards s ++ newRows)
               (reward_redemptions s) (rewards_seq s + 26)
               (reward_redemptions_seq s) [])
    /\ map (fun r => (reward_title r, reward_description r, reward_points_cost r))
           newRows
       = map (fun d => (title d, Some (description d), points_cost d))
             defaultRewards
    /\ Forall (fun r => reward_parent_id r = parentId /\ reward_is_active r = 1)
              newRows
    /\ map reward_id newRows
       = map (fun i => rewards_seq s + 1 + Z.of_nat i) (List.seq 0 26).
Proof.
  intros Hs Hcount.
  exists (seededRows parentId (rewards_seq s) defaultRewards).
  split; [| split; [apply seededRows_content | split;
    [apply seededRows_owner | apply (seededRows_ids parentId _ defaultRewards)]]].
  rewrite seedRewardsIfEmpty_succeeds by assumption.
  rewrite Hcount. reflexivity.
Qed.

Lemma seed_if_empty_seeds_on_empty_database :
  let s := mkState [mkParent 1 "Ann"] [] [] [] [] 0 0 [] in
  faults s = [] /\ countRewards 1 s = 0
  /\ exists newRows,
       seedRewardsIfEmpty 1 s
       = (Resolved true,
          mkState (parents s) (kids s) (tasks s) (rewards s ++ newRows)
                  (reward_redemptions s) (rewards_seq s + 26)
                  (reward_redemptions_seq s) [])
       /\ map (fun r => (reward_title r, reward_description r, reward_points_cost r))
              newRows
          = map (fun d => (title d, Some (description d), points_cost d))
                defaultRewards
       /\ Forall (fun r => reward_parent_id r = 1 /\ reward_is_active r = 1)
                 newRows
       /\ map reward_id newRows
          = map (fun i => rewards_seq s + 1 + Z.of_nat i) (List.seq 0 26).
Proof.
  cbv zeta. split; [reflexivity | split; [reflexivity |]].
  apply (seed_if_empty_seeds 1); reflexivity.
Defined.

(** X10.  [seedRewardsIfEmpty] is idempotent when no database call rejects:
    whatever the first call did, a second call for the same parent resolves
    to [false] and leaves the database as the first call left it. *)
Theorem seed_if_empty_idempotent (parentId : Z) (s : state) :
  faults s = [] ->
  let afterFirst := snd (seedRewardsIfEmpty parentId s) in
  seedRewardsIfEmpty parentId afterFirst = (Resolved false, afterFirst).
Proof.
  intros Hs; cbv zeta.
  rewrite (seedRewardsIfEmpty_succeeds parentId s Hs).
  destruct (countRewards parentId s >? 0) eqn:Hcount; cbn [snd].
  - rewrite seedRewardsIfEmpty_succeeds by assumption. now rewrite Hcount.
  - rewrite seedRewardsIfEmpty_succeeds by reflexivity.
    rewrite seeded_count, Z.eqb_refl.
    pose proof (countRewards_nonneg parentId s).
    destruct (Z.gtb_spec (countRewards parentId s
                          + Z.of_nat (List.length defaultRewards)) 0) as [H' | H'];
      [reflexivity |].
    cbn [List.length defaultRewards] in H'. lia.
Qed.

Lemma seed_if_empty_idempotent_on_empty_database :
  let s := mkState [mkParent 1 "Ann"] [] [] [] [] 0 0 [] in
  faults s = []
  /\ seedRewardsIfEmpty 1 (snd (seedRewardsIfEmpty 1 s))
     = (Resolved false, snd (seedRewardsIfEmpty 1 s)).
Proof.
  cbv zeta. split; [reflexivity |].
  apply (seed_if_empty_idempotent 1); reflexivity.
Defined.

(** X11.  A rejected count is taken for "no rewards": [parentHasRewards]
    resolves to [false] instead of rejecting, and [seedRewardsIfEmpty] then
    seeds the 26 defaults even for a parent that already has rewards. *)
Theorem count_rejection_reseeds (parentId : Z) (s : state) :
  faults s = [true] ->
  parentHasRewards parentId s = (Resolved false, setFaults [] s)
  /\ exists s',
       seedRewardsIfEmpty parentId s = (Resolved true, s')
       /\ countRewards parentId s' = countRewards parentId s + 26.
Proof.
  intros Hs.
  assert (Hhas : parentHasRewards parentId s = (Resolved false, setFaults [] s)).
  { unfold parentHasRewards, tryCatch, bind. now rewrite (get_rejects _ _ _ Hs). }
  split; [assumption |].
  exists (seeded parentId defaultRewards [] (setFaults [] s)).
  split.
  - unfold seedRewardsIfEmpty, tryCatch, bind. rewrite Hhas. cbn [negb].
    now rewrite seedDefaultRewards_succeeds.
  - rewrite seeded_count, Z.eqb_refl. reflexivity.
Qed.




Lemma count_rejection_reseeds_with_one_reward :
  let s := mkState [mkParent 1 "Ann"] [] []
                   [mkReward 1 1 "Zoo" None 10 1] [] 1 0 [true] in
  faults s = [true]
  /\ parentHasRewards 1 s = (Resolved false, setFaults [] s)
  /\ exists s',
       seedRewardsIfEmpty 1 s = (Resolved true, s')
       /\ countRewards 1 s' = countRewards 1 s + 26.
Proof.
  cbv zeta. split; [reflexivity |].
  apply (count_rejection_reseeds 1); reflexivity.
Defined.

(** X12.  Seeding is not atomic.  If, for a parent without rewards, the
    count succeeds, [done] inserts succeed and the next one rejects, then
    [seedRewardsIfEmpty] rejects with the [done] rows left in the table;
    and when [done >= 1], later calls find rewards and resolve to [false],
    so the missing defaults are never added. *)
Theorem seeding_interrupted (parentId : Z) (done : nat) (s : state) :
  (done < 26)%nat ->
  countRewards parentId s = 0 ->
  faults s = false :: repeat false done ++ [true] ->
  exists s',
    seedRewardsIfEmpty parentId s = (Rejected DbError, s')
    /\ countRewards parentId s' = Z.of_nat done
    /\ faults s' = []
    /\ ((1 <= done)%nat ->
        seedRewardsIfEmpty parentId s' = (Resolved false, s')).
Proof.
  intros Hdone Hcount Hs.
  set (s1 := setFaults (repeat false done ++ [true]) s).
  exists (seeded parentId (firstn done defaultRewards) [] s1).
  assert (Hrun : seedRewardsIfEmpty parentId s
                 = (Rejected DbError,
                    seeded parentId (firstn done defaultRewards) [] s1)).
  { unfold seedRewardsIfEmpty, tryCatch, bind.
    rewrite (parentHasRewards_scheduled _ _ _ Hs), Hcount. fold s1.
    change (0 >? 0) with false. cbn [negb].
    unfold seedDefaultRewards, tryCatch.
    rewrite (seedLoop_rejected parentId done defaultRewards [] s1);
      [reflexivity | exact Hdone | reflexivity]. }
  assert (Hafter : countRewards parentId
                     (seeded parentId (firstn done defaultRewards) [] s1)
                   = Z.of_nat done).
  { rewrite seeded_count, Z.eqb_refl.
    replace (countRewards parentId s1) with 0 by (rewrite <- Hcount; reflexivity).
    rewrite length_firstn. cbn [List.length defaultRewards]. lia. }
  split; [assumption | split; [assumption | split; [reflexivity |]]].
  intros H1. rewrite seedRewardsIfEmpty_succeeds by reflexivity.
  rewrite Hafter.
  destruct (Z.gtb_spec (Z.of_nat done) 0); [reflexivity | lia].
Qed.

Lemma seeding_interrupted_after_3 :
  let s := mkState [mkParent 1 "Ann"] [] [] [] [] 0 0
                   (false :: repeat false 3 ++ [true]) in
  (3 < 26)%nat /\ countRewards 1 s = 0
  /\ faults s = false :: repeat false 3 ++ [true]
  /\ exists s',
       seedRewardsIfEmpty 1 s = (Rejected DbError, s')
       /\ countRewards 1 s' = Z.of_nat 3
       /\ faults s' = []
       /\ ((1 <= 3)%nat -> seedRewardsIfEmpty 1 s' = (Resolved false, s')).
Proof.
  cbv zeta. split; [lia | split; [reflexivity | split; [reflexivity |]]].
  apply (seeding_interrupted 1 3); [lia | reflexivity | reflexivity].
Defined.

(** *** The script *)

Import SeedExistingParents.

(** One pass of the loop over the parents when no call rejects. *)
Lemma seedParentsLoop_succeeds (remaining : list parent) :
  forall seededCount skippedCount s,
  faults s = [] ->
  exists seededCount' skippedCount' s',
    seedParentsLoop remaining seededCount skippedCount s
    = (Resolved (seededCount', skippedCount'), s')
    /\ faults s' = []
    /\ parents s' = parents s
    /\ seededCount' + skippedCount'
       = seededCount + skippedCount + Z.of_nat (List.length remaining)
    /\ seededCount <= seededCount'
    /\ (forall owner, 0 < countRewards owner s ->
          countRewards owner s' = countRewards owner s)
    /\ (forall owner, ~ In owner (map parent_id remaining) ->
          countRewards owner s' = countRewards owner s)
    /\ Forall (fun p => 0 < countRewards (parent_id p) s') remaining
    /\ (Forall (fun p => 0 < countRewards (parent_id p) s) remaining ->
        s' = s /\ seededCount' = seededCount).
Proof.
  induction remaining as [| p rest IH]; intros a b s Hs.
  - exists a, b, s. cbn. unfold ret.
    repeat split; auto; try lia.
  - cbn [seedParentsLoop]. unfold bind, tryCatch.
    rewrite seedRewardsIfEmpty_succeeds by assumption.
    pose proof (countRewards_nonneg (parent_id p) s) as Hnn.
    destruct (Z.gtb_spec (countRewards (parent_id p) s) 0) as [Hhas | Hnone].
    + unfold ret; cbn [fst snd].
      destruct (IH a (b + 1) s Hs)
        as (a' & b' & s' & Hrun & Hf & Hp & Hsum & Hle & Hkeep & Hother & Hall & Hidem).
      exists a', b', s'. rewrite Hrun.
      split; [reflexivity |]. split; [assumption |]. split; [assumption |].
      split; [cbn [List.length]; lia |]. split; [assumption |].
      split; [assumption |].
      split; [intros owner Hin; apply Hother; cbn in Hin; tauto |].
      split.
      * constructor; [| assumption]. rewrite Hkeep; assumption.
      * intros Hfa. apply Hidem. now inversion Hfa.
    + unfold ret; cbn [fst snd].
      set (s1 := seeded (parent_id p) defaultRewards [] s).
      assert (Hs1 : faults s1 = []) by reflexivity.
      destruct (IH (a + 1) b s1 Hs1)
        as (a' & b' & s' & Hrun & Hf & Hp & Hsum & Hle & Hkeep & Hother & Hall & Hidem).
      exists a', b', s'. rewrite Hrun.
      assert (Hcount1 : forall owner,
                 countRewards owner s1
                 = countRewards owner s
                   + if owner =? parent_id p then 26 else 0).
      { intros owner. unfold s1. rewrite seeded_count. reflexivity. }
      split; [reflexivity |]. split; [assumption |]. split; [assumption |].
      split; [cbn [List.length]; lia |]. split; [lia |].
      split.
      { intros owner Hpos. rewrite Hkeep.
        - rewrite Hcount1. destruct (Z.eqb_spec owner (parent_id p)); [subst; lia | lia].
        - rewrite Hcount1. destruct (owner =? parent_id p); lia. }
      split.
      { intros owner Hin. cbn in Hin.
        rewrite Hother by tauto. rewrite Hcount1.
        destruct (Z.eqb_spec owner (parent_id p)); [subst; tauto | lia]. }
      split.
      { constructor; [| assumption].
        rewrite Hkeep; rewrite Hcount1, Z.eqb_refl; lia. }
      intros Hfa. inversion Hfa; subst. lia.
Qed.

(** X13.  The script, when no database call rejects and there is at least
    one parent: it ends through [process.exit(0)]; afterwards every parent
    has rewards; a parent that had rewards, and any owner that is not a
    parent, has as many rewards as before; and a second run changes
    nothing. *)
Theorem seed_all_existing_parents (s : state) :
  faults s = [] ->
  parents s <> [] ->
  exists s',
    seedAllExistingParents s = (Resolved (Exited 0), s')
    /\ Forall (fun p => 0 < countRewards (parent_id p) s') (parents s)
    /\ (forall owner, 0 < countRewards owner s ->
          countRewards owner s' = countRewards owner s)
    /\ (forall owner, ~ In owner (map parent_id (parents s)) ->
          countRewards owner s' = countRewards owner s)
    /\ seedAllExistingParents s' = (Resolved (Exited 0), s').
Proof.
  intros Hs Hne.
  destruct (seedParentsLoop_succeeds (parents s) 0 0 s Hs)
    as (a & b & s' & Hrun & Hf & Hp & _ & _ & Hkeep & Hother & Hall & _).
  exists s'.
  assert (Hscript : forall t, faults t = [] -> parents t = parents s ->
            forall a' b' t',
            seedParentsLoop (parents s) 0 0 t = (Resolved (a', b'), t') ->
            seedAllExistingParents t = (Resolved (Exited 0), t')).
  { intros t Ht Hpt a' b' t' Hloop.
    unfold seedAllExistingParents, tryCatch, bind, all, dbCall.
    rewrite Ht. unfold selectParents. rewrite Hpt.
    destruct (parents s) as [| p rest] eqn:Hps; [contradiction |].
    cbn [List.length Nat.eqb]. rewrite Hloop. reflexivity. }
  split; [apply (Hscript s Hs eq_refl a b s' Hrun) |].
  split; [assumption |]. split; [assumption |]. split; [assumption |].
  destruct (seedParentsLoop_succeeds (parents s) 0 0 s' Hf)
    as (a2 & b2 & s2 & Hrun2 & _ & _ & _ & _ & _ & _ & _ & Hidem).
  destruct (Hidem Hall) as (Heq & _). subst s2.
  apply (Hscript s' Hf Hp a2 b2 s' Hrun2).
Qed.

Lemma seed_all_existing_parents_of_two :
  let s := mkState [mkParent 1 "Ann"; mkParent 2 "Bob"] [] []
                   [mkReward 1 2 "Zoo" None 10 1] [] 1 0 [] in
  faults s = [] /\ parents s <> []
  /\ exists s',
       seedAllExistingParents s = (Resolved (Exited 0), s')
       /\ Forall (fun p => 0 < countRewards (parent_id p) s') (parents s)
       /\ (forall owner, 0 < countRewards owner s ->
             countRewards owner s' = countRewards owner s)
       /\ (forall owner, ~ In owner (map parent_id (parents s)) ->
             countRewards owner s' = countRewards owner s)
       /\ seedAllExistingParents s' = (Resolved (Exited 0), s').
Proof.
  cbv zeta. split; [reflexivity | split; [discriminate |]].
  apply seed_all_existing_parents; [reflexivity | discriminate].
Defined.

Import Database SeedFacts Http.

(** * Properties of the task and reward routes *)

(** *** Reading a table after an update *)

Lemma find_map_same {A} (test : A -> bool) (update : A -> A) (rows : list A) :
  (forall row, test (update row) = test row) ->
  find test (map update rows) = option_map update (find test rows).
Proof.
  intros Hsame. induction rows as [| row rest IH]; [reflexivity |].
  cbn. rewrite Hsame. destruct (test row); [reflexivity | exact IH].
Qed.

Lemma find_map_none {A} (test : A -> bool) (update : A -> A) (rows : list A) :
  (forall row, test (update row) = false) ->
  find test (map update rows) = None.
Proof.
  intros Hnone. induction rows as [| row rest IH]; [reflexivity |].
  cbn. now rewrite Hnone.
Qed.

Lemma levelPer100_div points : TaskRoutes.levelPer100 points = points / 100 + 1.
Proof.
  unfold TaskRoutes.levelPer100, Math.floor. now rewrite <- Zdiv_Qdiv.
Qed.

Module TaskFacts.
Import TaskRoutes.

Lemma selectKid_addPoints points kidId other s :
  selectKid other (addPoints points kidId s)
  = option_map (fun k => if kid_id k =? kidId
                         then mkKid (kid_id k) (kid_parent_id k)
                                    (kid_points k + points) (kid_level k)
                         else k)
               (selectKid other s).
Proof.
  unfold selectKid, addPoints, setKids; cbn [kids].
  apply find_map_same. intros k. now destruct (kid_id k =? kidId).
Qed.

Lemma selectKid_setLevel level kidId other s :
  selectKid other (setLevel level kidId s)
  = option_map (fun k => if kid_id k =? kidId
                         then mkKid (kid_id k) (kid_parent_id k)
                                    (kid_points k) level
                         else k)
               (selectKid other s).
Proof.
  unfold selectKid, setLevel, setKids; cbn [kids].
  apply find_map_same. intros k. now destruct (kid_id k =? kidId).
Qed.

Lemma selectKid_id kidId s k : selectKid kidId s = Some k -> kid_id k = kidId.
Proof.
  unfold selectKid. intros H. apply find_some in H. lia.
Qed.

Lemma selectPendingTask_markCompleted taskId kidId s :
  selectPendingTask taskId kidId (markCompleted taskId s) = None.
Proof.
  unfold selectPendingTask, markCompleted, setTasks; cbn [tasks].
  apply find_map_none. intros t.
  destruct (Z.eqb_spec (task_id t) taskId) as [Heq | Hne]; cbn.
  - rewrite Heq, Z.eqb_refl. cbn. apply andb_false_r.
  - destruct (Z.eqb_spec (task_id t) taskId); [contradiction | reflexivity].
Qed.


Lemma completeTask_succeeds user taskId s t k :
  faults s = [] ->
  type user = "kid"%string ->
  selectPendingTask taskId (userId user) s = Some t ->
  selectKid (userId user) s = Some k ->
  let total := kid_points k + task_points t in
  let raised := levelPer100 total >? kid_level k in
  completeTask user taskId s
  = (Resolved
       (mkResponse 200
          (Completed "Task completed successfully!" (task_points t)
                     (total + task_points t) raised
                     (Z.max (kid_level k) (levelPer100 total))
                     (task_is_recurring t))),
     (if raised then setLevel (levelPer100 total) (userId user) else fun s => s)
       (addPoints (task_points t) (userId user) (markCompleted taskId s))).
Proof.
  intros Hs Htype Htask Hkid; cbv zeta.
  pose proof (selectKid_id _ _ _ Hkid) as Hid.
  unfold completeTask, tryCatch, bind.
  rewrite Htype. cbn [String.eqb Ascii.eqb Bool.eqb negb].
  rewrite get_succeeds by assumption. rewrite Htask.
  rewrite run_succeeds by (cbn; assumption).
  rewrite run_succeeds by (cbn; assumption).
  rewrite get_succeeds by (cbn; assumption).
  rewrite selectKid_addPoints.
  change (selectKid (userId user) (markCompleted taskId s))
    with (selectKid (userId user) s).
  rewrite Hkid. cbn [option_map]. rewrite Hid, Z.eqb_refl.
  cbn [kid_points kid_level].
  destruct (Z.gtb_spec (levelPer100 (kid_points k + task_points t)) (kid_level k))
    as [Hup | Hsame].
  - rewrite run_succeeds by (cbn; assumption). unfold ret.
    rewrite Z.max_r by lia. reflexivity.
  - unfold ret. rewrite Z.max_l by lia. reflexivity.
Qed.

End TaskFacts.

Import TaskRoutes TaskFacts.

(** X14.  Completing a pending task of the kid, when no database call
    rejects and the kid's row exists: the response is 200; the kid's stored
    points grow by the points of the task; the stored level becomes the
    larger of the old level and [floor(points / 100) + 1] for the new
    points; the rows of other kids are read as before.  The response
    reports [pointsEarned] as the points of the task, but [newTotalPoints]
    as the new stored total plus the points of the task once more. *)
Theorem complete_task_awards (user : user) (taskId : Z) (s : state)
  (t : task) (k : kid) :
  faults s = [] ->
  type user = "kid"%string ->
  selectPendingTask taskId (userId user) s = Some t ->
  selectKid (userId user) s = Some k ->
  let total := kid_points k + task_points t in
  let stored := Z.max (kid_level k) (total / 100 + 1) in
  exists s',
    completeTask user taskId s
    = (Resolved
         (mkResponse 200
            (Completed "Task completed successfully!" (task_points t)
                       (total + task_points t) (total / 100 + 1 >? kid_level k)
                       stored (task_is_recurring t))),
       s')
    /\ selectKid (userId user) s'
       = Some (mkKid (kid_id k) (kid_parent_id k) total stored)
    /\ forall other, other <> userId user ->
         selectKid other s' = selectKid other s.
Proof.
  intros Hs Htype Htask Hkid; cbv zeta.
  pose proof (selectKid_id _ _ _ Hkid) as Hid.
  eexists. split; [| split].
  - rewrite (completeTask_succeeds user taskId s t k Hs Htype Htask Hkid).
    rewrite levelPer100_div. reflexivity.
  - destruct (Z.gtb_spec ((kid_points k + task_points t) / 100 + 1) (kid_level k))
      as [Hup | Hsame].
    + rewrite selectKid_setLevel, selectKid_addPoints.
      change (selectKid (userId user) (markCompleted taskId s))
        with (selectKid (userId user) s).
      rewrite Hkid. cbn [option_map]. rewrite Hid, Z.eqb_refl.
      cbn [kid_id]. rewrite Z.eqb_refl. cbn [kid_id kid_parent_id kid_points].
      rewrite Z.max_r by lia. reflexivity.
    + rewrite selectKid_addPoints.
      change (selectKid (userId user) (markCompleted taskId s))
        with (selectKid (userId user) s).
      rewrite Hkid. cbn [option_map]. rewrite Hid, Z.eqb_refl.
      rewrite Z.max_l by lia. reflexivity.
  - intros other Hother.
    assert (Hkeep : forall f : kid -> kid,
               option_map (fun k0 => if kid_id k0 =? userId user then f k0 else k0)
                          (selectKid other s)
               = selectKid other s).
    { intros f. destruct (selectKid other s) as [k0 |] eqn:Hk0; [| reflexivity].
      cbn. rewrite (selectKid_id _ _ _ Hk0).
      destruct (Z.eqb_spec other (userId user)); [contradiction | reflexivity]. }
    destruct ((kid_points k + task_points t) / 100 + 1 >? kid_level k).
    + rewrite selectKid_setLevel, selectKid_addPoints.
      change (selectKid other (markCompleted taskId s)) with (selectKid other s).
      rewrite (Hkeep (fun k0 => mkKid (kid_id k0) (kid_parent_id k0)
                                      (kid_points k0 + task_points t) (kid_level k0))).
      apply Hkeep.
    + rewrite selectKid_addPoints.
      change (selectKid other (markCompleted taskId s)) with (selectKid other s).
      apply Hkeep.
Qed.

Lemma complete_task_awards_120_points :
  let user := mkUser 7 "kid" 1 in
  let s := mkState [] [mkKid 7 1 90 1; mkKid 8 1 40 1]
                   [mkTask 3 (Some 7) 30 "pending" 0] [] [] 0 0 [] in
  let t := mkTask 3 (Some 7) 30 "pending" 0 in
  let k := mkKid 7 1 90 1 in
  faults s = [] /\ type user = "kid"%string
  /\ selectPendingTask 3 (userId user) s = Some t
  /\ selectKid (userId user) s = Some k
  /\ exists s',
       completeTask user 3 s
       = (Resolved
            (mkResponse 200
               (Completed "Task completed successfully!" (task_points t)
                          (kid_points k + task_points t + task_points t)
                          ((kid_points k + task_points t) / 100 + 1 >? kid_level k)
                          (Z.max (kid_level k)
                                 ((kid_points k + task_points t) / 100 + 1))
                          (task_is_recurring t))),
          s')
       /\ selectKid (userId user) s'
          = Some (mkKid (kid_id k) (kid_parent_id k)
                        (kid_points k + task_points t)
                        (Z.max (kid_level k)
                               ((kid_points k + task_points t) / 100 + 1)))
       /\ forall other, other <> userId user ->
            selectKid other s' = selectKid other s.
Proof.
  cbv zeta.
  split; [reflexivity | split; [reflexivity | split; [reflexivity |
    split; [reflexivity |]]]].
  apply (complete_task_awards (mkUser 7 "kid" 1) 3 _ _ _); reflexivity.
Defined.

(** X15.  No task is awarded twice: after a completion that answered 200, a
    second request for the same task by the same kid answers 404 and leaves
    the database as it is. *)
Theorem complete_task_once (user : user) (taskId : Z) (s : state)
  (t : task) (k : kid) :
  faults s = [] ->
  type user = "kid"%string ->
  selectPendingTask taskId (userId user) s = Some t ->
  selectKid (userId user) s = Some k ->
  let afterFirst := snd (completeTask user taskId s) in
  completeTask user taskId afterFirst
  = (Resolved (mkResponse 404
                 (CompleteError "Task not found or already completed")),
     afterFirst).
Proof.
  intros Hs Htype Htask Hkid; cbv zeta.
  rewrite (completeTask_succeeds user taskId s t k Hs Htype Htask Hkid).
  cbn [snd].
  match goal with
  | |- context [(if ?c then ?f else ?g) ?x] =>
      set (s' := (if c then f else g) x)
  end.
  assert (Hs' : faults s' = []).
  { unfold s'. destruct (_ >? _); cbn; assumption. }
  assert (Hgone : selectPendingTask taskId (userId user) s' = None).
  { unfold s'. destruct (_ >? _);
      apply (selectPendingTask_markCompleted taskId (userId user) s). }
  unfold completeTask, tryCatch, bind.
  rewrite Htype. cbn [String.eqb Ascii.eqb Bool.eqb negb].
  rewrite get_succeeds by assumption. now rewrite Hgone.
Qed.

Lemma complete_task_once_for_task_3 :
  let user := mkUser 7 "kid" 1 in
  let s := mkState [] [mkKid 7 1 90 1]
                   [mkTask 3 (Some 7) 30 "pending" 0] [] [] 0 0 [] in
  faults s = [] /\ type user = "kid"%string
  /\ selectPendingTask 3 (userId user) s = Some (mkTask 3 (Some 7) 30 "pending" 0)
  /\ selectKid (userId user) s = Some (mkKid 7 1 90 1)
  /\ completeTask user 3 (snd (completeTask user 3 s))
     = (Resolved (mkResponse 404
                    (CompleteError "Task not found or already completed")),
        snd (completeTask user 3 s)).
Proof.
  cbv zeta.
  split; [reflexivity | split; [reflexivity | split; [reflexivity |
    split; [reflexivity |]]]].
  apply (complete_task_once (mkUser 7 "kid" 1) 3 _
           (mkTask 3 (Some 7) 30 "pending" 0) (mkKid 7 1 90 1)); reflexivity.
Defined.

(** X16.  The completion is not atomic.  When the kid of the token has no
    row, the request answers 500, but the task has already been marked
    completed: it is no longer pending, and no points were given for it. *)
Theorem complete_task_without_kid (user : user) (taskId : Z) (s : state)
  (t : task) :
  faults s = [] ->
  type user = "kid"%string ->
  selectPendingTask taskId (userId user) s = Some t ->
  selectKid (userId user) s = None ->
  exists s',
    completeTask user taskId s
    = (Resolved (mkResponse 500 (CompleteError "Failed to complete task")), s')
    /\ selectPendingTask taskId (userId user) s' = None
    /\ kids s' = kids s.
Proof.
  intros Hs Htype Htask Hkid.
  exists (addPoints (task_points t) (userId user) (markCompleted taskId s)).
  split; [| split].
  - unfold completeTask, tryCatch, bind.
    rewrite Htype. cbn [String.eqb Ascii.eqb Bool.eqb negb].
    rewrite get_succeeds by assumption. rewrite Htask.
    rewrite run_succeeds by (cbn; assumption).
    rewrite run_succeeds by (cbn; assumption).
    rewrite get_succeeds by (cbn; assumption).
    rewrite selectKid_addPoints.
    change (selectKid (userId user) (markCompleted taskId s))
      with (selectKid (userId user) s).
    rewrite Hkid. reflexivity.
  - apply (selectPendingTask_markCompleted taskId (userId user) s).
  - unfold addPoints, markCompleted, setKids, setTasks; cbn [kids].
    rewrite <- (map_id (kids s)) at 2. apply map_ext_in.
    intros k0 Hin.
    destruct (Z.eqb_spec (kid_id k0) (userId user)) as [Heq | Hne]; [| reflexivity].
    unfold selectKid in Hkid.
    pose proof (find_none _ _ Hkid k0 Hin) as Hno. cbn beta in Hno. lia.
Qed.

Lemma complete_task_without_kid_row_7 :
  let user := mkUser 7 "kid" 1 in
  let s := mkState [] [mkKid 8 1 40 1]
                   [mkTask 3 (Some 7) 30 "pending" 0] [] [] 0 0 [] in
  faults s = [] /\ type user = "kid"%string
  /\ selectPendingTask 3 (userId user) s = Some (mkTask 3 (Some 7) 30 "pending" 0)
  /\ selectKid (userId user) s = None
  /\ exists s',
       completeTask user 3 s
       = (Resolved (mkResponse 500 (CompleteError "Failed to complete task")), s')
       /\ selectPendingTask 3 (userId user) s' = None
       /\ kids s' = kids s.
Proof.
  cbv zeta.
  split; [reflexivity | split; [reflexivity | split; [reflexivity |
    split; [reflexivity |]]]].
  apply (complete_task_without_kid (mkUser 7 "kid" 1) 3 _
           (mkTask 3 (Some 7) 30 "pending" 0)); reflexivity.
Defined.

Import Database SeedFacts Http.

(** *** Reasoning about every schedule *)

(** [post m Q s]: the run of [m] from [s] settles with a result and a state
    that satisfy [Q]. *)
Definition post {A} (m : async A) (Q : settled A -> state -> Prop) (s : state)
  : Prop :=
  Q (fst (m s)) (snd (m s)).

Lemma post_ret {A} (a : A) (Q : settled A -> state -> Prop) s :
  Q (Resolved a) s -> post (ret a) Q s.
Proof. exact (fun H => H). Qed.

Lemma post_throw {A} e (Q : settled A -> state -> Prop) s :
  Q (Rejected e) s -> post (throw e) Q s.
Proof. exact (fun H => H). Qed.

Lemma post_bind {A B} (m : async A) (k : A -> async B) Q s :
  post m (fun r s' => match r with
                      | Resolved a => post (k a) Q s'
                      | Rejected e => Q (Rejected e) s'
                      end) s ->
  post (bind m k) Q s.
Proof.
  unfold post, bind. destruct (m s) as [[a | e] s']; cbn; auto.
Qed.

Lemma post_tryCatch {A} (m : async A) (handler : error -> async A) Q s :
  post m (fun r s' => match r with
                      | Resolved a => Q (Resolved a) s'
                      | Rejected e => post (handler e) Q s'
                      end) s ->
  post (tryCatch m handler) Q s.
Proof.
  unfold post, tryCatch. destruct (m s) as [[a | e] s']; cbn; auto.
Qed.

Lemma setFaults_same s : setFaults (faults s) s = s.
Proof. now destruct s. Qed.

(** A database call, whatever the schedule says: it rejects and changes
    nothing, or runs its statement. *)
Lemma post_dbCall {A} (statement : state -> A * state) Q s :
  (forall schedule, Q (Rejected DbError) (setFaults schedule s)) ->
  (forall schedule,
     Q (Resolved (fst (statement (setFaults schedule s))))
       (snd (statement (setFaults schedule s)))) ->
  post (dbCall statement) Q s.
Proof.
  intros Hrej Hres. unfold post, dbCall.
  destruct (faults s) as [| [|] schedule] eqn:Hs.
  - specialize (Hres (faults s)). rewrite setFaults_same in Hres.
    destruct (statement s); exact Hres.
  - apply Hrej.
  - specialize (Hres schedule). destruct (statement (setFaults schedule s)).
    exact Hres.
Qed.

Lemma post_run (statement : state -> state) Q s :
  (forall schedule, Q (Rejected DbError) (setFaults schedule s)) ->
  (forall schedule, Q (Resolved tt) (statement (setFaults schedule s))) ->
  post (run statement) Q s.
Proof. intros Hrej Hres. apply post_dbCall; assumption. Qed.

Lemma post_get {A} (query : state -> A) Q s :
  (forall schedule, Q (Rejected DbError) (setFaults schedule s)) ->
  (forall schedule,
     Q (Resolved (query (setFaults schedule s))) (setFaults schedule s)) ->
  post (get query) Q s.
Proof. intros Hrej Hres. apply post_dbCall; assumption. Qed.

(** *** Rows with a primary key *)

Lemma Forall2_map_row {A} (P : A -> A -> Prop) (update : A -> A) rows :
  (forall row, In row rows -> P row (update row)) ->
  Forall2 P rows (map update rows).
Proof.
  induction rows as [| row rest IH]; intros H; cbn; constructor.
  - apply H. now left.
  - apply IH. intros r Hr. apply H. now right.
Qed.

Lemma kid_row_unique (rows : list kid) (k1 k2 : kid) :
  NoDup (map kid_id rows) ->
  In k1 rows -> In k2 rows -> kid_id k1 = kid_id k2 -> k1 = k2.
Proof.
  induction rows as [| row rest IH]; intros Hnd H1 H2 Hid; [contradiction |].
  cbn in Hnd. inversion Hnd as [| ? ? Hnotin Hnd']; subst.
  destruct H1 as [-> | H1], H2 as [-> | H2]; auto.
  - exfalso. apply Hnotin. rewrite Hid. now apply in_map.
  - exfalso. apply Hnotin. rewrite <- Hid. now apply in_map.
Qed.

Lemma find_kid_row (rows : list kid) (id : Z) (k row : kid) :
  NoDup (map kid_id rows) ->
  find (fun k => kid_id k =? id) rows = Some k ->
  In row rows -> kid_id row = id -> row = k.
Proof.
  intros Hnd Hfind Hin Hid.
  apply find_some in Hfind. destruct Hfind as [Hin' Hid'].
  apply (kid_row_unique rows); auto. lia.
Qed.

(** *** What a completion can change, whatever rejects *)

Module TaskInvariant.
Import TaskRoutes TaskFacts.

Definition kidKept (kidId : Z) (before after : kid) : Prop :=
  kid_id after = kid_id before
  /\ kid_parent_id after = kid_parent_id before
  /\ kid_level before <= kid_level after
  /\ (kid_id before <> kidId -> after = before).

Definition taskKept (taskId : Z) (before after : task) : Prop :=
  task_id after = task_id before
  /\ task_kid_id after = task_kid_id before
  /\ task_points after = task_points before
  /\ (task_id before <> taskId -> after = before).

Definition kept (kidId taskId : Z) (s s' : state) : Prop :=
  Forall2 (kidKept kidId) (kids s) (kids s')
  /\ Forall2 (taskKept taskId) (tasks s) (tasks s')
  /\ rewards s' = rewards s
  /\ reward_redemptions s' = reward_redemptions s
  /\ parents s' = parents s.

Lemma kids_same kidId rows : Forall2 (kidKept kidId) rows rows.
Proof.
  rewrite <- (map_id rows) at 2. apply Forall2_map_row.
  intros row _. unfold kidKept. repeat split; lia.
Qed.

Lemma tasks_same taskId rows : Forall2 (taskKept taskId) rows rows.
Proof.
  rewrite <- (map_id rows) at 2. apply Forall2_map_row.
  intros row _. unfold taskKept. repeat split.
Qed.

Lemma tasks_marked taskId rows :
  Forall2 (taskKept taskId) rows
    (map (fun t => if task_id t =? taskId
                   then mkTask (task_id t) (task_kid_id t) (task_points t)
                               "completed" (task_is_recurring t)
                   else t) rows).
Proof.
  apply Forall2_map_row. intros t _. unfold taskKept.
  destruct (Z.eqb_spec (task_id t) taskId); cbn; repeat split; auto;
    intros; contradiction.
Qed.

Lemma kids_awarded kidId points rows :
  Forall2 (kidKept kidId) rows
    (map (fun k => if kid_id k =? kidId
                   then mkKid (kid_id k) (kid_parent_id k) (kid_points k + points)
                              (kid_level k)
                   else k) rows).
Proof.
  apply Forall2_map_row. intros k _. unfold kidKept.
  destruct (Z.eqb_spec (kid_id k) kidId); cbn; repeat split; auto; try lia;
    intros; contradiction.
Qed.

Lemma kids_raised kidId points level rows found :
  NoDup (map kid_id rows) ->
  find (fun k => kid_id k =? kidId)
       (map (fun k => if kid_id k =? kidId
                      then mkKid (kid_id k) (kid_parent_id k)
                                 (kid_points k + points) (kid_level k)
                      else k) rows) = Some found ->
  kid_level found < level ->
  Forall2 (kidKept kidId) rows
    (map (fun k => if kid_id k =? kidId
                   then mkKid (kid_id k) (kid_parent_id k) (kid_points k) level
                   else k)
         (map (fun k => if kid_id k =? kidId
                        then mkKid (kid_id k) (kid_parent_id k)
                                   (kid_points k + points) (kid_level k)
                        else k) rows)).
Proof.
  intros Hnd Hfind Hlevel. rewrite map_map.
  apply Forall2_map_row. intros k Hin. unfold kidKept.
  destruct (Z.eqb_spec (kid_id k) kidId) as [Heq | Hne]; cbn [kid_id].
  - rewrite Heq, Z.eqb_refl. cbn. repeat split; auto; try lia.
    rewrite find_map_same in Hfind
      by (intros k0; destruct (kid_id k0 =? kidId) eqn:E; cbn; auto).
    destruct (find (fun k0 => kid_id k0 =? kidId) rows) as [first |] eqn:Hfirst;
      [| discriminate].
    pose proof (find_kid_row rows kidId first k Hnd Hfirst Hin Heq) as ->.
    cbn in Hfind. apply find_some in Hfirst. destruct Hfirst as [_ Hid].
    rewrite Hid in Hfind. injection Hfind as <-. cbn in Hlevel. lia.
  - destruct (Z.eqb_spec (kid_id k) kidId); [contradiction |].
    repeat split; auto; lia.
Qed.

(** States are kept flat along a run: one record, not a tower of updates. *)
Ltac flatten :=
  unfold markCompleted, addPoints, setLevel, setKids, setTasks, setFaults;
  cbn [parents kids tasks rewards reward_redemptions rewards_seq
       reward_redemptions_seq faults].

Ltac settle :=
  unfold post, bind, tryCatch, ret, throw; cbn [fst snd];
  unfold kept; flatten;
  repeat split; auto using kids_same, tasks_same, kids_awarded, tasks_marked.

Lemma completeTask_kept user taskId s :
  NoDup (map kid_id (kids s)) ->
  post (completeTask user taskId)
       (fun _ s' => kept (userId user) taskId s s') s.
Proof.
  destruct s as [ps ks ts rs rds seq1 seq2 schedule].
  cbn [kids]. intros Hnd.
  unfold completeTask. apply post_tryCatch.
  destruct (negb (String.eqb (type user) "kid")); [settle |].
  apply post_bind, post_get; intros sch1; flatten; [settle |].
  match goal with
  | |- context [match ?found with Some _ => _ | None => _ end] =>
      destruct found as [t |]
  end; [| settle].
  apply post_bind, post_run; intros sch2; flatten; [settle |].
  apply post_bind, post_run; intros sch3; flatten; [settle |].
  apply post_bind, post_get; intros sch4; flatten; [settle |].
  match goal with
  | |- context [match ?found with Some _ => _ | None => _ end] =>
      destruct found as [k |] eqn:Hkid
  end; [| settle].
  cbv zeta.
  destruct (Z.gtb_spec (levelPer100 (kid_points k)) (kid_level k)) as [Hup | Hstay];
    [| settle].
  apply post_bind, post_run; intros sch5; flatten; [settle |].
  settle.
  apply (kids_raised _ _ _ _ k Hnd); [exact Hkid | lia].
Qed.

End TaskInvariant.

Import TaskRoutes TaskFacts TaskInvariant Server.

(** X17.  What a completion request that runs alone (no statement of
    another request between its own) can change, whatever the database
    rejects on the way and whatever the request is: with [id] a key of
    [kids], every kid keeps its id and parent and a level at least as high
    as in the state the request started from; rows of other kids are
    untouched; a task keeps its id, owner and points, and only the task of
    the request can change at all; rewards, redemptions and parents are
    untouched. *)
Theorem complete_task_keeps (user : user) (taskId : Z) (s : state) :
  NoDup (map kid_id (kids s)) ->
  let s' := snd (completeTask user taskId s) in
  Forall2 (fun before after =>
             kid_id after = kid_id before
             /\ kid_parent_id after = kid_parent_id before
             /\ kid_level before <= kid_level after
             /\ (kid_id before <> userId user -> after = before))
          (kids s) (kids s')
  /\ Forall2 (fun before after =>
                task_id after = task_id before
                /\ task_kid_id after = task_kid_id before
                /\ task_points after = task_points before
                /\ (task_id before <> taskId -> after = before))
             (tasks s) (tasks s')
  /\ rewards s' = rewards s
  /\ reward_redemptions s' = reward_redemptions s
  /\ parents s' = parents s.
Proof.
  intros Hnd. exact (completeTask_kept user taskId s Hnd).
Qed.

Lemma complete_task_keeps_under_rejection :
  let user := mkUser 7 "kid" 1 in
  let s := mkState [] [mkKid 7 1 90 1; mkKid 8 1 40 1]
                   [mkTask 3 (Some 7) 30 "pending" 0] [] [] 0 0
                   [false; false; true] in
  NoDup (map kid_id (kids s))
  /\ Forall2 (fun before after =>
                kid_id after = kid_id before
                /\ kid_parent_id after = kid_parent_id before
                /\ kid_level before <= kid_level after
                /\ (kid_id before <> userId user -> after = before))
             (kids s) (kids (snd (completeTask user 3 s)))
  /\ Forall2 (fun before after =>
                task_id after = task_id before
                /\ task_kid_id after = task_kid_id before
                /\ task_points after = task_points before
                /\ (task_id before <> 3 -> after = before))
             (tasks s) (tasks (snd (completeTask user 3 s)))
  /\ rewards (snd (completeTask user 3 s)) = rewards s
  /\ reward_redemptions (snd (completeTask user 3 s)) = reward_redemptions s
  /\ parents (snd (completeTask user 3 s)) = parents s.
Proof.
  cbv zeta. split.
  - cbn. repeat constructor; cbn; intuition discriminate.
  - apply (complete_task_keeps (mkUser 7 "kid" 1) 3).
    cbn. repeat constructor; cbn; intuition discriminate.
Defined.

(** The cumulative cost outgrows a hundred points per level. *)
Lemma required_above_100_per_level (k : nat) :
  100 * (6 + Z.of_nat k) <= getPointsRequiredForLevel (6 + Z.of_nat k).
Proof.
  induction k as [| k IH].
  - vm_compute. discriminate.
  - replace (6 + Z.of_nat (S k)) with (6 + Z.of_nat k + 1) by lia.
    rewrite required_next by lia.
    pose proof (levelUp_increasing (Z.to_nat (3 + Z.of_nat k)) 3 ltac:(lia)) as Hinc.
    replace (3 + Z.of_nat (Z.to_nat (3 + Z.of_nat k))) with (6 + Z.of_nat k)
      in Hinc by lia.
    replace (getPointsRequiredForLevelUp 3) with 112 in Hinc
      by (vm_compute; reflexivity).
    lia.
Qed.

(** X18.  The level that the completion route stores ("every 100 points")
    is not the level of the engine that the dashboards show.  For a total
    [>= 0] the two agree exactly on [0..49], [100..124], [200..236],
    [300..399] and [405..499]; from 500 points on the stored level is
    always the higher one. *)
Theorem level_rules_differ (points : Z) :
  0 <= points ->
  (levelPer100 points = calculateLevelFromPoints points
   <-> points < 50 \/ 100 <= points < 125 \/ 200 <= points < 237
       \/ 300 <= points < 400 \/ 405 <= points < 500)
  /\ (500 <= points -> calculateLevelFromPoints points < levelPer100 points).
Proof.
  intros Hpos. rewrite levelPer100_div.
  assert (Hlevel :
    (points < 50 /\ calculateLevelFromPoints points = 1)
    \/ (50 <= points < 125 /\ calculateLevelFromPoints points = 2)
    \/ (125 <= points < 237 /\ calculateLevelFromPoints points = 3)
    \/ (237 <= points < 405 /\ calculateLevelFromPoints points = 4)
    \/ (405 <= points < 658 /\ calculateLevelFromPoints points = 5)
    \/ (658 <= points /\ 100 * calculateLevelFromPoints points <= points)).
  { assert (C1 : getPointsRequiredForLevel 1 = 0) by (vm_compute; reflexivity).
    assert (C2 : getPointsRequiredForLevel 2 = 50) by (vm_compute; reflexivity).
    assert (C3 : getPointsRequiredForLevel 3 = 125) by (vm_compute; reflexivity).
    assert (C4 : getPointsRequiredForLevel 4 = 237) by (vm_compute; reflexivity).
    assert (C5 : getPointsRequiredForLevel 5 = 405) by (vm_compute; reflexivity).
    assert (C6 : getPointsRequiredForLevel 6 = 658) by (vm_compute; reflexivity).
    destruct (Z_lt_ge_dec points 50);
      [left; split; [lia | apply level_unique; cbn [Z.add Pos.add Pos.succ]; lia] |].
    destruct (Z_lt_ge_dec points 125);
      [right; left; split;
         [lia | apply level_unique; cbn [Z.add Pos.add Pos.succ]; lia] |].
    destruct (Z_lt_ge_dec points 237);
      [right; right; left; split;
         [lia | apply level_unique; cbn [Z.add Pos.add Pos.succ]; lia] |].
    destruct (Z_lt_ge_dec points 405);
      [right; right; right; left; split;
         [lia | apply level_unique; cbn [Z.add Pos.add Pos.succ]; lia] |].
    destruct (Z_lt_ge_dec points 658);
      [right; right; right; right; left; split;
         [lia | apply level_unique; cbn [Z.add Pos.add Pos.succ]; lia] |].
    right; right; right; right; right. split; [lia |].
    destruct (level_bracket points Hpos) as (_ & Hlo & _).
    assert (H6 : 6 <= calculateLevelFromPoints points).
    { apply level_reached; [lia | assumption]. }
    pose proof (required_above_100_per_level
                  (Z.to_nat (calculateLevelFromPoints points - 6))) as H.
    replace (6 + Z.of_nat (Z.to_nat (calculateLevelFromPoints points - 6)))
      with (calculateLevelFromPoints points) in H by lia.
    lia. }
  destruct Hlevel as [[H L] | [[H L] | [[H L] | [[H L] | [[H L] | [H L]]]]]];
    try rewrite L; split; try split; intros; Z.div_mod_to_equations; lia.
Qed.

Lemma level_rules_differ_at_60 :
  0 <= 60
  /\ (levelPer100 60 = calculateLevelFromPoints 60
      <-> 60 < 50 \/ 100 <= 60 < 125 \/ 200 <= 60 < 237
          \/ 300 <= 60 < 400 \/ 405 <= 60 < 500)
  /\ (500 <= 60 -> calculateLevelFromPoints 60 < levelPer100 60).
Proof.
  split; [lia | apply (level_rules_differ 60); lia].
Defined.

Import Database SeedFacts Http.

Module RewardFacts.
Import RewardRoutes.

Lemma selectKid_deductPoints points kidId other s :
  selectKid other (deductPoints points kidId s)
  = option_map (fun k => if kid_id k =? kidId
                         then mkKid (kid_id k) (kid_parent_id k)
                                    (kid_points k - points) (kid_level k)
                         else k)
               (selectKid other s).
Proof.
  unfold selectKid, deductPoints, setKids; cbn [kids].
  apply find_map_same. intros k.
  destruct (kid_id k =? kidId) eqn:E; cbn; auto.
Qed.

Lemma selectKid_of_token kidId s k : selectKid kidId s = Some k -> kid_id k = kidId.
Proof.
  unfold selectKid. intros H. apply find_some in H. lia.
Qed.

Definition kidCharged (kidId : Z) (before after : kid) : Prop :=
  kid_id after = kid_id before
  /\ kid_parent_id after = kid_parent_id before
  /\ kid_level after = kid_level before
  /\ (0 <= kid_points before -> 0 <= kid_points after)
  /\ (kid_id before <> kidId -> after = before).

Definition charged (kidId : Z) (s s' : state) : Prop :=
  Forall2 (kidCharged kidId) (kids s) (kids s')
  /\ (reward_redemptions s' = reward_redemptions s
      \/ exists row, reward_redemptions s' = reward_redemptions s ++ [row]
                     /\ redemption_kid_id row = kidId)
  /\ rewards s' = rewards s
  /\ tasks s' = tasks s
  /\ parents s' = parents s.

Lemma kids_untouched kidId rows : Forall2 (kidCharged kidId) rows rows.
Proof.
  rewrite <- (map_id rows) at 2. apply Forall2_map_row.
  intros row _. unfold kidCharged. repeat split; auto; lia.
Qed.

Lemma kids_charged kidId cost rows found :
  NoDup (map kid_id rows) ->
  find (fun k => kid_id k =? kidId) rows = Some found ->
  cost <= kid_points found ->
  Forall2 (kidCharged kidId) rows
    (map (fun k => if kid_id k =? kidId
                   then mkKid (kid_id k) (kid_parent_id k) (kid_points k - cost)
                              (kid_level k)
                   else k) rows).
Proof.
  intros Hnd Hfind Hle.
  apply Forall2_map_row. intros k Hin. unfold kidCharged.
  destruct (Z.eqb_spec (kid_id k) kidId) as [Heq | Hne]; cbn.
  - pose proof (find_kid_row rows kidId found k Hnd Hfind Hin Heq) as ->.
    repeat split; auto; try lia; intros; contradiction.
  - repeat split; auto; lia.
Qed.


Ltac flatten :=
  unfold deductPoints, insertRedemption, setKids, setTasks, setFaults;
  cbn [parents kids tasks rewards reward_redemptions rewards_seq
       reward_redemptions_seq faults].

Ltac settle :=
  unfold post, bind, tryCatch, ret, throw; cbn [fst snd];
  unfold charged; flatten;
  repeat split; auto using kids_untouched.

Lemma redeemReward_charged user rewardId s :
  NoDup (map kid_id (kids s)) ->
  post (redeemReward user rewardId)
       (fun _ s' => charged (userId user) s s') s.
Proof.
  destruct s as [ps ks ts rs rds seq1 seq2 schedule].
  cbn [kids]. intros Hnd.
  unfold redeemReward. apply post_tryCatch.
  destruct (negb (String.eqb (type user) "kid")); [settle |].
  apply post_bind, post_get; intros sch1; flatten; [settle |].
  match goal with
  | |- context [match ?found with Some _ => _ | None => _ end] =>
      destruct found as [r |]
  end; [| settle].
  apply post_bind, post_get; intros sch2; flatten; [settle |].
  match goal with
  | |- context [match ?found with Some _ => _ | None => _ end] =>
      destruct found as [k |] eqn:Hkid
  end; [| settle].
  destruct (Z.ltb_spec (kid_points k) (reward_points_cost r)) as [Hpoor | Hrich];
    [settle |].
  assert (Hkids : Forall2 (kidCharged (userId user)) ks
            (map (fun k0 => if kid_id k0 =? userId user
                            then mkKid (kid_id k0) (kid_parent_id k0)
                                       (kid_points k0 - reward_points_cost r)
                                       (kid_level k0)
                            else k0) ks)).
  { apply (kids_charged _ _ _ k Hnd); [exact Hkid | assumption]. }
  apply post_bind, post_run; intros sch3; flatten; [settle |].
  apply post_bind, post_run; intros sch4; flatten; [settle |].
  apply post_bind, post_get; intros sch5; flatten.
  - settle. right. eexists. split; reflexivity.
  - match goal with
    | |- context [match ?found with Some _ => _ | None => _ end] =>
        destruct found as [k' |]
    end; settle; right; eexists; split; reflexivity.
Qed.

Lemma redeemReward_succeeds user rewardId s r k :
  faults s = [] ->
  type user = "kid"%string ->
  selectActiveReward rewardId (parentId user) s = Some r ->
  selectKid (userId user) s = Some k ->
  reward_points_cost r <= kid_points k ->
  redeemReward user rewardId s
  = (Resolved
       (mkResponse 200
          (Redeemed "Reward redeemed successfully!" (reward_title r)
                    (reward_description r) (reward_points_cost r)
                    (kid_points k - reward_points_cost r))),
     insertRedemption (userId user) rewardId
       (deductPoints (reward_points_cost r) (userId user) s)).
Proof.
  intros Hs Htype Hreward Hkid Hle.
  pose proof (selectKid_of_token _ _ _ Hkid) as Hid.
  unfold redeemReward, tryCatch, bind.
  rewrite Htype. cbn [String.eqb Ascii.eqb Bool.eqb negb].
  rewrite get_succeeds by assumption. rewrite Hreward.
  rewrite get_succeeds by assumption. rewrite Hkid.
  destruct (Z.ltb_spec (kid_points k) (reward_points_cost r)); [lia |].
  rewrite run_succeeds by assumption.
  rewrite run_succeeds by (cbn; assumption).
  rewrite get_succeeds by (cbn; assumption).
  change (selectKid (userId user)
            (insertRedemption (userId user) rewardId
               (deductPoints (reward_points_cost r) (userId user) s)))
    with (selectKid (userId user)
            (deductPoints (reward_points_cost r) (userId user) s)).
  rewrite selectKid_deductPoints, Hkid. cbn [option_map].
  rewrite Hid, Z.eqb_refl. reflexivity.
Qed.

Lemma redeem_refusal user rewardId s r k :
  faults s = [] ->
  type user = "kid"%string ->
  selectActiveReward rewardId (parentId user) s = Some r ->
  selectKid (userId user) s = Some k ->
  kid_points k < reward_points_cost r ->
  redeemReward user rewardId s
  = (Resolved
       (mkResponse 400
          (NotEnough "Not enough points" (reward_points_cost r) (kid_points k))),
     s).
Proof.
  intros Hs Htype Hreward Hkid Hlt.
  unfold redeemReward, tryCatch, bind.
  rewrite Htype. cbn [String.eqb Ascii.eqb Bool.eqb negb].
  rewrite get_succeeds by assumption. rewrite Hreward.
  rewrite get_succeeds by assumption. rewrite Hkid.
  destruct (Z.ltb_spec (kid_points k) (reward_points_cost r)); [reflexivity | lia].
Qed.

End RewardFacts.

Import RewardRoutes RewardFacts Server.

(** X19.  Redeeming an active reward of the kid's parent, when no database
    call rejects and the kid has at least its cost: the response is 200 with
    [remainingPoints] the old points minus the cost, which is not negative;
    the kid's row is charged exactly the cost and keeps its level; one
    pending redemption for this kid and reward is appended; rows of other
    kids are read as before. *)
Theorem redeem_reward_charges (user : user) (rewardId : Z) (s : state)
  (r : reward) (k : kid) :
  faults s = [] ->
  type user = "kid"%string ->
  selectActiveReward rewardId (parentId user) s = Some r ->
  selectKid (userId user) s = Some k ->
  reward_points_cost r <= kid_points k ->
  exists s',
    redeemReward user rewardId s
    = (Resolved
         (mkResponse 200
            (Redeemed "Reward redeemed successfully!" (reward_title r)
                      (reward_description r) (reward_points_cost r)
                      (kid_points k - reward_points_cost r))),
       s')
    /\ 0 <= kid_points k - reward_points_cost r
    /\ selectKid (userId user) s'
       = Some (mkKid (kid_id k) (kid_parent_id k)
                     (kid_points k - reward_points_cost r) (kid_level k))
    /\ reward_redemptions s'
       = reward_redemptions s
         ++ [mkRedemption (reward_redemptions_seq s + 1) (userId user) rewardId
                          "pending"]
    /\ forall other, other <> userId user ->
         selectKid other s' = selectKid other s.
Proof.
  intros Hs Htype Hreward Hkid Hle.
  pose proof (selectKid_of_token _ _ _ Hkid) as Hid.
  eexists. split; [apply (redeemReward_succeeds user rewardId s r k); assumption |].
  split; [lia |]. split; [| split; [reflexivity |]].
  - change (selectKid (userId user)
              (insertRedemption (userId user) rewardId
                 (deductPoints (reward_points_cost r) (userId user) s)))
      with (selectKid (userId user)
              (deductPoints (reward_points_cost r) (userId user) s)).
    rewrite selectKid_deductPoints, Hkid. cbn [option_map].
    now rewrite Hid, Z.eqb_refl.
  - intros other Hother.
    change (selectKid other
              (insertRedemption (userId user) rewardId
                 (deductPoints (reward_points_cost r) (userId user) s)))
      with (selectKid other
              (deductPoints (reward_points_cost r) (userId user) s)).
    rewrite selectKid_deductPoints.
    destruct (selectKid other s) as [k0 |] eqn:Hk0; [| reflexivity].
    cbn. rewrite (selectKid_of_token _ _ _ Hk0).
    destruct (Z.eqb_spec other (userId user)); [contradiction | reflexivity].
Qed.

Lemma redeem_reward_charges_25_of_90 :
  let user := mkUser 7 "kid" 1 in
  let s := mkState [] [mkKid 7 1 90 1; mkKid 8 1 40 1] []
                   [mkReward 5 1 "Snack" None 25 1] [] 5 0 [] in
  let r := mkReward 5 1 "Snack" None 25 1 in
  let k := mkKid 7 1 90 1 in
  faults s = [] /\ type user = "kid"%string
  /\ selectActiveReward 5 (parentId user) s = Some r
  /\ selectKid (userId user) s = Some k
  /\ reward_points_cost r <= kid_points k
  /\ exists s',
       redeemReward user 5 s
       = (Resolved
            (mkResponse 200
               (Redeemed "Reward redeemed successfully!" (reward_title r)
                         (reward_description r) (reward_points_cost r)
                         (kid_points k - reward_points_cost r))),
          s')
       /\ 0 <= kid_points k - reward_points_cost r
       /\ selectKid (userId user) s'
          = Some (mkKid (kid_id k) (kid_parent_id k)
                        (kid_points k - reward_points_cost r) (kid_level k))
       /\ reward_redemptions s'
          = reward_redemptions s
            ++ [mkRedemption (reward_redemptions_seq s + 1) (userId user) 5
                             "pending"]
       /\ forall other, other <> userId user ->
            selectKid other s' = selectKid other s.
Proof.
  cbv zeta.
  split; [reflexivity | split; [reflexivity | split; [reflexivity |
    split; [reflexivity | split; [cbn; lia |]]]]].
  apply (redeem_reward_charges (mkUser 7 "kid" 1) 5 _ _ _);
    try reflexivity. cbn; lia.
Defined.

(** X20.  A kid with fewer points than the cost is refused: the response is
    400 with the cost as [required] and the kid's points as [available],
    and the database is left as it is. *)
Theorem redeem_reward_refused (user : user) (rewardId : Z) (s : state)
  (r : reward) (k : kid) :
  faults s = [] ->
  type user = "kid"%string ->
  selectActiveReward rewardId (parentId user) s = Some r ->
  selectKid (userId user) s = Some k ->
  kid_points k < reward_points_cost r ->
  redeemReward user rewardId s
  = (Resolved
       (mkResponse 400
          (NotEnough "Not enough points" (reward_points_cost r) (kid_points k))),
     s).
Proof.
  apply redeem_refusal.
Qed.

Lemma redeem_reward_refused_25_of_10 :
  let user := mkUser 7 "kid" 1 in
  let s := mkState [] [mkKid 7 1 10 1] []
                   [mkReward 5 1 "Snack" None 25 1] [] 5 0 [] in
  faults s = [] /\ type user = "kid"%string
  /\ selectActiveReward 5 (parentId user) s = Some (mkReward 5 1 "Snack" None 25 1)
  /\ selectKid (userId user) s = Some (mkKid 7 1 10 1)
  /\ 10 < 25
  /\ redeemReward user 5 s
     = (Resolved (mkResponse 400 (NotEnough "Not enough points" 25 10)), s).
Proof.
  cbv zeta.
  split; [reflexivity | split; [reflexivity | split; [reflexivity |
    split; [reflexivity | split; [lia |]]]]].
  apply (redeem_reward_refused (mkUser 7 "kid" 1) 5 _
           (mkReward 5 1 "Snack" None 25 1) (mkKid 7 1 10 1));
    try reflexivity.
Defined.

(** X21.  What a redemption request that runs alone (no statement of
    another request between its own) can change, whatever the database
    rejects on the way and whatever the request is: with [id] a key of
    [kids], no balance that was not negative when the request started is
    negative when it ends; every kid keeps its id, parent and stored level;
    rows of other kids are untouched; at most one redemption is appended,
    and it is one of this kid; rewards, tasks and parents are untouched. *)
Theorem redeem_reward_keeps (user : user) (rewardId : Z) (s : state) :
  NoDup (map kid_id (kids s)) ->
  let s' := snd (redeemReward user rewardId s) in
  Forall2 (fun before after =>
             kid_id after = kid_id before
             /\ kid_parent_id after = kid_parent_id before
             /\ kid_level after = kid_level before
             /\ (0 <= kid_points before -> 0 <= kid_points after)
             /\ (kid_id before <> userId user -> after = before))
          (kids s) (kids s')
  /\ (reward_redemptions s' = reward_redemptions s
      \/ exists row,
           reward_redemptions s' = reward_redemptions s ++ [row]
           /\ redemption_kid_id row = userId user)
  /\ rewards s' = rewards s
  /\ tasks s' = tasks s
  /\ parents s' = parents s.
Proof.
  intros Hnd. exact (redeemReward_charged user rewardId s Hnd).
Qed.

Lemma redeem_reward_keeps_under_rejection :
  let user := mkUser 7 "kid" 1 in
  let s := mkState [] [mkKid 7 1 90 1; mkKid 8 1 40 1] []
                   [mkReward 5 1 "Snack" None 25 1] [] 5 0
                   [false; false; false; true] in
  let s' := snd (redeemReward user 5 s) in
  NoDup (map kid_id (kids s))
  /\ Forall2 (fun before after =>
                kid_id after = kid_id before
                /\ kid_parent_id after = kid_parent_id before
                /\ kid_level after = kid_level before
                /\ (0 <= kid_points before -> 0 <= kid_points after)
                /\ (kid_id before <> userId user -> after = before))
             (kids s) (kids s')
  /\ (reward_redemptions s' = reward_redemptions s
      \/ exists row,
           reward_redemptions s' = reward_redemptions s ++ [row]
           /\ redemption_kid_id row = userId user)
  /\ rewards s' = rewards s
  /\ tasks s' = tasks s
  /\ parents s' = parents s.
Proof.
  cbv zeta. split.
  - cbn. repeat constructor; cbn; intuition discriminate.
  - apply (redeem_reward_keeps (mkUser 7 "kid" 1) 5).
    cbn. repeat constructor; cbn; intuition discriminate.
Defined.

(** X22.  The redemption is not atomic.  If the insert of the redemption
    rejects after the points were deducted, the request answers 500, the
    kid has paid the cost, and there is no redemption to show for it. *)
Theorem redeem_reward_interrupted (user : user) (rewardId : Z) (s : state)
  (r : reward) (k : kid) :
  faults s = [false; false; false; true] ->
  type user = "kid"%string ->
  selectActiveReward rewardId (parentId user) s = Some r ->
  selectKid (userId user) s = Some k ->
  reward_points_cost r <= kid_points k ->
  exists s',
    redeemReward user rewardId s
    = (Resolved (mkResponse 500 (RedeemError "Failed to redeem reward")), s')
    /\ selectKid (userId user) s'
       = Some (mkKid (kid_id k) (kid_parent_id k)
                     (kid_points k - reward_points_cost r) (kid_level k))
    /\ reward_redemptions s' = reward_redemptions s.
Proof.
  intros Hs Htype Hreward Hkid Hle.
  pose proof (selectKid_of_token _ _ _ Hkid) as Hid.
  exists (setFaults [] (deductPoints (reward_points_cost r) (userId user) s)).
  split; [| split; [| reflexivity]].
  - unfold redeemReward, tryCatch, bind.
    rewrite Htype. cbn [String.eqb Ascii.eqb Bool.eqb negb].
    rewrite (get_scheduled _ _ _ Hs).
    change (selectActiveReward rewardId (parentId user)
              (setFaults [false; false; true] s))
      with (selectActiveReward rewardId (parentId user) s).
    rewrite Hreward.
    rewrite (get_scheduled _ (setFaults [false; false; true] s) [false; true])
      by reflexivity.
    change (selectKid (userId user) (setFaults [false; true] _))
      with (selectKid (userId user) s).
    rewrite Hkid.
    destruct (Z.ltb_spec (kid_points k) (reward_points_cost r)); [lia |].
    rewrite (run_scheduled _ _ [true]) by reflexivity.
    rewrite (run_rejects _ _ []) by reflexivity.
    reflexivity.
  - change (selectKid (userId user)
              (setFaults [] (deductPoints (reward_points_cost r) (userId user) s)))
      with (selectKid (userId user)
              (deductPoints (reward_points_cost r) (userId user) s)).
    rewrite selectKid_deductPoints, Hkid. cbn [option_map].
    now rewrite Hid, Z.eqb_refl.
Qed.

Lemma redeem_reward_interrupted_25_of_90 :
  let user := mkUser 7 "kid" 1 in
  let s := mkState [] [mkKid 7 1 90 1] []
                   [mkReward 5 1 "Snack" None 25 1] [] 5 0
                   [false; false; false; true] in
  let r := mkReward 5 1 "Snack" None 25 1 in
  let k := mkKid 7 1 90 1 in
  faults s = [false; false; false; true] /\ type user = "kid"%string
  /\ selectActiveReward 5 (parentId user) s = Some r
  /\ selectKid (userId user) s = Some k
  /\ reward_points_cost r <= kid_points k
  /\ exists s',
       redeemReward user 5 s
       = (Resolved (mkResponse 500 (RedeemError "Failed to redeem reward")), s')
       /\ selectKid (userId user) s'
          = Some (mkKid (kid_id k) (kid_parent_id k)
                        (kid_points k - reward_points_cost r) (kid_level k))
       /\ reward_redemptions s' = reward_redemptions s.
Proof.
  cbv zeta.
  split; [reflexivity | split; [reflexivity | split; [reflexivity |
    split; [reflexivity | split; [cbn; lia |]]]]].
  apply (redeem_reward_interrupted (mkUser 7 "kid" 1) 5 _ _ _);
    try reflexivity. cbn; lia.
Defined.

(** *** The list of rewards against the redemption *)

Lemma In_insertByCost row x sorted :
  In x (insertByCost row sorted) <-> x = row \/ In x sorted.
Proof.
  induction sorted as [| first rest IH]; cbn.
  - intuition.
  - destruct (reward_points_cost row <=? reward_points_cost first); cbn;
      rewrite ?IH; intuition.
Qed.

(** Rows of one cost come out in the order they are stored in. *)
Lemma orderByCost_equal_costs cost rows :
  Forall (fun row => reward_points_cost row = cost) rows ->
  orderByCost rows = rows.
Proof.
  induction 1 as [| row rest Hrow Hrest IH]; [reflexivity |].
  cbn [orderByCost fold_right]. fold (orderByCost rest). rewrite IH.
  destruct Hrest as [| next rest' Hnext Hrest']; [reflexivity |].
  cbn [insertByCost]. rewrite Hrow, Hnext, Z.leb_refl. reflexivity.
Qed.

Lemma In_orderByCost x rows : In x (orderByCost rows) <-> In x rows.
Proof.
  induction rows as [| row rest IH]; cbn; [reflexivity |].
  rewrite In_insertByCost, IH. intuition.
Qed.

Lemma find_reward_row (rows : list reward) (test : reward -> bool) (r : reward) :
  NoDup (map reward_id rows) ->
  (forall row, test row = true -> reward_id row = reward_id r) ->
  In r rows -> test r = true ->
  find test rows = Some r.
Proof.
  induction rows as [| row rest IH]; intros Hnd Hid Hin Htest; [contradiction |].
  cbn in Hnd. inversion Hnd as [| ? ? Hnotin Hnd']; subst.
  cbn. destruct (test row) eqn:Hrow.
  - destruct Hin as [-> | Hin]; [reflexivity |].
    exfalso. apply Hnotin. rewrite (Hid row Hrow). now apply in_map.
  - destruct Hin as [-> | Hin]; [congruence |]. now apply IH.
Qed.

(** X23.  The flag of the list agrees with the redemption.  When no
    database call rejects, [id] is a key of [rewards] and the kid's row
    exists, the list answers 200 with exactly the active rewards of the
    kid's parent and the kid's points; redeeming a listed reward from the
    same state answers 200 if its [canAfford] is true and 400 if it is
    false. *)
Theorem affordable_is_redeemable (user : user) (s : state) (k : kid) :
  faults s = [] ->
  type user = "kid"%string ->
  NoDup (map reward_id (rewards s)) ->
  selectKid (userId user) s = Some k ->
  exists listing,
    getKidRewards user s
    = (Resolved (mkResponse 200 (Listed listing (kid_points k))), s)
    /\ (forall r, In r (map listed listing)
                  <-> In r (rewards s) /\ reward_parent_id r = parentId user
                      /\ reward_is_active r = 1)
    /\ forall item, In item listing ->
         exists answer s',
           redeemReward user (reward_id (listed item)) s = (Resolved answer, s')
           /\ status answer = if canAfford item then 200 else 400.
Proof.
  intros Hs Htype Hnd Hkid.
  set (active := selectActiveRewards (parentId user) s).
  exists (map (fun reward =>
                 mkListedReward reward (kid_points k >=? reward_points_cost reward))
              active).
  assert (Hactive : forall r, In r active
            <-> In r (rewards s) /\ reward_parent_id r = parentId user
                /\ reward_is_active r = 1).
  { intros r. unfold active, selectActiveRewards.
    rewrite In_orderByCost, filter_In. intuition lia. }
  split; [| split].
  - unfold getKidRewards, tryCatch, bind, all.
    rewrite Htype. cbn [String.eqb Ascii.eqb Bool.eqb negb].
    fold (@get (list reward) (selectActiveRewards (parentId user))).
    rewrite get_succeeds by assumption.
    rewrite get_succeeds by assumption. rewrite Hkid. reflexivity.
  - intros r. rewrite map_map. cbn [listed]. rewrite map_id. apply Hactive.
  - intros item Hitem. apply in_map_iff in Hitem.
    destruct Hitem as (r & <- & Hr). cbn [listed canAfford].
    apply Hactive in Hr. destruct Hr as (Hin & Hparent & Hon).
    assert (Hfind : selectActiveReward (reward_id r) (parentId user) s = Some r).
    { unfold selectActiveReward. apply find_reward_row; auto.
      - intros row Hrow. lia.
      - rewrite Hparent, Hon, !Z.eqb_refl. reflexivity. }
    destruct (Z.geb_spec (kid_points k) (reward_points_cost r)) as [Hcan | Hnot].
    + eexists; eexists. split;
        [apply (redeemReward_succeeds user _ s r k); auto; lia | reflexivity].
    + eexists; eexists. split;
        [apply (redeem_refusal user _ s r k); auto; lia | reflexivity].
Qed.

Lemma affordable_is_redeemable_30_points :
  let user := mkUser 7 "kid" 1 in
  let s := mkState [] [mkKid 7 1 30 1] []
                   [mkReward 5 1 "Snack" None 25 1; mkReward 6 1 "Movie" None 80 1]
                   [] 6 0 [] in
  let k := mkKid 7 1 30 1 in
  faults s = [] /\ type user = "kid"%string
  /\ NoDup (map reward_id (rewards s))
  /\ selectKid (userId user) s = Some k
  /\ exists listing,
       getKidRewards user s
       = (Resolved (mkResponse 200 (Listed listing (kid_points k))), s)
       /\ (forall r, In r (map listed listing)
                     <-> In r (rewards s) /\ reward_parent_id r = parentId user
                         /\ reward_is_active r = 1)
       /\ forall item, In item listing ->
            exists answer s',
              redeemReward user (reward_id (listed item)) s = (Resolved answer, s')
              /\ status answer = if canAfford item then 200 else 400.
Proof.
  cbv zeta.
  split; [reflexivity | split; [reflexivity | split; [| split; [reflexivity |]]]].
  - cbn [map rewards reward_id].
    constructor; [cbn [In]; intros [H | []]; discriminate |].
    constructor; [intros [] | constructor].
  - apply (affordable_is_redeemable (mkUser 7 "kid" 1) _ (mkKid 7 1 30 1));
      try reflexivity.
    cbn [map rewards reward_id].
    constructor; [cbn [In]; intros [H | []]; discriminate |].
    constructor; [intros [] | constructor].
Defined.

(** * Properties of the kid routes *)

Module KidFacts.
Import KidRoutes.

Lemma round_percent (count total : Z) :
  0 < total ->
  round ((inject_Z count / inject_Z total) * inject_Z 100)
  = (200 * count + total) / (2 * total).
Proof.
  intros Htotal. unfold round. rewrite Zdiv_Qdiv. apply Qfloor_comp.
  rewrite !inject_Z_plus, !inject_Z_mult.
  field. intros H. change 0%Q with (inject_Z 0) in H.
  rewrite inject_Z_injective in H. lia.
Qed.




Lemma flag_true (flag : bool) : flag = true <-> Z.b2z flag = 1.
Proof. destruct flag; cbn; split; intros; congruence || lia. Qed.

Lemma flag_range (flag : bool) : 0 <= Z.b2z flag <= 1.
Proof. destruct flag; cbn; lia. Qed.

End KidFacts.

Import KidRoutes KidFacts.

(** X24.  The achievements, for any row of aggregates and any stored
    level: the progress of each never exceeds what it requires, and it is
    unlocked exactly when the progress has reached that; the summary counts
    6 achievements, and its rate, between 0 and 100, is 100 exactly when
    all six are unlocked. *)
Theorem achievements_progress (s : stats) (kidLevel : Z) :
  Forall (fun a => progress a <= required a
                   /\ (unlocked a = true <-> progress a = required a))
         (achievements s kidLevel)
  /\ totalAchievements (achievementSummary (achievements s kidLevel)) = 6
  /\ 0 <= unlockedAchievements (achievementSummary (achievements s kidLevel)) <= 6
  /\ 0 <= completionRate (achievementSummary (achievements s kidLevel)) <= 100
  /\ (completionRate (achievementSummary (achievements s kidLevel)) = 100
      <-> Forall (fun a => unlocked a = true) (achievements s kidLevel)).
Proof.
  split.
  - unfold achievements, min.
    repeat (apply Forall_cons; [cbn [progress required unlocked]; lia |]).
    apply Forall_nil.
  - unfold achievementSummary, achievements.
    cbn [List.length totalAchievements unlockedAchievements completionRate].
    generalize (toNumber (completed_tasks s) >=? 1) as b1,
               (toNumber (completed_tasks s) >=? 10) as b2,
               (toNumber (total_points_earned s) >=? 100) as b3,
               (kidLevel >=? 2) as b4,
               (unique_days_with_tasks s >=? 5) as b5,
               (toNumber (total_points_earned s) >=? 500) as b6.
    intros b1 b2 b3 b4 b5 b6.
    rewrite round_percent by (cbn; lia).
    rewrite !Forall_cons_iff, Forall_nil_iff. cbn [unlocked].
    match goal with
    | |- context [Z.of_nat (List.length (filter unlocked ?l))] =>
        assert (Hcount : Z.of_nat (List.length (filter unlocked l))
                         = Z.b2z b1 + Z.b2z b2 + Z.b2z b3 + Z.b2z b4
                           + Z.b2z b5 + Z.b2z b6)
          by (destruct b1, b2, b3, b4, b5, b6; reflexivity);
        rewrite Hcount; clear Hcount
    end.
    rewrite !flag_true.
    pose proof (flag_range b1). pose proof (flag_range b2).
    pose proof (flag_range b3). pose proof (flag_range b4).
    pose proof (flag_range b5). pose proof (flag_range b6).
    change (Z.of_nat 6) with 6.
    generalize dependent (Z.b2z b1). generalize dependent (Z.b2z b2).
    generalize dependent (Z.b2z b3). generalize dependent (Z.b2z b4).
    generalize dependent (Z.b2z b5). generalize dependent (Z.b2z b6).
    intros. split; [reflexivity |].
    repeat split; try (Z.div_mod_to_equations; lia).
Qed.

(** X25.  Achievements only come, never go, as the aggregates and the
    stored level grow, and the harder ones imply the easier: "Task Master"
    implies "First Steps" and "High Scorer" implies "Point Collector".  With
    no completed task at all (the sums are [NULL]) only "Level Up!" can be
    unlocked. *)
Theorem achievements_grow (s s' : stats) (kidLevel kidLevel' : Z) :
  toNumber (completed_tasks s) <= toNumber (completed_tasks s') ->
  toNumber (total_points_earned s) <= toNumber (total_points_earned s') ->
  unique_days_with_tasks s <= unique_days_with_tasks s' ->
  kidLevel <= kidLevel' ->
  Forall2 (fun before after =>
             id after = id before
             /\ required after = required before
             /\ progress before <= progress after
             /\ (unlocked before = true -> unlocked after = true))
          (achievements s kidLevel) (achievements s' kidLevel')
  /\ (forall a b, In a (achievements s kidLevel) -> In b (achievements s kidLevel) ->
        (id a = "task_master" /\ id b = "first_task"
         \/ id a = "high_scorer" /\ id b = "point_collector")%string ->
        unlocked a = true -> unlocked b = true)
  /\ (completed_tasks s = None -> total_points_earned s = None ->
      unique_days_with_tasks s = 0 ->
      forall a, In a (achievements s kidLevel) -> unlocked a = true ->
                id a = "level_up"%string).
Proof.
  intros Htasks Hpoints Hdays Hlevel.
  split; [| split].
  - unfold achievements, min.
    repeat (apply Forall2_cons;
            [cbn [id required progress unlocked]; repeat split; lia |]).
    apply Forall2_nil.
  - intros a b Ha Hb Hids Hun.
    unfold achievements in Ha, Hb. cbn [In] in Ha, Hb.
    destruct Hids as [[Hida Hidb] | [Hida Hidb]];
      repeat match goal with
             | H : _ \/ _ |- _ => destruct H as [H | H]
             | H : False |- _ => contradiction
             end;
      subst a b; cbn [id unlocked] in *; try discriminate; lia.
  - intros Hnone1 Hnone2 Hnone3 a Ha Hun.
    unfold achievements in Ha. rewrite Hnone1, Hnone2, Hnone3 in Ha.
    cbn [In toNumber] in Ha.
    repeat match goal with
           | H : _ \/ _ |- _ => destruct H as [H | H]
           | H : False |- _ => contradiction
           end;
      subst a; cbn [id unlocked] in *; try reflexivity;
      vm_compute in Hun; discriminate.
Qed.

Lemma achievements_grow_after_a_task :
  let s := mkStats 3 (Some 9) (Some 90) 2 in
  let s' := mkStats 4 (Some 10) (Some 120) 3 in
  toNumber (completed_tasks s) <= toNumber (completed_tasks s')
  /\ toNumber (total_points_earned s) <= toNumber (total_points_earned s')
  /\ unique_days_with_tasks s <= unique_days_with_tasks s'
  /\ 1 <= 2
  /\ Forall2 (fun before after =>
                id after = id before
                /\ required after = required before
                /\ progress before <= progress after
                /\ (unlocked before = true -> unlocked after = true))
             (achievements s 1) (achievements s' 2).
Proof.
  cbv zeta.
  split; [cbn; lia | split; [cbn; lia | split; [cbn; lia | split; [lia |]]]].
  apply (achievements_grow (mkStats 3 (Some 9) (Some 90) 2)
                           (mkStats 4 (Some 10) (Some 120) 3) 1 2);
    cbn; lia.
Defined.



Module PageFacts.
Import KidRoutes.

Lemma ceil_div (count limit : Z) :
  0 < limit ->
  ceil (inject_Z count / inject_Z limit) = (count + limit - 1) / limit.
Proof.
  intros Hlimit. unfold ceil, Qceiling.
  assert (Heq : (- (inject_Z count / inject_Z limit) == inject_Z (- count) / inject_Z limit)%Q).
  { rewrite inject_Z_opp. field.
    intros H. change 0%Q with (inject_Z 0) in H.
    rewrite inject_Z_injective in H. lia. }
  rewrite Heq, <- Zdiv_Qdiv.
  pose proof (Z.div_mod (- count) limit ltac:(lia)) as H1.
  pose proof (Z.mod_pos_bound (- count) limit Hlimit) as H2.
  pose proof (Z.div_mod (count + limit - 1) limit ltac:(lia)) as H3.
  pose proof (Z.mod_pos_bound (count + limit - 1) limit Hlimit) as H4.
  nia.
Qed.

(** The first [k] pages of [n] rows each, one after the other, are the first
    [k * n] rows. *)
Lemma pages_concat {A} (n : nat) (rows : list A) (k : nat) :
  List.concat (map (fun p => firstn n (skipn (p * n) rows)) (List.seq 0 k))
  = firstn (k * n) rows.
Proof.
  induction k as [| k IH].
  - reflexivity.
  - rewrite seq_S, map_app, concat_app, IH. cbn [map List.concat Nat.add].
    rewrite app_nil_r.
    rewrite <- (firstn_skipn (k * n) (firstn (S k * n) rows)).
    rewrite firstn_firstn, skipn_firstn_comm.
    replace (Nat.min (k * n) (S k * n)) with (k * n)%nat by lia.
    replace (S k * n - k * n)%nat with n by lia.
    reflexivity.
Qed.

Lemma historyPage_rows {A} (page limit : Z) (completed : list A) :
  1 <= page -> 0 <= limit ->
  historyPage page limit completed
  = firstn (Z.to_nat limit)
           (skipn ((Z.to_nat page - 1) * Z.to_nat limit) completed).
Proof.
  intros Hpage Hlimit. unfold historyPage, limitOffset, offset.
  destruct (limit <? 0) eqn:E; [lia |].
  replace (Z.to_nat ((page - 1) * limit))
    with ((Z.to_nat page - 1) * Z.to_nat limit)%nat by nia.
  reflexivity.
Qed.

End PageFacts.

Module PinFacts.
Import ClientUi.

Lemma removeNonDigits_digits (text : string) :
  Forall (fun c => isDigit c = true) (removeNonDigits text).
Proof.
  induction text as [| c rest IH]; cbn [removeNonDigits].
  - constructor.
  - destruct (isDigit c) eqn:E; [constructor |]; assumption.
Qed.

Lemma firstn_digits (n : nat) (digits : list ascii) :
  Forall (fun c => isDigit c = true) digits ->
  Forall (fun c => isDigit c = true) (firstn n digits).
Proof.
  intros Hall. revert n.
  induction Hall as [| c rest Hc Hrest IH]; intros [| n]; cbn [firstn];
    constructor; auto.
Qed.

Lemma findEmpty_boxes (digits : list ascii) (empty : nat) (index : Z) :
  findEmpty (map Some digits ++ repeat None empty) index
  = match empty with
    | O => -1
    | S _ => index + Z.of_nat (List.length digits)
    end.
Proof.
  revert index. induction digits as [| c rest IH]; intros index.
  - destruct empty; cbn; lia.
  - cbn [map app findEmpty List.length]. rewrite IH. destruct empty; lia.
Qed.

Lemma boxes_of_digits (digits : list ascii) :
  (List.length digits <= 4)%nat ->
  map (fun index => nth_error digits index) [0; 1; 2; 3]%nat
  = map Some digits ++ repeat None (4 - List.length digits).
Proof.
  intros Hlen.
  destruct digits as [| a [| b [| c [| d [| e rest]]]]];
    cbn in Hlen |- *; try reflexivity; lia.
Qed.

End PinFacts.

Import KidRoutes ClientUi PageFacts PinFacts.

(** X27.  The pages of the task history.  For a limit of at least 1 the
    pages 1 to [totalPages] are never empty, hold at most [limit] rows each
    and, one after the other, are exactly the completed tasks in the order
    of the query; every later page is empty, and [totalPages], an integer
    that is not negative, is 0 exactly when there is no completed task. *)
Theorem history_pages_cover {A} (limit : Z) (completed : list A) :
  1 <= limit ->
  exists pages,
  totalPages (Z.of_nat (List.length completed)) limit = Js.ofInt pages
  /\ 0 <= pages
  /\ (pages = 0 <-> completed = [])
  /\ List.concat (map (fun page => historyPage (Z.of_nat page) limit completed)
                 (List.seq 1 (Z.to_nat pages)))
     = completed
  /\ (forall page, 1 <= page <= pages ->
        historyPage page limit completed <> []
        /\ Z.of_nat (List.length (historyPage page limit completed)) <= limit)
  /\ (forall page, pages < page -> historyPage page limit completed = []).
Proof.
  intros Hlimit.
  exists ((Z.of_nat (List.length completed) + limit - 1) / limit).
  split.
  { unfold totalPages. destruct (Z.eqb_spec limit 0) as [H0 | _]; [lia |].
    now rewrite ceil_div by lia. }
  set (pages := (Z.of_nat (List.length completed) + limit - 1) / limit).
  assert (Hpages : (pages - 1) * limit < Z.of_nat (List.length completed)
                   <= pages * limit).
  { unfold pages.
    pose proof (Z.div_mod (Z.of_nat (List.length completed) + limit - 1) limit
                          ltac:(lia)).
    pose proof (Z.mod_pos_bound (Z.of_nat (List.length completed) + limit - 1)
                                limit ltac:(lia)).
    nia. }
  clearbody pages.
  assert (Hnonneg : 0 <= pages) by nia.
  assert (Hrows : forall page, 1 <= page ->
            Z.of_nat ((Z.to_nat page - 1) * Z.to_nat limit) = (page - 1) * limit).
  { intros page Hpage. rewrite Nat2Z.inj_mul, Nat2Z.inj_sub, !Z2Nat.id by lia.
    reflexivity. }
  split; [exact Hnonneg |].
  split; [| split; [| split]].
  - split.
    + intros Hzero. apply length_zero_iff_nil. nia.
    + intros Hnil. subst completed. cbn [List.length] in Hpages. nia.
  - rewrite <- seq_shift, map_map.
    rewrite (map_ext _ (fun p => firstn (Z.to_nat limit)
                                        (skipn (p * Z.to_nat limit) completed))).
    + rewrite pages_concat. apply firstn_all2. apply Nat2Z.inj_le.
      rewrite Nat2Z.inj_mul, !Z2Nat.id by lia. lia.
    + intros p. rewrite historyPage_rows by lia.
      rewrite Nat2Z.id. replace (S p - 1)%nat with p by lia. reflexivity.
  - intros page Hpage. rewrite historyPage_rows by lia.
    specialize (Hrows page ltac:(lia)).
    rewrite length_firstn, length_skipn. split; [| lia].
    intros Hnil. apply (f_equal (@List.length A)) in Hnil.
    rewrite length_firstn, length_skipn in Hnil. cbn [List.length] in Hnil.
    nia.
  - intros page Hpage. rewrite historyPage_rows by lia.
    specialize (Hrows page ltac:(lia)).
    rewrite skipn_all2; [apply firstn_nil |]. nia.
Qed.

Lemma history_pages_cover_5_rows_by_2 :
  1 <= 2
  /\ exists pages,
     totalPages (Z.of_nat (List.length [10; 20; 30; 40; 50])) 2 = Js.ofInt pages
     /\ 0 <= pages
     /\ (pages = 0 <-> [10; 20; 30; 40; 50] = [])
     /\ List.concat (map (fun page => historyPage (Z.of_nat page) 2 [10; 20; 30; 40; 50])
                    (List.seq 1 (Z.to_nat pages)))
        = [10; 20; 30; 40; 50]
     /\ (forall page, 1 <= page <= pages ->
           historyPage page 2 [10; 20; 30; 40; 50] <> []
           /\ Z.of_nat (List.length (historyPage page 2 [10; 20; 30; 40; 50])) <= 2)
     /\ (forall page, pages < page -> historyPage page 2 [10; 20; 30; 40; 50] = []).
Proof.
  split; [lia |].
  apply (history_pages_cover 2 [10; 20; 30; 40; 50]). lia.
Defined.

(** X28.  The PIN field of the login page and of the add-kid dialog.  The
    PIN held after any sequence of inputs is the last input of at most four
    digits, or the PIN before them if there is none; so the PIN, which
    starts empty, never holds a non-digit or more than four characters. *)
Theorem pin_field_holds_last_valid (values : list string) (pin : string) :
  let valid value := ((String.length value <=? 4)%nat && allDigits value)%bool in
  fold_left handlePinChange values pin = last (filter valid values) pin
  /\ valid (fold_left handlePinChange values EmptyString) = true.
Proof.
  cbv zeta. split.
  - revert pin. induction values as [| value rest IH]; intros p.
    + reflexivity.
    + cbn [fold_left filter]. rewrite IH. unfold handlePinChange.
      destruct ((String.length value <=? 4)%nat && allDigits value)%bool eqn:E.
      * cbn [last].
        destruct (filter _ rest) as [| v vs] eqn:F; [reflexivity |].
        clear. revert v. induction vs as [| w ws IHw]; intros v; [reflexivity |].
        cbn [last] in *. apply IHw.
      * reflexivity.
  - assert (Hkept : forall p,
      ((String.length p <=? 4)%nat && allDigits p)%bool = true ->
      ((String.length (fold_left handlePinChange values p) <=? 4)%nat
       && allDigits (fold_left handlePinChange values p))%bool = true).
    { induction values as [| value rest IH]; intros p Hp.
      - exact Hp.
      - cbn [fold_left]. apply IH. unfold handlePinChange.
        destruct ((String.length value <=? 4)%nat && allDigits value)%bool eqn:E;
          [exact E | exact Hp]. }
    apply Hkept. reflexivity.
Qed.

(** X29.  Pasting into the four PIN boxes.  The boxes get the first four
    digits of the pasted text, in order, followed by empty boxes; nothing
    but digits gets in, and the focus goes to the first empty box, or to the
    last box when all four are filled. *)
Theorem paste_fills_boxes (pastedData : string) :
  let digits := firstn 4 (removeNonDigits pastedData) in
  pastedPin pastedData
  = map Some digits ++ repeat None (4 - List.length digits)
  /\ Forall (fun c => isDigit c = true) digits
  /\ (List.length digits <= 4)%nat
  /\ pasteFocus pastedData = Z.min (Z.of_nat (List.length digits)) 3.
Proof.
  cbv zeta.
  set (digits := firstn 4 (removeNonDigits pastedData)).
  assert (Hlen : (List.length digits <= 4)%nat).
  { unfold digits. rewrite length_firstn. lia. }
  assert (Hboxes : pastedPin pastedData
                   = map Some digits ++ repeat None (4 - List.length digits)).
  { unfold pastedPin. fold digits. apply boxes_of_digits, Hlen. }
  split; [exact Hboxes |].
  split; [| split; [exact Hlen |]].
  - unfold digits. apply firstn_digits, removeNonDigits_digits.
  - unfold pasteFocus. rewrite Hboxes, findEmpty_boxes.
    destruct (4 - List.length digits)%nat eqn:E.
    + change (-1 =? -1) with true. cbv iota. lia.
    + destruct (0 + Z.of_nat (List.length digits) =? -1) eqn:F; lia.
Qed.
